(** * A shallow embedding of the explicit-free-list allocator (mm.c)

    The allocator manages one growable heap with boundary-tag blocks, a
    LIFO doubly linked list of free blocks, first-fit placement with
    splitting and boundary-tag coalescing.

    Modelling conventions.
    - The target is the 32-bit build of the malloc lab: [size_t] and
      pointers are 32-bit words (the block layout, the 4-byte link slots at
      [bp] and [bp + WSIZE] and the addresses in the source comments all
      say so).  Words are [Z] values in [0, 2^32) and every arithmetic
      operation on them is wrapped explicitly.
    - Memory is a flat little-endian byte store [Z -> Z].
    - The globals [p_heap_list], [mp_firstfreeblock], [m_freecount] and the
      provider's break are fields of an explicit state record that every
      function threads through.
    - A ghost [trace] records, in program order, the provider calls, the
      tag writes ([PUT]), the link writes and the free-list calls. *)

From Stdlib Require Import ZArith List Bool Lia.
Import ListNotations.
Local Open Scope Z_scope.

Ltac Zify.zify_post_hook ::= Z.to_euclidean_division_equations.

(** ** Machine words *)

Definition WORD : Z := 4294967296.

Definition wrap (x : Z) : Z := x mod WORD.
Definition wadd (a b : Z) : Z := wrap (a + b).
Definition wsub (a b : Z) : Z := wrap (a - b).
Definition wmul (a b : Z) : Z := wrap (a * b).

(** ** Byte memory, word loads and stores *)

Definition memory := Z -> Z.

Definition load (m : memory) (p : Z) : Z :=
  m p + 256 * m (p + 1) + 65536 * m (p + 2) + 16777216 * m (p + 3).

Definition store (m : memory) (p v : Z) : memory :=
  fun x =>
    if x =? p then v mod 256
    else if x =? p + 1 then (v / 256) mod 256
    else if x =? p + 2 then (v / 65536) mod 256
    else if x =? p + 3 then (v / 16777216) mod 256
    else m x.

Definition copy_bytes (m : memory) (dst src n : Z) : memory :=
  fun x => if (dst <=? x) && (x <? dst + n) then m (src + (x - dst)) else m x.

(** ** Program state *)

Inductive event :=
| EvSbrk (incr : Z)
| EvPut (addr val : Z)
| EvLink (addr val : Z)
| EvRemove (bp : Z)
| EvInsert (bp : Z)
| EvMemcpy (dst src n : Z).

Record state := mkState {
  mem : memory;
  mem_brk : Z;
  mem_max_addr : Z;
  p_heap_list : Z;
  mp_firstfreeblock : Z;
  m_freecount : Z;
  trace : list event
}.

Definition with_mem (s : state) (m : memory) (e : event) : state :=
  mkState m (mem_brk s) (mem_max_addr s) (p_heap_list s)
          (mp_firstfreeblock s) (m_freecount s) (trace s ++ [e]).

Definition set_p_heap_list (s : state) (p : Z) : state :=
  mkState (mem s) (mem_brk s) (mem_max_addr s) p
          (mp_firstfreeblock s) (m_freecount s) (trace s).

Definition set_firstfree (s : state) (p : Z) : state :=
  mkState (mem s) (mem_brk s) (mem_max_addr s) (p_heap_list s)
          p (m_freecount s) (trace s).

Definition set_freecount (s : state) (n : Z) : state :=
  mkState (mem s) (mem_brk s) (mem_max_addr s) (p_heap_list s)
          (mp_firstfreeblock s) n (trace s).

Definition log (s : state) (e : event) : state :=
  mkState (mem s) (mem_brk s) (mem_max_addr s) (p_heap_list s)
          (mp_firstfreeblock s) (m_freecount s) (trace s ++ [e]).

(** ** Constants and macros of mm.c *)

Definition NULL : Z := 0.
Definition MINUS1 : Z := 4294967295.   (* (void * )-1 *)

Definition WSIZE : Z := 4.
Definition DSIZE : Z := 8.
Definition CHUNKSIZE : Z := 4096.      (* 1<<12 *)
Definition OVERHEAD : Z := 8.

Definition PACK (size alloc : Z) : Z := Z.lor size alloc.

Definition GET (s : state) (p : Z) : Z := load (mem s) p.
Definition PUT (s : state) (p val : Z) : state :=
  with_mem s (store (mem s) p val) (EvPut p val).

(* [~0x7] is the int -8; and-ed with a size_t it is 0xFFFFFFF8 *)
Definition GET_SIZE (s : state) (p : Z) : Z := Z.land (GET s p) (wrap (Z.lnot 7)).
Definition GET_ALLOC (s : state) (p : Z) : Z := Z.land (GET s p) 1.

Definition HDRP (bp : Z) : Z := wsub bp WSIZE.
Definition FTRP (s : state) (bp : Z) : Z :=
  wsub (wadd bp (GET_SIZE s (HDRP bp))) DSIZE.

Definition NEXT_BLKP (s : state) (bp : Z) : Z :=
  wadd bp (GET_SIZE s (wsub bp WSIZE)).
Definition PREV_BLKP (s : state) (bp : Z) : Z :=
  wsub bp (GET_SIZE s (wsub bp DSIZE)).

Definition PRE_PTR (bp : Z) : Z := bp.
Definition SUC_PTR (bp : Z) : Z := wadd bp WSIZE.

Definition PREV (s : state) (bp : Z) : Z := load (mem s) bp.
Definition SUCC (s : state) (bp : Z) : Z := load (mem s) (SUC_PTR bp).

(* the assignments [PREV(bp) = v] and [SUCC(bp) = v] *)
Definition set_PREV (s : state) (bp v : Z) : state :=
  with_mem s (store (mem s) bp v) (EvLink bp v).
Definition set_SUCC (s : state) (bp v : Z) : state :=
  with_mem s (store (mem s) (SUC_PTR bp) v) (EvLink (SUC_PTR bp) v).

(** ** The memory provider *)

(** Modelled from the spec: [mem_sbrk] (memlib.c is not part of the
    sources).  [grow(n)] extends the heap by exactly [n] bytes contiguous
    with the previous high-water mark and returns the start of the new
    region, or the failure sentinel [(void * )-1] when no more address
    space is available. *)
Definition mem_sbrk (s : state) (incr : Z) : Z * state :=
  let s := log s (EvSbrk incr) in
  if mem_brk s + incr <=? mem_max_addr s then
    (mem_brk s,
     mkState (mem s) (mem_brk s + incr) (mem_max_addr s) (p_heap_list s)
             (mp_firstfreeblock s) (m_freecount s) (trace s))
  else (MINUS1, s).

(** ** Free-list primitives *)

Definition free_block (s : state) (block_ptr : Z) : state :=
  let s := log s (EvInsert block_ptr) in
  let s := set_freecount s (m_freecount s + 1) in
  if (mp_firstfreeblock s =? p_heap_list s) || (mp_firstfreeblock s =? NULL) then
    let s := set_SUCC s block_ptr NULL in
    let s := set_PREV s block_ptr NULL in
    set_firstfree s block_ptr
  else
    let s := set_SUCC s block_ptr (mp_firstfreeblock s) in
    let s := set_PREV s block_ptr NULL in
    let s := set_PREV s (mp_firstfreeblock s) block_ptr in
    set_firstfree s block_ptr.

Definition allocate_block (s : state) (block_ptr : Z) : state :=
  let s := log s (EvRemove block_ptr) in
  let s := set_freecount s (m_freecount s - 1) in
  if m_freecount s =? 0 then
    let s := set_PREV s block_ptr NULL in
    let s := set_SUCC s block_ptr NULL in
    set_firstfree s NULL
  else if m_freecount s =? -1 then
    set_freecount s 0
  else
    let pp := PREV s block_ptr in
    let np := SUCC s block_ptr in
    if np =? NULL then
      let s := set_SUCC s pp NULL in
      let s := set_SUCC s block_ptr NULL in
      set_PREV s block_ptr NULL
    else if pp =? NULL then
      let s := set_firstfree s (SUCC s block_ptr) in
      let s := set_PREV s (mp_firstfreeblock s) NULL in
      let s := set_PREV s block_ptr NULL in
      set_SUCC s block_ptr NULL
    else
      let s := set_SUCC s pp np in
      let s := set_PREV s np pp in
      let s := set_SUCC s block_ptr NULL in
      set_PREV s block_ptr NULL.

(** ** Coalescing *)

Definition coalesce (s : state) (block_ptr : Z) : Z * state :=
  let prev_alloc := GET_ALLOC s (FTRP s (PREV_BLKP s block_ptr)) in
  let next_alloc := GET_ALLOC s (HDRP (NEXT_BLKP s block_ptr)) in
  let size := GET_SIZE s (HDRP block_ptr) in
  if negb (prev_alloc =? 0) && negb (next_alloc =? 0) then       (* Case 1 *)
    (block_ptr, free_block s block_ptr)
  else if negb (prev_alloc =? 0) && (next_alloc =? 0) then       (* Case 2 *)
    let s := allocate_block s (NEXT_BLKP s block_ptr) in
    let size := wadd size (GET_SIZE s (HDRP (NEXT_BLKP s block_ptr))) in
    let s := PUT s (HDRP block_ptr) (PACK size 0) in
    let s := PUT s (FTRP s block_ptr) (PACK size 0) in
    (block_ptr, free_block s block_ptr)
  else if (prev_alloc =? 0) && negb (next_alloc =? 0) then       (* Case 3 *)
    let s := allocate_block s (PREV_BLKP s block_ptr) in
    let size := wadd size (GET_SIZE s (HDRP (PREV_BLKP s block_ptr))) in
    let s := PUT s (FTRP s block_ptr) (PACK size 0) in
    let s := PUT s (HDRP (PREV_BLKP s block_ptr)) (PACK size 0) in
    let block_ptr := PREV_BLKP s block_ptr in
    (block_ptr, free_block s block_ptr)
  else                                                           (* Case 4 *)
    let s := allocate_block s (NEXT_BLKP s block_ptr) in
    let s := allocate_block s (PREV_BLKP s block_ptr) in
    let size := wadd size (wadd (GET_SIZE s (HDRP (PREV_BLKP s block_ptr)))
                                (GET_SIZE s (FTRP s (NEXT_BLKP s block_ptr)))) in
    let s := PUT s (HDRP (PREV_BLKP s block_ptr)) (PACK size 0) in
    let s := PUT s (FTRP s (NEXT_BLKP s block_ptr)) (PACK size 0) in
    let block_ptr := PREV_BLKP s block_ptr in
    (block_ptr, free_block s block_ptr).

(** ** Heap growth *)

Definition extend_heap (s : state) (words : Z) : Z * state :=
  let size := if negb (words mod 2 =? 0) then wmul (wadd words 1) WSIZE
              else wmul words WSIZE in
  let (block_ptr, s) := mem_sbrk s size in
  if block_ptr =? MINUS1 then (NULL, s)
  else
    let s := PUT s (HDRP block_ptr) (PACK size 0) in
    let s := PUT s (FTRP s block_ptr) (PACK size 0) in
    let s := PUT s (HDRP (NEXT_BLKP s block_ptr)) (PACK 0 1) in
    coalesce s block_ptr.

(** ** Placement *)

Definition place (s : state) (block_ptr asize : Z) : state :=
  let csize := GET_SIZE s (HDRP block_ptr) in
  let s := allocate_block s block_ptr in
  if DSIZE + OVERHEAD <=? wsub csize asize then
    let s := PUT s (HDRP block_ptr) (PACK asize 1) in
    let s := PUT s (FTRP s block_ptr) (PACK asize 1) in
    let block_ptr := NEXT_BLKP s block_ptr in
    let s := PUT s (HDRP block_ptr) (PACK (wsub csize asize) 0) in
    let s := PUT s (FTRP s block_ptr) (PACK (wsub csize asize) 0) in
    free_block s block_ptr
  else
    let s := PUT s (HDRP block_ptr) (PACK csize 1) in
    PUT s (FTRP s block_ptr) (PACK csize 1).

(** The [for] loop of [find_fit]; [fuel] bounds the number of iterations,
    [None] means the bound was reached. *)
Fixpoint find_fit_loop (fuel : nat) (s : state) (asize block_ptr : Z) : option Z :=
  match fuel with
  | O => None
  | S fuel' =>
      if 0 <=? m_freecount s then
        if block_ptr =? NULL then Some NULL
        else if (GET_ALLOC s (HDRP block_ptr) =? 0)
                && (asize <=? GET_SIZE s (HDRP block_ptr))
        then Some block_ptr
        else find_fit_loop fuel' s asize (SUCC s block_ptr)
      else Some NULL
  end.

Definition find_fit (fuel : nat) (s : state) (asize : Z) : option Z :=
  find_fit_loop fuel s asize (mp_firstfreeblock s).

(** ** Public operations *)

Definition mm_init (s : state) : Z * state :=
  let (p, s) := mem_sbrk s (4 * WSIZE) in
  let s := set_p_heap_list s p in
  if p_heap_list s =? NULL then (-1, s)
  else
    let s := PUT s (p_heap_list s) 0 in
    let s := PUT s (wadd (p_heap_list s) WSIZE) (PACK OVERHEAD 1) in
    let s := PUT s (wadd (p_heap_list s) DSIZE) (PACK OVERHEAD 1) in
    let s := PUT s (wadd (wadd (p_heap_list s) WSIZE) DSIZE) (PACK 0 1) in
    let s := set_p_heap_list s (wadd (p_heap_list s) DSIZE) in
    let s := set_firstfree s (p_heap_list s) in
    let s := set_freecount s 0 in
    let (r, s) := extend_heap s (CHUNKSIZE / WSIZE) in
    if r =? NULL then (-1, s)
    else
      let s := set_SUCC s (wadd (mp_firstfreeblock s) WSIZE) NULL in
      let s := set_PREV s (wadd (mp_firstfreeblock s) WSIZE) NULL in
      (0, s).

(** The adjusted block size computed by [mm_malloc]. *)
Definition adjust_size (size : Z) : Z :=
  if size <=? DSIZE then DSIZE + OVERHEAD
  else wmul DSIZE (wadd (wadd size OVERHEAD) (DSIZE - 1) / DSIZE).

Definition mm_malloc (fuel : nat) (s : state) (size : Z) : option (Z * state) :=
  if size <=? 0 then Some (NULL, s)
  else
    let asize := adjust_size size in
    match find_fit fuel s asize with
    | None => None
    | Some block_ptr =>
        if negb (block_ptr =? NULL) then
          Some (block_ptr, place s block_ptr asize)
        else
          let extendsize := Z.max asize CHUNKSIZE in
          let (block_ptr, s) := extend_heap s (extendsize / WSIZE) in
          if block_ptr =? NULL then Some (NULL, s)
          else Some (block_ptr, place s block_ptr asize)
    end.

Definition mm_free (s : state) (block_ptr : Z) : state :=
  let size := GET_SIZE s (HDRP block_ptr) in
  let s := PUT s (HDRP block_ptr) (PACK size 0) in
  let s := PUT s (FTRP s block_ptr) (PACK size 0) in
  snd (coalesce s block_ptr).

Definition memcpy (s : state) (dst src n : Z) : state :=
  with_mem s (copy_bytes (mem s) dst src n) (EvMemcpy dst src n).

Inductive outcome :=
| Returned (p : Z) (s : state)
| Exited (status : Z) (s : state)
| OutOfFuel.

Definition mm_realloc (fuel : nat) (s : state) (ptr size : Z) : outcome :=
  match mm_malloc fuel s size with
  | None => OutOfFuel
  | Some (newp, s) =>
      if newp =? NULL then Exited 1 s
      else
        let copySize := GET_SIZE s (HDRP ptr) in
        let copySize := if size <? copySize then size else copySize in
        let s := memcpy s newp ptr copySize in
        Returned newp (mm_free s ptr)
  end.

(** A store by the client into memory it holds. *)
Definition client_store (s : state) (p v : Z) : state :=
  mkState (store (mem s) p v) (mem_brk s) (mem_max_addr s) (p_heap_list s)
          (mp_firstfreeblock s) (m_freecount s) (trace s).

(** The provider before [mm_init]: an empty region starting at [base]. *)
Definition fresh (m : memory) (base limit : Z) : state :=
  mkState m base limit 0 0 0 [].

(** ** The heap checker *)

(** What the checker prints: one constructor for each [printf] format of
    the checking routines, carrying the arguments of the format.  The
    [%c] arguments of [printblock] are ['a'] for [true] and ['f'] for
    [false]. *)
Inductive message :=
| MsgHeap (p : Z)                (* Heap (%p): *)
| MsgBadPrologue                 (* Bad prologue header *)
| MsgBadEpilogue                 (* Bad epilogue header *)
| MsgEOL (bp : Z)                (* %p: EOL *)
| MsgBlock (bp hsize : Z) (halloc : bool) (fsize : Z) (falloc : bool)
                                 (* %p: header: [%d:%c] footer: [%d:%c] *)
| MsgNotAligned (bp : Z)         (* Error: %p is not doubleword aligned *)
| MsgMismatch.                   (* Error: header does not match footer *)

Definition printblock (s : state) (block_ptr : Z) : list message :=
  let hsize := GET_SIZE s (HDRP block_ptr) in
  let halloc := GET_ALLOC s (HDRP block_ptr) in
  let fsize := GET_SIZE s (FTRP s block_ptr) in
  let falloc := GET_ALLOC s (FTRP s block_ptr) in
  if hsize =? 0 then [MsgEOL block_ptr]
  else [MsgBlock block_ptr hsize (negb (halloc =? 0)) fsize (negb (falloc =? 0))].

Definition checkblock (s : state) (block_ptr : Z) : list message :=
  (if negb (block_ptr mod 8 =? 0) then [MsgNotAligned block_ptr] else []) ++
  (if negb (GET s (HDRP block_ptr) =? GET s (FTRP s block_ptr)) then [MsgMismatch]
   else []).

(** The [for] loop of [mm_checkheap]: the block pointer on exit and the
    lines printed; [None] when [fuel] iterations were not enough. *)
Fixpoint checkheap_loop (fuel : nat) (s : state) (verbose block_ptr : Z)
  : option (Z * list message) :=
  match fuel with
  | O => None
  | S fuel' =>
      if 0 <? GET_SIZE s (HDRP block_ptr) then
        let out := (if negb (verbose =? 0) then printblock s block_ptr else []) ++
                   checkblock s block_ptr in
        match checkheap_loop fuel' s verbose (NEXT_BLKP s block_ptr) with
        | None => None
        | Some (last, rest) => Some (last, out ++ rest)
        end
      else Some (block_ptr, [])
  end.

Definition mm_checkheap (fuel : nat) (s : state) (verbose : Z) : option (list message) :=
  let out := if negb (verbose =? 0) then [MsgHeap (p_heap_list s)] else [] in
  let out := out ++
    (if negb (GET_SIZE s (HDRP (p_heap_list s)) =? DSIZE)
        || (GET_ALLOC s (HDRP (p_heap_list s)) =? 0)
     then [MsgBadPrologue] else []) in
  let out := out ++ checkblock s (p_heap_list s) in
  match checkheap_loop fuel s verbose (p_heap_list s) with
  | None => None
  | Some (block_ptr, body) =>
      let out := out ++ body in
      let out := out ++ (if negb (verbose =? 0) then printblock s block_ptr else []) in
      Some (out ++
            (if negb (GET_SIZE s (HDRP block_ptr) =? 0)
                || (GET_ALLOC s (HDRP block_ptr) =? 0)
             then [MsgBadEpilogue] else []))
  end.

(** The [for] loop of [printfree]. *)
Fixpoint printfree_loop (fuel : nat) (s : state) (block_ptr : Z) : option (list message) :=
  match fuel with
  | O => None
  | S fuel' =>
      if 0 <? GET_SIZE s (HDRP block_ptr) then
        let next_alloc := GET_ALLOC s (HDRP block_ptr) in
        let out := if next_alloc =? 0 then printblock s block_ptr else [] in
        match printfree_loop fuel' s (NEXT_BLKP s block_ptr) with
        | None => None
        | Some rest => Some (out ++ rest)
        end
      else Some []
  end.

Definition printfree (fuel : nat) (s : state) : option (list message) :=
  printfree_loop fuel s (p_heap_list s).

(** ** The earlier [find_fit] (mm_old.c) *)

(** The first draft kept the globals [freelist] and [freecount] and
    scanned [freecount] blocks from [freelist], stepping with
    [NEXT_BLKP]; the globals are parameters here.  The loop runs
    [freecount] times, [n] counts the iterations left and [i] is the
    loop index. *)
Fixpoint old_find_fit_loop (n : nat) (s : state) (freecount asize bp i : Z) : Z :=
  match n with
  | O => NULL
  | S n' =>
      if (GET_ALLOC s (HDRP bp) =? 0) && (asize <=? GET_SIZE s (HDRP bp)) then bp
      else
        let bp := if i <? freecount - 1 then NEXT_BLKP s bp else bp in
        old_find_fit_loop n' s freecount asize bp (i + 1)
  end.

Definition old_find_fit (s : state) (freelist freecount asize : Z) : Z :=
  old_find_fit_loop (Z.to_nat freecount) s freecount asize freelist 0.

(** * Verification *)

(** ** Words and boundary tags *)

Lemma wrap_small (x : Z) : 0 <= x < WORD -> wrap x = x.
Proof. intros H. unfold wrap. apply Z.mod_small. exact H. Qed.

Lemma wrap_range (x : Z) : 0 <= wrap x < WORD.
Proof. unfold wrap, WORD. apply Z.mod_pos_bound. reflexivity. Qed.

Lemma mask_size_eq : wrap (Z.lnot 7) = Z.land (Z.lnot (Z.ones 3)) (Z.ones 32).
Proof. reflexivity. Qed.

Lemma land_size (v : Z) :
  0 <= v < WORD -> Z.land v (wrap (Z.lnot 7)) = 8 * (v / 8).
Proof.
  intros Hv. rewrite mask_size_eq.
  rewrite (Z.land_comm (Z.lnot (Z.ones 3))), Z.land_assoc.
  rewrite (Z.land_ones v 32) by lia.
  change (2 ^ 32) with WORD. rewrite Z.mod_small by exact Hv.
  change (Z.land v (Z.lnot (Z.ones 3))) with (Z.ldiff v (Z.ones 3)).
  rewrite Z.ldiff_ones_r by lia.
  rewrite Z.shiftl_mul_pow2, Z.shiftr_div_pow2 by lia.
  change (2 ^ 3) with 8. lia.
Qed.

Lemma land_alloc (v : Z) : Z.land v 1 = v mod 2.
Proof. change 1 with (Z.ones 1). rewrite Z.land_ones by lia. reflexivity. Qed.

Lemma PACK_free (sz : Z) : PACK sz 0 = sz.
Proof. apply Z.lor_0_r. Qed.

Lemma PACK_alloc (sz : Z) : sz mod 8 = 0 -> PACK sz 1 = sz + 1.
Proof.
  intros H. unfold PACK.
  assert (Hl : Z.land sz 1 = 0).
  { rewrite land_alloc. lia. }
  rewrite <- Z.lxor_lor by exact Hl.
  symmetry. apply Z.add_nocarry_lxor. exact Hl.
Qed.

(** The tag word of a block of size [sz] with allocated flag [a]. *)
Definition tag (sz : Z) (a : bool) : Z := if a then sz + 1 else sz.

Lemma PACK_tag (sz : Z) (a : bool) :
  sz mod 8 = 0 -> PACK sz (if a then 1 else 0) = tag sz a.
Proof.
  intros H. destruct a; simpl; [apply PACK_alloc; exact H | apply PACK_free].
Qed.

(** ** Loads and stores *)

Lemma load_store_same (m : memory) (p v : Z) :
  load (store m p v) p = wrap v.
Proof.
  unfold load, store, wrap, WORD.
  rewrite !Z.eqb_refl.
  replace (p + 1 =? p) with false by (symmetry; apply Z.eqb_neq; lia).
  replace (p + 2 =? p) with false by (symmetry; apply Z.eqb_neq; lia).
  replace (p + 3 =? p) with false by (symmetry; apply Z.eqb_neq; lia).
  replace (p + 2 =? p + 1) with false by (symmetry; apply Z.eqb_neq; lia).
  replace (p + 3 =? p + 1) with false by (symmetry; apply Z.eqb_neq; lia).
  replace (p + 3 =? p + 2) with false by (symmetry; apply Z.eqb_neq; lia).
  lia.
Qed.

Lemma store_other (m : memory) (p v x : Z) :
  x < p \/ p + 4 <= x -> store m p v x = m x.
Proof.
  intros H. unfold store.
  replace (x =? p) with false by (symmetry; apply Z.eqb_neq; lia).
  replace (x =? p + 1) with false by (symmetry; apply Z.eqb_neq; lia).
  replace (x =? p + 2) with false by (symmetry; apply Z.eqb_neq; lia).
  replace (x =? p + 3) with false by (symmetry; apply Z.eqb_neq; lia).
  reflexivity.
Qed.

Lemma load_store_other (m : memory) (p v q : Z) :
  q + 4 <= p \/ p + 4 <= q -> load (store m p v) q = load m q.
Proof.
  intros H. unfold load. rewrite !store_other by lia. reflexivity.
Qed.

Lemma copy_bytes_in (m : memory) (dst src n x : Z) :
  dst <= x < dst + n -> copy_bytes m dst src n x = m (src + (x - dst)).
Proof.
  intros H. unfold copy_bytes.
  replace (dst <=? x) with true by (symmetry; apply Z.leb_le; lia).
  replace (x <? dst + n) with true by (symmetry; apply Z.ltb_lt; lia).
  reflexivity.
Qed.

Lemma copy_bytes_out (m : memory) (dst src n x : Z) :
  x < dst \/ dst + n <= x -> copy_bytes m dst src n x = m x.
Proof.
  intros H. unfold copy_bytes.
  destruct (Z.leb_spec dst x); destruct (Z.ltb_spec x (dst + n));
    simpl; try reflexivity; lia.
Qed.

Lemma load_copy_out (m : memory) (dst src n q : Z) :
  q + 4 <= dst \/ dst + n <= q -> load (copy_bytes m dst src n) q = load m q.
Proof.
  intros H. unfold load. rewrite !copy_bytes_out by lia. reflexivity.
Qed.

Lemma GET_SIZE_tag (s : state) (p sz : Z) (a : bool) :
  load (mem s) p = tag sz a -> 0 <= sz -> sz mod 8 = 0 -> sz + 1 < WORD ->
  GET_SIZE s p = sz.
Proof.
  intros Hl H0 H8 Hw. unfold GET_SIZE, GET. rewrite Hl.
  rewrite land_size by (unfold tag; destruct a; lia).
  unfold tag; destruct a; lia.
Qed.

Lemma GET_ALLOC_tag (s : state) (p sz : Z) (a : bool) :
  load (mem s) p = tag sz a -> sz mod 8 = 0 ->
  GET_ALLOC s p = if a then 1 else 0.
Proof.
  intros Hl H8. unfold GET_ALLOC, GET. rewrite Hl, land_alloc.
  unfold tag; destruct a; lia.
Qed.

Lemma wadd_small (a b : Z) : 0 <= a + b < WORD -> wadd a b = a + b.
Proof. intros H. unfold wadd. apply wrap_small. exact H. Qed.

Lemma wsub_small (a b : Z) : 0 <= a - b < WORD -> wsub a b = a - b.
Proof. intros H. unfold wsub. apply wrap_small. exact H. Qed.

(** ** The abstract heap: a block map and a free list *)

(** [M b = Some (sz, a)] says that a block with payload address [b], total
    size [sz] and allocated flag [a] is part of the heap. *)
Definition bmap := Z -> option (Z * bool).

Definition bupd (M : bmap) (b : Z) (v : option (Z * bool)) : bmap :=
  fun x => if x =? b then v else M x.

Lemma bupd_same (M : bmap) (b : Z) v : bupd M b v b = v.
Proof. unfold bupd. rewrite Z.eqb_refl. reflexivity. Qed.

Lemma bupd_other (M : bmap) (b x : Z) v : x <> b -> bupd M b v x = M x.
Proof.
  intros H. unfold bupd. destruct (Z.eqb_spec x b); [contradiction | reflexivity].
Qed.

(** The blocks of [M] tile the address range [lo, hi) without gaps. *)
Record tiling (lo hi : Z) (M : bmap) : Prop := mkTiling {
  til_range : forall b sz a, M b = Some (sz, a) ->
      lo <= b /\ b + sz <= hi /\ 16 <= sz /\ sz mod 8 = 0 /\ b mod 8 = 0;
  til_next : forall b sz a, M b = Some (sz, a) ->
      b + sz = hi \/ exists sz' a', M (b + sz) = Some (sz', a');
  til_prev : forall b sz a, M b = Some (sz, a) ->
      b = lo \/ exists b' sz' a', M b' = Some (sz', a') /\ b' + sz' = b;
  til_disj : forall b1 sz1 a1 b2 sz2 a2,
      M b1 = Some (sz1, a1) -> M b2 = Some (sz2, a2) -> b1 < b2 -> b1 + sz1 <= b2;
  til_first : lo = hi \/ exists sz a, M lo = Some (sz, a);
  til_last : lo = hi \/ exists b sz a, M b = Some (sz, a) /\ b + sz = hi
}.

(** The boundary tags in memory describe [M]; the prologue and the
    epilogue bracket it. *)
Record layout (s : state) (M : bmap) : Prop := mkLayout {
  lay_base : 8 <= p_heap_list s /\ p_heap_list s mod 8 = 0;
  lay_brk : p_heap_list s + 8 <= mem_brk s /\ mem_brk s <= mem_max_addr s /\
            mem_max_addr s < WORD;
  lay_prologue : load (mem s) (p_heap_list s - 4) = 9 /\
                 load (mem s) (p_heap_list s) = 9;
  lay_epilogue : load (mem s) (mem_brk s - 4) = 1;
  lay_tiling : tiling (p_heap_list s + 8) (mem_brk s) M;
  lay_tags : forall b sz a, M b = Some (sz, a) ->
      load (mem s) (b - 4) = tag sz a /\ load (mem s) (b + sz - 8) = tag sz a
}.

(** A doubly linked segment: [PREV] of the first node is [prev], [SUCC] of
    the last one is [nxt]. *)
Fixpoint dlseg (m : memory) (prev : Z) (l : list Z) (nxt : Z) : Prop :=
  match l with
  | [] => True
  | x :: r => load m x = prev /\ load m (x + 4) = hd nxt r /\ dlseg m x r nxt
  end.

(** The free list of the state is [fl], and its nodes are free blocks. *)
Record flist (s : state) (M : bmap) (fl : list Z) : Prop := mkFlist {
  fl_links : dlseg (mem s) NULL fl NULL;
  fl_head : mp_firstfreeblock s = hd NULL fl;
  fl_count : m_freecount s = Z.of_nat (length fl);
  fl_nodup : NoDup fl;
  fl_free : forall f, In f fl -> exists sz, M f = Some (sz, false)
}.

(** Quiescent heaps: every free block is on the list and no two free
    blocks are neighbours. *)
Definition all_listed (M : bmap) (fl : list Z) : Prop :=
  forall b sz, M b = Some (sz, false) -> In b fl.

Definition coalesced (M : bmap) : Prop :=
  forall b sz sz', M b = Some (sz, false) -> M (b + sz) = Some (sz', false) -> False.

Record heap_rep (s : state) (M : bmap) (fl : list Z) : Prop := mkHeapRep {
  hr_layout : layout s M;
  hr_flist : flist s M fl;
  hr_listed : all_listed M fl;
  hr_coalesced : coalesced M
}.

Definition heap_ok (s : state) : Prop := exists M fl, heap_rep s M fl.

(** ** Doubly linked segments *)

Definition nodes_ok (l : list Z) : Prop :=
  NoDup l /\ forall x, In x l -> x mod 8 = 0 /\ 0 < x.

Lemma nodes_ok_cons (x : Z) (l : list Z) :
  nodes_ok (x :: l) -> nodes_ok l /\ ~ In x l /\ x mod 8 = 0 /\ 0 < x.
Proof.
  intros [Hnd Hal]. apply NoDup_cons_iff in Hnd. destruct Hnd as [Hnx Hndr].
  destruct (Hal x (or_introl eq_refl)) as [H8 H0].
  split; [split; [assumption|] | auto].
  intros y Hy. apply Hal. right. exact Hy.
Qed.

Lemma nodes_ok_app (l1 l2 : list Z) :
  nodes_ok (l1 ++ l2) -> nodes_ok l1 /\ nodes_ok l2.
Proof.
  intros [Hnd Hal]. split; split.
  - apply NoDup_app_remove_r in Hnd. exact Hnd.
  - intros x Hx. apply Hal. apply in_or_app. left. exact Hx.
  - apply NoDup_app_remove_l in Hnd. exact Hnd.
  - intros x Hx. apply Hal. apply in_or_app. right. exact Hx.
Qed.

Lemma dlseg_frame (m m' : memory) (l : list Z) :
  (forall x, In x l -> load m' x = load m x /\ load m' (x + 4) = load m (x + 4)) ->
  forall p n, dlseg m p l n -> dlseg m' p l n.
Proof.
  induction l as [|x r IH]; intros Hf p n H; simpl in *.
  - exact I.
  - destruct H as (H1 & H2 & H3).
    destruct (Hf x (or_introl eq_refl)) as [E1 E2].
    rewrite E1, E2. split; [exact H1|]. split; [exact H2|].
    apply IH; auto.
Qed.

Lemma last_default (l : list Z) (d d' : Z) : l <> [] -> last l d = last l d'.
Proof.
  induction l as [|x r IH]; intros H; [contradiction|].
  destruct r as [|y r']; [reflexivity|].
  change (last (x :: y :: r') d) with (last (y :: r') d).
  change (last (x :: y :: r') d') with (last (y :: r') d').
  apply IH. discriminate.
Qed.

Lemma last_cons (x : Z) (r : list Z) (d : Z) : last (x :: r) d = last r x.
Proof.
  destruct r as [|y r']; [reflexivity|].
  change (last (x :: y :: r') d) with (last (y :: r') d).
  apply last_default. discriminate.
Qed.

Lemma last_in (l : list Z) (d : Z) : l <> [] -> In (last l d) l.
Proof.
  induction l as [|x r IH]; intros H; [contradiction|].
  destruct r as [|y r']; [left; reflexivity|].
  right. apply IH. discriminate.
Qed.

Lemma hd_in (l : list Z) (d : Z) : l <> [] -> In (hd d l) l.
Proof. destruct l; intros H; [contradiction | left; reflexivity]. Qed.

Lemma dlseg_app (m : memory) (l1 l2 : list Z) (p n : Z) :
  dlseg m p (l1 ++ l2) n <->
  dlseg m p l1 (hd n l2) /\ dlseg m (last l1 p) l2 n.
Proof.
  revert p. induction l1 as [|x r IH]; intros p.
  - simpl. tauto.
  - rewrite last_cons. simpl. rewrite IH.
    assert (Hh : hd n (r ++ l2) = hd (hd n l2) r) by (destruct r; reflexivity).
    rewrite Hh. tauto.
Qed.

Lemma dlseg_retarget (m m' : memory) (l : list Z) (p n n' : Z) :
  l <> [] ->
  (forall x, In x l -> load m' x = load m x) ->
  (forall x, In x l -> x <> last l p -> load m' (x + 4) = load m (x + 4)) ->
  load m' (last l p + 4) = n' ->
  NoDup l ->
  dlseg m p l n -> dlseg m' p l n'.
Proof.
  revert p. induction l as [|x r IH]; intros p Hne Hp Hs Hl Hnd H.
  - contradiction.
  - simpl in H. destruct H as (H1 & H2 & H3).
    apply NoDup_cons_iff in Hnd. destruct Hnd as [Hnx Hndr].
    rewrite last_cons in Hl, Hs.
    destruct r as [|y r'].
    + simpl in *. rewrite Hp by auto. auto.
    + assert (Hx : x <> last (y :: r') x).
      { intros E. apply Hnx. rewrite E. apply last_in. discriminate. }
      simpl. rewrite Hp by (left; reflexivity).
      rewrite (Hs x) by (auto; left; reflexivity).
      split; [exact H1|]. split; [exact H2|].
      apply IH; auto.
      * discriminate.
      * intros z Hz. apply Hp. right. exact Hz.
      * intros z Hz Hzl. apply Hs; [right; exact Hz | exact Hzl].
Qed.

Lemma dlseg_rehead (m m' : memory) (l : list Z) (p p' n : Z) :
  (forall x, In x l -> load m' (x + 4) = load m (x + 4)) ->
  (forall x, In x l -> x <> hd 0 l -> load m' x = load m x) ->
  (l <> [] -> load m' (hd 0 l) = p') ->
  NoDup l ->
  dlseg m p l n -> dlseg m' p' l n.
Proof.
  intros Hs Hp Hh Hnd H. destruct l as [|x r]; [exact I|].
  simpl in *. destruct H as (H1 & H2 & H3).
  apply NoDup_cons_iff in Hnd. destruct Hnd as [Hnx Hndr].
  rewrite Hh by discriminate. rewrite Hs by auto.
  repeat split; auto.
  apply dlseg_frame with (m := m); auto.
  intros z Hz. split.
  - apply Hp; [right; exact Hz|]. intros E. subst. contradiction.
  - apply Hs. right. exact Hz.
Qed.

(** ** Facts read off a layout *)

Definition same_regs (s s' : state) : Prop :=
  mem_brk s' = mem_brk s /\ mem_max_addr s' = mem_max_addr s /\
  p_heap_list s' = p_heap_list s.

Lemma same_regs_refl (s : state) : same_regs s s.
Proof. repeat split. Qed.

Lemma same_regs_trans (s1 s2 s3 : state) :
  same_regs s1 s2 -> same_regs s2 s3 -> same_regs s1 s3.
Proof. unfold same_regs. intros (A & B & C) (D & E & F). repeat split; congruence. Qed.

Lemma layout_block (s : state) (M : bmap) (b sz : Z) (a : bool) :
  layout s M -> M b = Some (sz, a) ->
  p_heap_list s + 8 <= b /\ b + sz <= mem_brk s /\ 16 <= sz /\ sz mod 8 = 0 /\
  b mod 8 = 0 /\ mem_brk s < WORD /\ 8 <= p_heap_list s /\
  load (mem s) (b - 4) = tag sz a /\ load (mem s) (b + sz - 8) = tag sz a.
Proof.
  intros L H.
  destruct (til_range _ _ _ (lay_tiling _ _ L) _ _ _ H) as (A & B & C & D & E).
  destruct (lay_tags _ _ L _ _ _ H) as [T1 T2].
  destruct (lay_base _ _ L) as [B1 B2]. destruct (lay_brk _ _ L) as (B3 & B4 & B5).
  repeat split; try assumption. lia.
Qed.

Lemma blocks_apart (lo hi : Z) (M : bmap) (b1 sz1 b2 sz2 : Z) (a1 a2 : bool) :
  tiling lo hi M -> M b1 = Some (sz1, a1) -> M b2 = Some (sz2, a2) ->
  b1 = b2 \/ b1 + sz1 <= b2 \/ b2 + sz2 <= b1.
Proof.
  intros T H1 H2.
  destruct (Z.lt_trichotomy b1 b2) as [H | [H | H]].
  - right. left. eapply til_disj; eauto.
  - left. exact H.
  - right. right. eapply til_disj; eauto.
Qed.

Lemma layout_apart (s : state) (M : bmap) (b1 sz1 b2 sz2 : Z) (a1 a2 : bool) :
  layout s M -> M b1 = Some (sz1, a1) -> M b2 = Some (sz2, a2) ->
  b1 = b2 \/ b1 + sz1 <= b2 \/ b2 + sz2 <= b1.
Proof. intros L. eapply blocks_apart. exact (lay_tiling _ _ L). Qed.

(** Memory changes that leave every boundary tag alone keep the layout. *)
Lemma layout_frame (s s' : state) (M : bmap) :
  layout s M -> same_regs s s' ->
  (forall q, p_heap_list s - 4 <= q < mem_brk s ->
             (q = p_heap_list s - 4 \/ q = p_heap_list s \/ q = mem_brk s - 4 \/
              exists b sz a, M b = Some (sz, a) /\ (q = b - 4 \/ q = b + sz - 8)) ->
             load (mem s') q = load (mem s) q) ->
  layout s' M.
Proof.
  intros L (R1 & R2 & R3) Hf.
  destruct (lay_base _ _ L) as [B1 B2]. destruct (lay_brk _ _ L) as [B3 B4].
  destruct (lay_prologue _ _ L) as [P1 P2].
  constructor; rewrite ?R1, ?R2, ?R3.
  - exact (lay_base _ _ L).
  - exact (lay_brk _ _ L).
  - rewrite (Hf (p_heap_list s - 4)); [| lia | auto]. rewrite (Hf (p_heap_list s)); [| lia | auto]. exact (lay_prologue _ _ L).
  - rewrite Hf; [| lia | auto]. exact (lay_epilogue _ _ L).
  - exact (lay_tiling _ _ L).
  - intros b sz a H.
    destruct (layout_block _ _ _ _ _ L H) as (A & B & C & D & E & F & G & T1 & T2).
    rewrite !Hf; [auto | lia | | lia | ].
    + right. right. right. exists b, sz, a. auto.
    + right. right. right. exists b, sz, a. auto.
Qed.

(** A word written into the payload area reserved for links keeps the layout. *)
Lemma layout_store_link (s s' : state) (M : bmap) (f szf : Z) (af : bool) (q v : Z) :
  layout s M -> same_regs s s' -> M f = Some (szf, af) ->
  q = f \/ q = f + 4 ->
  (forall x, x + 4 <= q \/ q + 4 <= x -> load (mem s') x = load (mem s) x) ->
  layout s' M.
Proof.
  intros L R Hfm Hq Hm.
  destruct (layout_block _ _ _ _ _ L Hfm) as (A & B & C & D & E & F & G & _).
  apply layout_frame with (s := s); auto.
  intros x Hx [Hc | [Hc | [Hc | (b & sz & a & Hb & Hc)]]]; apply Hm; try lia.
  destruct (layout_block _ _ _ _ _ L Hb) as (A' & B' & C' & D' & E' & _).
  destruct (layout_apart _ _ _ _ _ _ _ _ L Hfm Hb) as [X | [X | X]]; lia.
Qed.

Lemma flist_nodes (s : state) (M : bmap) (fl : list Z) :
  layout s M -> flist s M fl -> nodes_ok fl.
Proof.
  intros L F. split; [exact (fl_nodup _ _ _ F)|].
  intros x Hx. destruct (fl_free _ _ _ F x Hx) as [sz Hsz].
  destruct (layout_block _ _ _ _ _ L Hsz) as (A & B & C & D & E & F' & G & _).
  lia.
Qed.

Lemma nodes_far (l : list Z) (x y : Z) :
  nodes_ok l -> In x l -> In y l -> x = y \/ x + 8 <= y \/ y + 8 <= x.
Proof.
  intros [_ H] Hx Hy. destruct (H x Hx), (H y Hy). lia.
Qed.

(** ** Free-list frames *)

Lemma flist_frame (s s' : state) (M : bmap) (fl : list Z) :
  flist s M fl ->
  mp_firstfreeblock s' = mp_firstfreeblock s ->
  m_freecount s' = m_freecount s ->
  (forall f, In f fl -> load (mem s') f = load (mem s) f /\
                        load (mem s') (f + 4) = load (mem s) (f + 4)) ->
  flist s' M fl.
Proof.
  intros F Hh Hc Hm. constructor.
  - apply dlseg_frame with (m := mem s); [exact Hm | exact (fl_links _ _ _ F)].
  - rewrite Hh. exact (fl_head _ _ _ F).
  - rewrite Hc. exact (fl_count _ _ _ F).
  - exact (fl_nodup _ _ _ F).
  - exact (fl_free _ _ _ F).
Qed.

Lemma flist_remap (s : state) (M M' : bmap) (fl : list Z) :
  flist s M fl ->
  (forall f sz, In f fl -> M f = Some (sz, false) -> M' f = Some (sz, false)) ->
  flist s M' fl.
Proof.
  intros F H. constructor; try apply F.
  intros f Hf. destruct (fl_free _ _ _ F f Hf) as [sz Hsz].
  exists sz. apply H; assumption.
Qed.

(** A word written inside the span of a block that is not on the list
    leaves the list alone. *)
Lemma flist_store_span (s s' : state) (M : bmap) (fl : list Z)
      (b sz : Z) (a : bool) (q : Z) :
  layout s M -> flist s M fl -> M b = Some (sz, a) -> ~ In b fl ->
  b - 4 <= q <= b + sz - 8 ->
  mp_firstfreeblock s' = mp_firstfreeblock s ->
  m_freecount s' = m_freecount s ->
  (forall x, x + 4 <= q \/ q + 4 <= x -> load (mem s') x = load (mem s) x) ->
  flist s' M fl.
Proof.
  intros L F Hb Hn Hq Hh Hc Hm.
  apply flist_frame with (s := s); auto.
  intros f Hf. destruct (fl_free _ _ _ F f Hf) as [szf Hszf].
  assert (f <> b) by (intros E; subst; contradiction).
  destruct (layout_block _ _ _ _ _ L Hb) as (A & B & C & D & E & _).
  destruct (layout_block _ _ _ _ _ L Hszf) as (A' & B' & C' & D' & E' & _).
  destruct (layout_apart _ _ _ _ _ _ _ _ L Hszf Hb) as [X | [X | X]];
    [contradiction | |]; split; apply Hm; lia.
Qed.

(** ** Link writes *)

Lemma SUC_PTR_small (b : Z) : 0 <= b -> b + 4 < WORD -> SUC_PTR b = b + 4.
Proof. intros. unfold SUC_PTR, WSIZE. apply wadd_small. lia. Qed.

(** [s'] is [s] after some link writes into the slots of the nodes [ws]
    and some updates of the list head and of the counter. *)
Definition is_link (e : event) : bool :=
  match e with
  | EvLink _ _ => true
  | _ => false
  end.

Inductive link_steps (ws : list Z) (s : state) : state -> Prop :=
| ls_here : link_steps ws s s
| ls_log s' e : link_steps ws s s' -> is_link e = false -> link_steps ws s (log s' e)
| ls_count s' n : link_steps ws s s' -> link_steps ws s (set_freecount s' n)
| ls_head s' p : link_steps ws s s' -> link_steps ws s (set_firstfree s' p)
| ls_prev s' f v : link_steps ws s s' -> In f ws -> link_steps ws s (set_PREV s' f v)
| ls_succ s' f v : link_steps ws s s' -> In f ws -> link_steps ws s (set_SUCC s' f v).

Definition links_untouched (s s' : state) (ws : list Z) : Prop :=
  forall x, (forall f, In f ws -> x < f \/ f + 8 <= x) -> mem s' x = mem s x.

Lemma link_steps_sound (ws : list Z) (s s' : state) (M : bmap) :
  link_steps ws s s' ->
  layout s M ->
  (forall f, In f ws -> exists sz a, M f = Some (sz, a)) ->
  layout s' M /\ same_regs s s' /\ links_untouched s s' ws.
Proof.
  intros Hst L Hws. induction Hst as [| s' e Hst IH _ | s' n Hst IH | s' p Hst IH
                                      | s' f v Hst IH Hf | s' f v Hst IH Hf].
  - split; [exact L|]. split; [apply same_regs_refl|]. intros x _. reflexivity.
  - destruct IH as (L' & R & U). split; [|split; [exact R | exact U]].
    apply layout_frame with (s := s'); [exact L' | repeat split | reflexivity].
  - destruct IH as (L' & R & U). split; [|split; [exact R | exact U]].
    apply layout_frame with (s := s'); [exact L' | repeat split | reflexivity].
  - destruct IH as (L' & R & U). split; [|split; [exact R | exact U]].
    apply layout_frame with (s := s'); [exact L' | repeat split | reflexivity].
  - destruct IH as (L' & R & U). destruct (Hws f Hf) as (sz & a & Hm).
    split; [|split; [exact R |]].
    + apply layout_store_link with (s := s') (f := f) (szf := sz) (af := a) (q := f);
        auto; try (repeat split; fail).
      intros x Hx. simpl. apply load_store_other. lia.
    + intros x Hx. simpl. rewrite store_other by (destruct (Hx f Hf); lia).
      apply U. exact Hx.
  - destruct IH as (L' & R & U). destruct (Hws f Hf) as (sz & a & Hm).
    destruct (layout_block _ _ _ _ _ L' Hm) as (A & B & C & D & E & G & H & _).
    assert (Hsuc : SUC_PTR f = f + 4) by (apply SUC_PTR_small; lia).
    split; [|split; [exact R |]].
    + apply layout_store_link with (s := s') (f := f) (szf := sz) (af := a) (q := f + 4);
        auto; try (repeat split; fail).
      intros x Hx. simpl. rewrite Hsuc. apply load_store_other. lia.
    + intros x Hx. simpl. rewrite Hsuc.
      rewrite store_other by (destruct (Hx f Hf); lia).
      apply U. exact Hx.
Qed.

Ltac st_simpl :=
  cbn [mem mem_brk mem_max_addr p_heap_list mp_firstfreeblock m_freecount trace
       with_mem set_p_heap_list set_firstfree set_freecount log PUT
       set_PREV set_SUCC] in *.

Ltac link_steps_tac :=
  repeat first [apply ls_here | (apply ls_log; [|reflexivity]) | apply ls_count
               | apply ls_head | apply ls_succ | apply ls_prev].

Ltac eqb_true a b :=
  replace (a =? b) with true by (symmetry; apply Z.eqb_eq; lia).
Ltac eqb_false a b :=
  replace (a =? b) with false by (symmetry; apply Z.eqb_neq; lia).

Ltac ld :=
  repeat first [ rewrite load_store_same
               | rewrite load_store_other by lia ];
  try reflexivity; try assumption.

Lemma flist_node_range (s : state) (M : bmap) (fl : list Z) (f : Z) :
  layout s M -> flist s M fl -> In f fl ->
  0 < f /\ f + 8 < WORD /\ f mod 8 = 0.
Proof.
  intros L F Hf. destruct (fl_free _ _ _ F f Hf) as [sz Hsz].
  destruct (layout_block _ _ _ _ _ L Hsz) as (A & B & C & D & E & G & H & _).
  lia.
Qed.

Lemma allocate_block_steps (s : state) (M : bmap) (l1 l2 : list Z) (b : Z) :
  layout s M -> flist s M (l1 ++ b :: l2) ->
  link_steps (l1 ++ b :: l2) s (allocate_block s b) /\
  flist (allocate_block s b) M (l1 ++ l2).
Proof.
  intros L F.
  pose proof (flist_nodes _ _ _ L F) as N.
  pose proof (fl_count _ _ _ F) as Hc. rewrite length_app in Hc. simpl in Hc.
  pose proof (fl_head _ _ _ F) as Hh.
  pose proof (fl_links _ _ _ F) as Hl.
  apply dlseg_app in Hl. destruct Hl as [Hl1 Hl2]. simpl in Hl1, Hl2.
  destruct Hl2 as (Hbp & Hbn & Hl2).
  assert (Hws : forall f, In f (l1 ++ b :: l2) -> exists sz a, M f = Some (sz, a)).
  { intros f Hf. destruct (fl_free _ _ _ F f Hf) as [sz Hsz]. eauto. }
  assert (Hbin : In b (l1 ++ b :: l2)) by apply in_elt.
  destruct (fl_free _ _ _ F b Hbin) as [szb Hb].
  destruct (layout_block _ _ _ _ _ L Hb) as (A & B & C & D & E & G & H & _).
  assert (Hsuc : SUC_PTR b = b + 4) by (apply SUC_PTR_small; lia).
  assert (Hfree' : forall f, In f (l1 ++ l2) -> exists sz, M f = Some (sz, false)).
  { intros f Hf. apply (fl_free _ _ _ F). apply in_app_or in Hf.
    apply in_or_app. destruct Hf; [left | right; right]; assumption. }
  assert (Hnd' : NoDup (l1 ++ l2)).
  { eapply NoDup_remove_1. exact (fl_nodup _ _ _ F). }
  assert (Hbl1 : ~ In b l1 /\ ~ In b l2).
  { pose proof (NoDup_remove_2 _ _ _ (fl_nodup _ _ _ F)) as X.
    split; intros Y; apply X; apply in_or_app; auto. }
  assert (Hsteps : forall s', link_steps (l1 ++ b :: l2) s s' ->
            flist s' M (l1 ++ l2) ->
            link_steps (l1 ++ b :: l2) s s' /\ flist s' M (l1 ++ l2)).
  { intros s' St Fl. split; assumption. }
  unfold allocate_block. cbn [m_freecount set_freecount log]. unfold NULL in *.
  destruct l1 as [|x1 r1]; destruct l2 as [|x2 r2].
  - simpl in Hc. eqb_true (m_freecount s - 1) 0.
    apply Hsteps.
    + link_steps_tac; assumption.
    + constructor; st_simpl; simpl; auto; try lia.
  - (* b is the head, a successor exists *)
    assert (Hx2 : In x2 ([] ++ b :: x2 :: r2)) by (simpl; auto).
    destruct (proj2 N x2 Hx2) as [Hx8 Hx0].
    simpl length in Hc.
    eqb_false (m_freecount s - 1) 0. eqb_false (m_freecount s - 1) (-1).
    unfold PREV, SUCC. st_simpl. rewrite Hsuc, Hbp, Hbn. simpl hd. simpl last.
    eqb_false x2 0. eqb_true 0 0.
    apply Hsteps.
    + link_steps_tac; simpl; auto.
    + constructor; st_simpl; rewrite ?Hsuc; simpl app; simpl hd; auto; try (simpl in *; lia).
      apply dlseg_rehead with (m := mem s) (p := b); auto.
      * intros x Hx.
        pose proof (nodes_far _ x b N (or_intror Hx) (or_introl eq_refl)).
        pose proof (nodes_far _ x x2 N (or_intror Hx) Hx2).
        assert (x <> b) by (intros ->; apply (proj2 Hbl1); exact Hx).
        ld.
      * intros x Hx Hne. simpl in Hne.
        pose proof (nodes_far _ x b N (or_intror Hx) (or_introl eq_refl)).
        pose proof (nodes_far _ x x2 N (or_intror Hx) Hx2).
        assert (x <> b) by (intros ->; apply (proj2 Hbl1); exact Hx).
        ld.
      * intros _. simpl.
        pose proof (nodes_far _ x2 b N Hx2 (or_introl eq_refl)).
        assert (x2 <> b) by (intros ->; apply (proj2 Hbl1); left; reflexivity).
        ld.
  - (* b is the tail, a predecessor exists *)
    set (l1 := x1 :: r1) in *.
    assert (Hl1ne : l1 <> []) by discriminate.
    pose proof (last_in l1 0 Hl1ne) as Hpp.
    assert (Hpp' : In (last l1 0) (l1 ++ [b])) by (apply in_or_app; left; exact Hpp).
    destruct (proj2 N _ Hpp') as [Hp8 Hp0].
    assert (Hlen : (0 < length l1)%nat) by (unfold l1; simpl; lia).
    eqb_false (m_freecount s - 1) 0. eqb_false (m_freecount s - 1) (-1).
    unfold PREV, SUCC. st_simpl. rewrite Hsuc, Hbp, Hbn. simpl hd.
    eqb_true 0 0.
    apply Hsteps.
    + link_steps_tac; auto.
    + assert (Hsp : SUC_PTR (last l1 0) = last l1 0 + 4).
      { destruct (Hws _ Hpp') as (sz & a & Hm).
        destruct (layout_block _ _ _ _ _ L Hm) as (A' & B' & C' & D' & E' & G' & H' & _).
        apply SUC_PTR_small; lia. }
      rewrite app_nil_r in *.
      constructor; st_simpl; rewrite ?Hsuc, ?Hsp; unfold NULL in *; auto; try lia.
      * apply dlseg_retarget with (m := mem s) (n := b); auto.
        -- intros x Hx.
           pose proof (nodes_far _ x b N (in_or_app _ _ _ (or_introl Hx)) Hbin).
           pose proof (nodes_far _ x _ N (in_or_app _ _ _ (or_introl Hx)) Hpp').
           assert (x <> b) by (intros ->; apply (proj1 Hbl1); exact Hx).
           ld.
        -- intros x Hx Hne.
           pose proof (nodes_far _ x b N (in_or_app _ _ _ (or_introl Hx)) Hbin).
           pose proof (nodes_far _ x _ N (in_or_app _ _ _ (or_introl Hx)) Hpp').
           assert (x <> b) by (intros ->; apply (proj1 Hbl1); exact Hx).
           ld.
        -- pose proof (nodes_far _ _ b N Hpp' Hbin).
           assert (last l1 0 <> b) by (intros E'; apply (proj1 Hbl1); rewrite <- E'; exact Hpp).
           ld.
      * subst l1. simpl in *. lia.
  - (* b is an inner node *)
    set (l1 := x1 :: r1) in *. set (l2 := x2 :: r2) in *.
    assert (Hl1ne : l1 <> []) by discriminate.
    pose proof (last_in l1 0 Hl1ne) as Hpp.
    assert (Hpp' : In (last l1 0) (l1 ++ b :: l2)) by (apply in_or_app; left; exact Hpp).
    assert (Hx2 : In x2 (l1 ++ b :: l2)) by (apply in_or_app; right; right; left; reflexivity).
    destruct (proj2 N _ Hpp') as [Hp8 Hp0].
    destruct (proj2 N _ Hx2) as [Hx8 Hx0].
    assert (Hcnt : m_freecount s - 1 = Z.of_nat (length (l1 ++ l2))).
    { rewrite length_app. subst l1 l2. simpl in *. lia. }
    assert (Hc2 : 2 <= m_freecount s - 1).
    { rewrite Hcnt, length_app. subst l1 l2. simpl. lia. }
    eqb_false (m_freecount s - 1) 0. eqb_false (m_freecount s - 1) (-1).
    unfold PREV, SUCC. st_simpl. rewrite Hsuc, Hbp, Hbn. simpl hd.
    eqb_false x2 0. eqb_false (last l1 0) 0.
    apply Hsteps.
    + link_steps_tac; auto.
    + assert (Hsp : SUC_PTR (last l1 0) = last l1 0 + 4).
      { destruct (Hws _ Hpp') as (sz & a & Hm).
        destruct (layout_block _ _ _ _ _ L Hm) as (A' & B' & C' & D' & E' & G' & H' & _).
        apply SUC_PTR_small; lia. }
      assert (Hb1 : forall x, In x l1 -> x <> b).
      { intros x Hx ->. apply (proj1 Hbl1). exact Hx. }
      assert (Hb2 : forall x, In x l2 -> x <> b).
      { intros x Hx ->. apply (proj2 Hbl1). exact Hx. }
      assert (H12 : forall x y, In x l1 -> In y l2 -> x <> y).
      { intros x y Hx Hy ->. apply NoDup_app_remove_r in Hnd'.
        pose proof (fl_nodup _ _ _ F) as X.
        apply NoDup_remove_1 in X.
        revert X Hx Hy. clear. intros X Hx Hy.
        induction l1 as [|z r IH]; [contradiction|].
        simpl in X. apply NoDup_cons_iff in X. destruct X as [X1 X2].
        destruct Hx as [-> | Hx].
        - apply X1. apply in_or_app. right. exact Hy.
        - apply IH; assumption. }
      constructor; st_simpl; rewrite ?Hsuc, ?Hsp; unfold NULL in *; auto; try lia.
      * apply dlseg_app. split.
        -- apply dlseg_retarget with (m := mem s) (n := b); auto.
           ++ intros x Hx.
              pose proof (nodes_far _ x b N (in_or_app _ _ _ (or_introl Hx)) Hbin).
              pose proof (nodes_far _ x _ N (in_or_app _ _ _ (or_introl Hx)) Hpp').
              pose proof (nodes_far _ x _ N (in_or_app _ _ _ (or_introl Hx)) Hx2).
              pose proof (Hb1 x Hx).
              assert (x <> x2) by (apply H12; [exact Hx | left; reflexivity]).
              ld.
           ++ intros x Hx Hne.
              pose proof (nodes_far _ x b N (in_or_app _ _ _ (or_introl Hx)) Hbin).
              pose proof (nodes_far _ x _ N (in_or_app _ _ _ (or_introl Hx)) Hpp').
              pose proof (nodes_far _ x _ N (in_or_app _ _ _ (or_introl Hx)) Hx2).
              pose proof (Hb1 x Hx).
              ld.
           ++ pose proof (nodes_far _ _ b N Hpp' Hbin).
              pose proof (nodes_far _ _ _ N Hpp' Hx2).
              pose proof (Hb1 _ Hpp).
              ld. subst l2. simpl. apply wrap_small.
              pose proof (flist_node_range _ _ _ _ L F Hx2). lia.
           ++ apply NoDup_app_remove_r in Hnd'. exact Hnd'.
        -- apply dlseg_rehead with (m := mem s) (p := b); auto.
           ++ intros x Hx.
              pose proof (nodes_far _ x b N (in_or_app l1 (b :: l2) x (or_intror (in_cons b x l2 Hx))) Hbin).
              pose proof (nodes_far _ x _ N (in_or_app l1 (b :: l2) x (or_intror (in_cons b x l2 Hx))) Hpp').
              pose proof (nodes_far _ x _ N (in_or_app l1 (b :: l2) x (or_intror (in_cons b x l2 Hx))) Hx2).
              pose proof (Hb2 x Hx).
              assert (x <> last l1 0) by (intros E'; apply (H12 (last l1 0) x); auto).
              ld.
           ++ intros x Hx Hne. simpl in Hne.
              pose proof (nodes_far _ x b N (in_or_app l1 (b :: l2) x (or_intror (in_cons b x l2 Hx))) Hbin).
              pose proof (nodes_far _ x _ N (in_or_app l1 (b :: l2) x (or_intror (in_cons b x l2 Hx))) Hpp').
              pose proof (nodes_far _ x _ N (in_or_app l1 (b :: l2) x (or_intror (in_cons b x l2 Hx))) Hx2).
              pose proof (Hb2 x Hx).
              assert (x <> last l1 0) by (intros E'; apply (H12 (last l1 0) x); auto).
              ld.
           ++ intros _. subst l2. cbn [hd].
              pose proof (nodes_far _ _ b N Hx2 Hbin).
              pose proof (nodes_far _ _ _ N Hpp' Hx2).
              assert (x2 <> b) by (apply Hb2; left; reflexivity).
              assert (last l1 0 <> x2) by (apply H12; [exact Hpp | left; reflexivity]).
              ld. apply wrap_small.
              pose proof (flist_node_range _ _ _ _ L F Hpp'). lia.
           ++ apply NoDup_app_remove_l in Hnd'. exact Hnd'.
Qed.

Lemma allocate_block_spec (s : state) (M : bmap) (l1 l2 : list Z) (b : Z) :
  layout s M -> flist s M (l1 ++ b :: l2) ->
  layout (allocate_block s b) M /\
  flist (allocate_block s b) M (l1 ++ l2) /\
  same_regs s (allocate_block s b) /\
  links_untouched s (allocate_block s b) (l1 ++ b :: l2).
Proof.
  intros L F. destruct (allocate_block_steps s M l1 l2 b L F) as [St Fl].
  assert (Hws : forall f, In f (l1 ++ b :: l2) -> exists sz a, M f = Some (sz, a)).
  { intros f Hf. destruct (fl_free _ _ _ F f Hf) as [sz Hsz]. eauto. }
  destruct (link_steps_sound _ _ _ _ St L Hws) as (X & Y & Z).
  auto.
Qed.

Lemma free_block_steps (s : state) (M : bmap) (fl : list Z) (b sz : Z) :
  layout s M -> flist s M fl -> M b = Some (sz, false) -> ~ In b fl ->
  link_steps (b :: fl) s (free_block s b) /\
  flist (free_block s b) M (b :: fl).
Proof.
  intros L F Hb Hn.
  pose proof (fl_count _ _ _ F) as Hc.
  pose proof (fl_head _ _ _ F) as Hh.
  pose proof (fl_links _ _ _ F) as Hl.
  destruct (layout_block _ _ _ _ _ L Hb) as (A & B & C & D & E & G & H & _).
  assert (Hsuc : SUC_PTR b = b + 4) by (apply SUC_PTR_small; lia).
  assert (Hws : forall f, In f (b :: fl) -> exists sz a, M f = Some (sz, a)).
  { intros f [<- | Hf]; [eauto|].
    destruct (fl_free _ _ _ F f Hf) as [sz' Hsz]. eauto. }
  assert (Hfree' : forall f, In f (b :: fl) -> exists sz, M f = Some (sz, false)).
  { intros f [<- | Hf]; [eauto|]. apply (fl_free _ _ _ F). exact Hf. }
  assert (Hnd' : NoDup (b :: fl)).
  { constructor; [exact Hn | exact (fl_nodup _ _ _ F)]. }
  assert (Hsteps : forall s', link_steps (b :: fl) s s' ->
            flist s' M (b :: fl) ->
            link_steps (b :: fl) s s' /\ flist s' M (b :: fl)).
  { intros s' St Fl. split; assumption. }
  unfold free_block. cbn [mp_firstfreeblock p_heap_list m_freecount set_freecount log].
  unfold NULL in *. rewrite Hh.
  destruct fl as [|x r].
  - cbn [hd]. eqb_true 0 0. rewrite orb_true_r.
    apply Hsteps.
    + link_steps_tac; simpl; auto.
    + constructor; st_simpl; rewrite ?Hsuc; unfold NULL; auto; try (simpl in *; lia).
      simpl. ld. auto.
  - cbn [hd].
    assert (Hx : In x (x :: r)) by (left; reflexivity).
    destruct (flist_node_range _ _ _ _ L F Hx) as (X0 & X1 & X2).
    destruct (fl_free _ _ _ F x Hx) as [szx Hszx].
    destruct (layout_block _ _ _ _ _ L Hszx) as (A' & B' & C' & D' & E' & G' & H' & _).
    pose proof (layout_apart _ _ _ _ _ _ _ _ L Hb Hszx) as Hap.
    assert (b <> x) by (intros ->; apply Hn; left; reflexivity).
    eqb_false x (p_heap_list s). eqb_false x 0. cbn [orb].
    apply Hsteps.
    + link_steps_tac; simpl; auto.
    + constructor; st_simpl; rewrite ?Hsuc, ?Hh; cbn [hd]; unfold NULL; auto;
        try (cbn [length] in *; lia).
      change (b :: x :: r) with ([b] ++ x :: r). apply dlseg_app. split.
      * cbn [dlseg hd]. split; [ld | split; [ld | exact I]].
        apply wrap_small. lia.
      * cbn [last].
        apply dlseg_rehead with (m := mem s) (p := 0); auto.
        -- intros y Hy.
           destruct (fl_free _ _ _ F y Hy) as [szy Hszy].
           destruct (layout_block _ _ _ _ _ L Hszy) as (Ay & By & Cy & Dy & Ey & _).
           pose proof (layout_apart _ _ _ _ _ _ _ _ L Hb Hszy) as Hap2.
           assert (b <> y) by (intros ->; apply Hn; exact Hy).
           pose proof (layout_apart _ _ _ _ _ _ _ _ L Hszx Hszy) as Hap3.
           ld.
        -- intros y Hy Hne. simpl in Hne.
           destruct (fl_free _ _ _ F y Hy) as [szy Hszy].
           destruct (layout_block _ _ _ _ _ L Hszy) as (Ay & By & Cy & Dy & Ey & _).
           pose proof (layout_apart _ _ _ _ _ _ _ _ L Hb Hszy) as Hap2.
           assert (b <> y) by (intros ->; apply Hn; exact Hy).
           pose proof (layout_apart _ _ _ _ _ _ _ _ L Hszx Hszy) as Hap3.
           ld.
        -- intros _. simpl. ld. apply wrap_small. lia.
        -- exact (fl_nodup _ _ _ F).
Qed.

Lemma free_block_spec (s : state) (M : bmap) (fl : list Z) (b sz : Z) :
  layout s M -> flist s M fl -> M b = Some (sz, false) -> ~ In b fl ->
  layout (free_block s b) M /\
  flist (free_block s b) M (b :: fl) /\
  same_regs s (free_block s b) /\
  links_untouched s (free_block s b) (b :: fl).
Proof.
  intros L F Hb Hn. destruct (free_block_steps s M fl b sz L F Hb Hn) as [St Fl].
  assert (Hws : forall f, In f (b :: fl) -> exists sz a, M f = Some (sz, a)).
  { intros f [<- | Hf]; [eauto|].
    destruct (fl_free _ _ _ F f Hf) as [sz' Hsz]. eauto. }
  destruct (link_steps_sound _ _ _ _ St L Hws) as (X & Y & Z).
  auto.
Qed.

(** ** Surgery on tilings *)

Ltac pose_new H :=
  let T := type of H in
  lazymatch goal with
  | _ : T |- _ => fail
  | _ => pose proof H
  end.

Lemma til_bounds (lo hi : Z) (M : bmap) (T : tiling lo hi M) (b sz : Z) (a : bool) :
  M b = Some (sz, a) -> lo <= b /\ b + sz <= hi /\ 16 <= sz.
Proof. intros H. destruct (til_range _ _ _ T _ _ _ H) as (A & B & C & _). auto. Qed.

(** Collect the bounds of every known block and the separation of every
    known pair of distinct blocks. *)
Ltac saturate T :=
  repeat match goal with
  | Hx : ?M ?x = Some (_, _) |- _ => pose_new (til_bounds _ _ M T _ _ _ Hx)
  | Hx : ?M ?x = Some (_, _), Hy : ?M ?y = Some (_, _) |- _ =>
      tryif constr_eq x y then fail else
      lazymatch goal with
      | _ : x = y \/ _ |- _ => fail
      | _ : y = x \/ _ |- _ => fail
      | _ => pose proof (blocks_apart _ _ M _ _ _ _ _ _ T Hx Hy)
      end
  end.

Ltac saturate_mod T :=
  repeat match goal with
  | Hx : ?M ?x = Some (_, _) |- _ => pose_new (til_range _ _ M T _ _ _ Hx)
  end.

Ltac bupd_cases :=
  repeat match goal with
  | H : bupd _ ?k _ ?x = Some _ |- _ =>
      unfold bupd in H at 1; destruct (Z.eqb_spec x k);
      [ try discriminate H; try (injection H as ? ?) | idtac ]
  end.

Ltac bupd_goal :=
  unfold bupd;
  repeat match goal with
  | |- context [if ?y =? ?k then _ else _] => destruct (Z.eqb_spec y k)
  end.

Ltac solve_block := bupd_goal; try (exfalso; lia); subst; eauto.

Lemma tiling_retag (lo hi : Z) (M : bmap) (b sz : Z) (a0 a : bool) :
  tiling lo hi M -> M b = Some (sz, a0) ->
  tiling lo hi (bupd M b (Some (sz, a))).
Proof.
  intros T Hb.
  constructor.
  - intros x szx ax Hx. bupd_cases; subst; saturate_mod T; auto.
  - intros x szx ax Hx. bupd_cases; subst.
    + destruct (til_next _ _ _ T _ _ _ Hb) as [E | (sz' & a' & E)]; [left; exact E|].
      right. saturate T. solve_block.
    + destruct (til_next _ _ _ T _ _ _ Hx) as [E | (sz' & a' & E)]; [left; exact E|].
      right. saturate T. solve_block.
  - intros x szx ax Hx. bupd_cases; subst.
    + destruct (til_prev _ _ _ T _ _ _ Hb) as [E | (b' & sz' & a' & E1 & E2)]; [left; exact E|].
      right. exists b'. saturate T. solve_block.
    + destruct (til_prev _ _ _ T _ _ _ Hx) as [E | (b' & sz' & a' & E1 & E2)]; [left; exact E|].
      right. exists b'. saturate T. solve_block.
      rewrite Hb in E1. injection E1 as <- <-. eauto.
  - intros x1 sz1 a1 x2 sz2 a2 H1 H2 Hlt. bupd_cases; subst; saturate T; lia.
  - destruct (til_first _ _ _ T) as [E | (sz' & a' & E)]; [left; exact E|].
    right. solve_block.
  - destruct (til_last _ _ _ T) as [E | (b' & sz' & a' & E1 & E2)]; [left; exact E|].
    right. exists b'. solve_block.
    rewrite Hb in E1. injection E1 as <- <-. eauto.
Qed.

Lemma tiling_split (lo hi : Z) (M : bmap) (b csz asz : Z) (a0 a1 a2 : bool) :
  tiling lo hi M -> M b = Some (csz, a0) ->
  16 <= asz -> asz mod 8 = 0 -> 16 <= csz - asz ->
  tiling lo hi (bupd (bupd M (b + asz) (Some (csz - asz, a2))) b (Some (asz, a1))).
Proof.
  intros T Hb Ha1 Ha2 Ha3.
  constructor.
  - intros x szx ax Hx. bupd_cases; subst; saturate_mod T; auto; lia.
  - intros x szx ax Hx. bupd_cases; subst.
    + right. saturate T. solve_block.
    + replace (b + asz + (csz - asz)) with (b + csz) by lia.
      destruct (til_next _ _ _ T _ _ _ Hb) as [E | (sz' & a' & E)]; [left; exact E|].
      right. saturate T. solve_block.
    + destruct (til_next _ _ _ T _ _ _ Hx) as [E | (sz' & a' & E)]; [left; exact E|].
      right. saturate T. solve_block.
  - intros x szx ax Hx. bupd_cases; subst.
    + destruct (til_prev _ _ _ T _ _ _ Hb) as [E | (b' & sz' & a' & E1 & E2)]; [left; exact E|].
      right. exists b'. saturate T. solve_block.
    + right. exists b, asz, a1. saturate T. solve_block.
    + destruct (til_prev _ _ _ T _ _ _ Hx) as [E | (b' & sz' & a' & E1 & E2)]; [left; exact E|].
      right. saturate T.
      destruct (Z.eq_dec b' b) as [-> | Hne].
      * exists (b + asz), (csz - asz), a2.
        rewrite Hb in E1. injection E1 as <- <-.
        split; [solve_block | lia].
      * exists b'. solve_block.
  - intros x1 sz1 ax1 x2 sz2 ax2 H1 H2 Hlt. bupd_cases; subst; saturate T; lia.
  - destruct (til_first _ _ _ T) as [E | (sz' & a' & E)]; [left; exact E|].
    right. saturate T. solve_block.
  - destruct (til_last _ _ _ T) as [E | (b' & sz' & a' & E1 & E2)]; [left; exact E|].
    right. saturate T.
    destruct (Z.eq_dec b' b) as [-> | Hne].
    + exists (b + asz), (csz - asz), a2.
      rewrite Hb in E1. injection E1 as <- <-.
      split; [solve_block | lia].
    + exists b'. solve_block.
Qed.

Lemma tiling_merge (lo hi : Z) (M : bmap) (b sz1 sz2 : Z) (a1 a2 a : bool) :
  tiling lo hi M -> M b = Some (sz1, a1) -> M (b + sz1) = Some (sz2, a2) ->
  tiling lo hi (bupd (bupd M (b + sz1) None) b (Some (sz1 + sz2, a))).
Proof.
  intros T Hb Hn.
  constructor.
  - intros x szx ax Hx. bupd_cases; subst; saturate_mod T; auto; lia.
  - intros x szx ax Hx. bupd_cases; subst.
    + replace (b + (sz1 + sz2)) with (b + sz1 + sz2) by lia.
      destruct (til_next _ _ _ T _ _ _ Hn) as [E | (sz' & a' & E)]; [left; exact E|].
      right. saturate T. solve_block.
    + destruct (til_next _ _ _ T _ _ _ Hx) as [E | (sz' & a' & E)]; [left; exact E|].
      right. saturate T. solve_block.
  - intros x szx ax Hx. bupd_cases; subst.
    + destruct (til_prev _ _ _ T _ _ _ Hb) as [E | (b' & sz' & a' & E1 & E2)]; [left; exact E|].
      right. exists b'. saturate T. solve_block.
    + destruct (til_prev _ _ _ T _ _ _ Hx) as [E | (b' & sz' & a' & E1 & E2)]; [left; exact E|].
      right. saturate T.
      destruct (Z.eq_dec b' (b + sz1)) as [-> | Hne].
      * exists b, (sz1 + sz2), a.
        rewrite Hn in E1. injection E1 as <- <-.
        split; [solve_block | lia].
      * exists b'. solve_block.
  - intros x1 s1 ax1 x2 s2 ax2 H1 H2 Hlt. bupd_cases; subst; saturate T; lia.
  - destruct (til_first _ _ _ T) as [E | (sz' & a' & E)]; [left; exact E|].
    right. saturate T. solve_block.
  - destruct (til_last _ _ _ T) as [E | (b' & sz' & a' & E1 & E2)]; [left; exact E|].
    right. saturate T.
    destruct (Z.eq_dec b' (b + sz1)) as [-> | Hne].
    + exists b, (sz1 + sz2), a.
      rewrite Hn in E1. injection E1 as <- <-.
      split; [solve_block | lia].
    + exists b'. solve_block.
Qed.

Lemma tiling_no_block_at_end (lo hi : Z) (M : bmap) :
  tiling lo hi M -> forall x, hi <= x -> M x = None.
Proof.
  intros T x Hx. destruct (M x) as [[sz a]|] eqn:E; [|reflexivity].
  pose proof (til_range _ _ _ T _ _ _ E). lia.
Qed.

Lemma tiling_extend (lo hi : Z) (M : bmap) (n : Z) (a : bool) :
  tiling lo hi M -> lo <= hi -> hi mod 8 = 0 -> 16 <= n -> n mod 8 = 0 ->
  tiling lo (hi + n) (bupd M hi (Some (n, a))).
Proof.
  intros T Hlo H8 Hn Hn8.
  constructor.
  - intros x szx ax Hx. bupd_cases; subst; saturate_mod T; auto; lia.
  - intros x szx ax Hx. bupd_cases; subst.
    + left. reflexivity.
    + right. saturate T.
      destruct (til_next _ _ _ T _ _ _ Hx) as [E | (sz' & a' & E)].
      * rewrite E. solve_block.
      * saturate T. solve_block.
  - intros x szx ax Hx. bupd_cases; subst.
    + destruct (til_last _ _ _ T) as [E | (b' & sz' & a' & E1 & E2)]; [left; auto|].
      right. exists b'. saturate T. solve_block.
    + destruct (til_prev _ _ _ T _ _ _ Hx) as [E | (b' & sz' & a' & E1 & E2)]; [left; exact E|].
      right. exists b'. saturate T. solve_block.
  - intros x1 s1 ax1 x2 s2 ax2 H1 H2 Hlt. bupd_cases; subst; saturate T; lia.
  - right. destruct (til_first _ _ _ T) as [E | (sz' & a' & E)].
    + subst. solve_block.
    + saturate T. solve_block.
  - right. exists hi, n, a. split; [solve_block | reflexivity].
Qed.

(** ** Reading the boundary tags of a laid-out heap *)

Lemma HDRP_small (b : Z) : 4 <= b < WORD -> HDRP b = b - 4.
Proof. intros H. unfold HDRP, WSIZE. apply wsub_small. lia. Qed.

Section Reads.
Variables (s : state) (M : bmap).
Hypothesis L : layout s M.

Lemma read_hdr_size (b sz : Z) (a : bool) :
  M b = Some (sz, a) -> GET_SIZE s (HDRP b) = sz.
Proof.
  intros H. destruct (layout_block _ _ _ _ _ L H) as (A & B & C & D & E & G & I & T1 & T2).
  rewrite HDRP_small by lia.
  apply GET_SIZE_tag with (a := a); auto; lia.
Qed.

Lemma read_hdr_alloc (b sz : Z) (a : bool) :
  M b = Some (sz, a) -> GET_ALLOC s (HDRP b) = if a then 1 else 0.
Proof.
  intros H. destruct (layout_block _ _ _ _ _ L H) as (A & B & C & D & E & G & I & T1 & T2).
  rewrite HDRP_small by lia.
  apply GET_ALLOC_tag with (sz := sz); auto.
Qed.

Lemma read_FTRP (b sz : Z) (a : bool) :
  M b = Some (sz, a) -> FTRP s b = b + sz - 8.
Proof.
  intros H. unfold FTRP. rewrite (read_hdr_size _ _ _ H).
  destruct (layout_block _ _ _ _ _ L H) as (A & B & C & D & E & G & I & T1 & T2).
  unfold DSIZE. rewrite wadd_small by lia. apply wsub_small. lia.
Qed.

Lemma read_ftr_alloc (b sz : Z) (a : bool) :
  M b = Some (sz, a) -> GET_ALLOC s (FTRP s b) = if a then 1 else 0.
Proof.
  intros H. rewrite (read_FTRP _ _ _ H).
  destruct (layout_block _ _ _ _ _ L H) as (A & B & C & D & E & G & I & T1 & T2).
  apply GET_ALLOC_tag with (sz := sz); auto.
Qed.

Lemma read_ftr_size (b sz : Z) (a : bool) :
  M b = Some (sz, a) -> GET_SIZE s (FTRP s b) = sz.
Proof.
  intros H. rewrite (read_FTRP _ _ _ H).
  destruct (layout_block _ _ _ _ _ L H) as (A & B & C & D & E & G & I & T1 & T2).
  apply GET_SIZE_tag with (a := a); auto; lia.
Qed.

Lemma read_NEXT_BLKP (b sz : Z) (a : bool) :
  M b = Some (sz, a) -> NEXT_BLKP s b = b + sz.
Proof.
  intros H. unfold NEXT_BLKP. fold (HDRP b). rewrite (read_hdr_size _ _ _ H).
  destruct (layout_block _ _ _ _ _ L H) as (A & B & C & D & E & G & I & T1 & T2).
  apply wadd_small. lia.
Qed.

(** The physical predecessor, found through its footer. *)
Lemma read_PREV_BLKP (b sz b' sz' : Z) (a a' : bool) :
  M b = Some (sz, a) -> M b' = Some (sz', a') -> b' + sz' = b ->
  PREV_BLKP s b = b'.
Proof.
  intros H H' E.
  destruct (layout_block _ _ _ _ _ L H) as (A & B & C & D & E8 & G & I & T1 & T2).
  destruct (layout_block _ _ _ _ _ L H') as (A' & B' & C' & D' & E8' & G' & I' & T1' & T2').
  unfold PREV_BLKP, DSIZE. rewrite (wsub_small b 8) by lia.
  replace (b - 8) with (b' + sz' - 8) by lia.
  rewrite (GET_SIZE_tag _ _ sz' a') by (auto; lia).
  rewrite wsub_small by lia. lia.
Qed.

(** The first block's predecessor is the prologue. *)
Lemma read_PREV_BLKP_first (b sz : Z) (a : bool) :
  M b = Some (sz, a) -> b = p_heap_list s + 8 ->
  PREV_BLKP s b = p_heap_list s.
Proof.
  intros H E.
  destruct (layout_block _ _ _ _ _ L H) as (A & B & C & D & E8 & G & I & T1 & T2).
  destruct (lay_prologue _ _ L) as [P1 P2].
  unfold PREV_BLKP, DSIZE. rewrite (wsub_small b 8) by lia.
  replace (b - 8) with (p_heap_list s) by lia.
  rewrite (GET_SIZE_tag _ _ 8 true) by (auto; unfold WORD; lia).
  rewrite wsub_small by lia. lia.
Qed.

Lemma read_prologue_alloc : GET_ALLOC s (FTRP s (p_heap_list s)) = 1.
Proof.
  destruct (lay_prologue _ _ L) as [P1 P2].
  destruct (lay_base _ _ L) as [B1 B2]. destruct (lay_brk _ _ L) as [B3 B4].
  unfold FTRP. rewrite HDRP_small by lia.
  rewrite (GET_SIZE_tag _ _ 8 true) by (auto; unfold WORD; lia).
  unfold DSIZE. rewrite wadd_small by lia. rewrite wsub_small by lia.
  replace (p_heap_list s + 8 - 8) with (p_heap_list s) by lia.
  apply (GET_ALLOC_tag _ _ 8 true); auto.
Qed.

Lemma read_epilogue_alloc : GET_ALLOC s (HDRP (mem_brk s)) = 1.
Proof.
  destruct (lay_base _ _ L) as [B1 B2]. destruct (lay_brk _ _ L) as [B3 B4].
  rewrite HDRP_small by lia.
  apply (GET_ALLOC_tag _ _ 0 true); auto. exact (lay_epilogue _ _ L).
Qed.
End Reads.

(** ** Placement *)

Lemma wrap_tag (sz : Z) (a : bool) :
  0 <= sz -> sz + 1 < WORD -> wrap (tag sz a) = tag sz a.
Proof. intros. apply wrap_small. unfold tag. destruct a; lia. Qed.

Definition split_map (M : bmap) (b csz asz : Z) : bmap :=
  bupd (bupd M (b + asz) (Some (csz - asz, false))) b (Some (asz, true)).

Lemma place_split (s : state) (M : bmap) (l1 l2 : list Z) (b csz asz : Z) :
  layout s M -> flist s M (l1 ++ b :: l2) -> M b = Some (csz, false) ->
  16 <= asz -> asz mod 8 = 0 -> 16 <= csz - asz ->
  layout (place s b asz) (split_map M b csz asz) /\
  flist (place s b asz) (split_map M b csz asz) ((b + asz) :: l1 ++ l2) /\
  same_regs s (place s b asz) /\
  (forall x, x < b - 4 \/ b + csz - 4 <= x ->
             (forall f, In f (l1 ++ l2) -> x < f \/ f + 8 <= x) ->
             mem (place s b asz) x = mem s x).
Proof.
  intros L F Hb Ha Ha8 Hrem.
  destruct (layout_block _ _ _ _ _ L Hb) as (A & B & C & D & E & G & I & T1 & T2).
  destruct (allocate_block_spec _ _ _ _ _ L F) as (L1 & F1 & R1 & U1).
  unfold place.
  rewrite (read_hdr_size _ _ L _ _ _ Hb).
  set (s1 := allocate_block s b) in *.
  unfold DSIZE, OVERHEAD. rewrite wsub_small by lia.
  replace (8 + 8 <=? csz - asz) with true by (symmetry; apply Z.leb_le; lia).
  rewrite HDRP_small by lia.
  rewrite PACK_alloc by exact Ha8. rewrite PACK_free.
  set (s2 := PUT s1 (b - 4) (asz + 1)).
  assert (F2 : FTRP s2 b = b + asz - 8).
  { unfold FTRP. rewrite HDRP_small by lia.
    rewrite (GET_SIZE_tag _ _ asz true); try lia.
    - unfold DSIZE. rewrite wadd_small by lia. apply wsub_small. lia.
    - subst s2. st_simpl. ld. apply (wrap_tag asz true); lia. }
  rewrite F2.
  set (s3 := PUT s2 (b + asz - 8) (asz + 1)).
  assert (N3 : NEXT_BLKP s3 b = b + asz).
  { unfold NEXT_BLKP, WSIZE. rewrite wsub_small by lia.
    rewrite (GET_SIZE_tag _ _ asz true); try lia.
    - apply wadd_small. lia.
    - subst s3 s2. st_simpl. ld. apply (wrap_tag asz true); lia. }
  rewrite N3. rewrite HDRP_small by lia.
  set (s4 := PUT s3 (b + asz - 4) (csz - asz)).
  assert (F4 : FTRP s4 (b + asz) = b + csz - 8).
  { unfold FTRP. rewrite HDRP_small by lia.
    rewrite (GET_SIZE_tag _ _ (csz - asz) false); try lia.
    - unfold DSIZE. rewrite wadd_small by lia. rewrite wsub_small by lia. lia.
    - subst s4 s3 s2. st_simpl. ld. apply (wrap_tag (csz - asz) false); lia. }
  rewrite F4.
  set (s5 := PUT s4 (b + csz - 8) (csz - asz)).
  assert (Hmem5 : mem s5 = store (store (store (store (mem s1) (b - 4) (asz + 1))
                     (b + asz - 8) (asz + 1)) (b + asz - 4) (csz - asz))
                     (b + csz - 8) (csz - asz)) by reflexivity.
  assert (R5 : same_regs s1 s5) by (repeat split).
  pose proof R1 as (R1a & R1b & R1c).
  assert (Hnb : ~ In b (l1 ++ l2)).
  { apply NoDup_remove_2. exact (fl_nodup _ _ _ F). }
  destruct (lay_prologue _ _ L1) as [P1 P2].
  pose proof (lay_epilogue _ _ L1) as P3.
  pose proof (lay_tiling _ _ L) as T.
  assert (L5 : layout s5 (split_map M b csz asz)).
  { constructor; rewrite ?Hmem5;
      change (mem_brk s5) with (mem_brk s1); change (p_heap_list s5) with (p_heap_list s1).
    - exact (lay_base _ _ L1).
    - exact (lay_brk _ _ L1).
    - split; ld.
    - ld.
    - rewrite R1a, R1c. apply tiling_split with (a0 := false); auto.
    - intros x sz a Hx. unfold split_map in Hx. bupd_cases; subst.
      + split; ld; unfold tag; apply wrap_small; lia.
      + replace (b + asz + (csz - asz) - 8) with (b + csz - 8) by lia.
        split; ld; unfold tag; apply wrap_small; lia.
      + saturate T.
        destruct (lay_tags _ _ L1 _ _ _ Hx) as [X1 X2].
        split; ld. }
  assert (F5 : flist s5 (split_map M b csz asz) (l1 ++ l2)).
  { apply flist_remap with (M := M).
    - apply flist_frame with (s := s1); auto.
      intros f Hf. rewrite Hmem5.
      destruct (fl_free _ _ _ F1 f Hf) as [szf Hszf].
      assert (f <> b) by (intros ->; contradiction).
      saturate T.
      split; ld.
    - intros f sz Hf Hm. unfold split_map.
      assert (f <> b) by (intros ->; contradiction).
      saturate T.
      solve_block. }
  assert (Hrm : split_map M b csz asz (b + asz) = Some (csz - asz, false)).
  { unfold split_map. solve_block. }
  assert (Hnr : ~ In (b + asz) (l1 ++ l2)).
  { intros Hin. destruct (fl_free _ _ _ F1 _ Hin) as [szf Hszf].
    saturate T. lia. }
  destruct (free_block_spec _ _ _ _ _ L5 F5 Hrm Hnr) as (L6 & F6 & R6 & U6).
  split; [exact L6|]. split; [exact F6|]. split.
  - eapply same_regs_trans; [exact R1|]. eapply same_regs_trans; [exact R5 | exact R6].
  - intros x Hx Hfl. rewrite U6.
    + rewrite Hmem5. rewrite !store_other by lia. apply U1.
      intros f Hf. apply in_app_or in Hf. destruct Hf as [Hf | [<- | Hf]].
      * apply Hfl. apply in_or_app. auto.
      * lia.
      * apply Hfl. apply in_or_app. auto.
    + intros f [<- | Hf]; [lia | apply Hfl; exact Hf].
Qed.

Lemma place_whole (s : state) (M : bmap) (l1 l2 : list Z) (b csz asz : Z) :
  layout s M -> flist s M (l1 ++ b :: l2) -> M b = Some (csz, false) ->
  asz <= csz -> csz - asz < 16 ->
  layout (place s b asz) (bupd M b (Some (csz, true))) /\
  flist (place s b asz) (bupd M b (Some (csz, true))) (l1 ++ l2) /\
  same_regs s (place s b asz) /\
  (forall x, x < b - 4 \/ b + csz - 4 <= x ->
             (forall f, In f (l1 ++ l2) -> x < f \/ f + 8 <= x) ->
             mem (place s b asz) x = mem s x).
Proof.
  intros L F Hb Ha Hrem.
  destruct (layout_block _ _ _ _ _ L Hb) as (A & B & C & D & E & G & I & T1 & T2).
  destruct (allocate_block_spec _ _ _ _ _ L F) as (L1 & F1 & R1 & U1).
  unfold place.
  rewrite (read_hdr_size _ _ L _ _ _ Hb).
  set (s1 := allocate_block s b) in *.
  unfold DSIZE, OVERHEAD. rewrite wsub_small by lia.
  replace (8 + 8 <=? csz - asz) with false by (symmetry; apply Z.leb_gt; lia).
  rewrite HDRP_small by lia.
  rewrite PACK_alloc by exact D.
  set (s2 := PUT s1 (b - 4) (csz + 1)).
  assert (F2 : FTRP s2 b = b + csz - 8).
  { unfold FTRP. rewrite HDRP_small by lia.
    rewrite (GET_SIZE_tag _ _ csz true); try lia.
    - unfold DSIZE. rewrite wadd_small by lia. apply wsub_small. lia.
    - subst s2. st_simpl. ld. apply (wrap_tag csz true); lia. }
  rewrite F2.
  set (s3 := PUT s2 (b + csz - 8) (csz + 1)).
  assert (Hmem3 : mem s3 = store (store (mem s1) (b - 4) (csz + 1))
                                 (b + csz - 8) (csz + 1)) by reflexivity.
  assert (R3 : same_regs s1 s3) by (repeat split).
  pose proof R1 as (R1a & R1b & R1c).
  assert (Hnb : ~ In b (l1 ++ l2)).
  { apply NoDup_remove_2. exact (fl_nodup _ _ _ F). }
  destruct (lay_prologue _ _ L1) as [P1 P2].
  pose proof (lay_epilogue _ _ L1) as P3.
  pose proof (lay_tiling _ _ L) as T.
  split; [|split; [|split]].
  - constructor; rewrite ?Hmem3;
      change (mem_brk s3) with (mem_brk s1); change (p_heap_list s3) with (p_heap_list s1).
    + exact (lay_base _ _ L1).
    + exact (lay_brk _ _ L1).
    + split; ld.
    + ld.
    + rewrite R1a, R1c. apply tiling_retag with (a0 := false); auto.
    + intros x sz a Hx. bupd_cases; subst.
      * split; ld; unfold tag; apply wrap_small; lia.
      * saturate T.
        destruct (lay_tags _ _ L1 _ _ _ Hx) as [X1 X2].
        split; ld.
  - apply flist_remap with (M := M).
    + apply flist_frame with (s := s1); auto.
      intros f Hf. rewrite Hmem3.
      destruct (fl_free _ _ _ F1 f Hf) as [szf Hszf].
      assert (f <> b) by (intros ->; contradiction).
      saturate T.
      split; ld.
    + intros f sz Hf Hm.
      assert (f <> b) by (intros ->; contradiction).
      solve_block.
  - eapply same_regs_trans; [exact R1 | exact R3].
  - intros x Hx Hfl.
    rewrite Hmem3. rewrite !store_other by lia. apply U1.
    intros f Hf. apply in_app_or in Hf. destruct Hf as [Hf | [<- | Hf]].
    + apply Hfl. apply in_or_app. auto.
    + lia.
    + apply Hfl. apply in_or_app. auto.
Qed.

(** ** Formatting one block *)

(** The tags of block [b] are rewritten; every other block of the new map
    is an old block. *)
Lemma layout_formatted (s s' : state) (M M' : bmap) (b total : Z) (a : bool) :
  layout s M -> same_regs s s' ->
  tiling (p_heap_list s + 8) (mem_brk s) M' ->
  M' b = Some (total, a) ->
  (forall x szx ax, M' x = Some (szx, ax) -> x <> b -> M x = Some (szx, ax)) ->
  load (mem s') (b - 4) = tag total a ->
  load (mem s') (b + total - 8) = tag total a ->
  (forall q, q + 4 <= b - 4 \/ b <= q -> q + 4 <= b + total - 8 \/ b + total - 4 <= q ->
             load (mem s') q = load (mem s) q) ->
  layout s' M'.
Proof.
  intros L (R1 & R2 & R3) T Hb Hold H1 H2 Hfr.
  destruct (lay_base _ _ L) as [B1 B2]. destruct (lay_brk _ _ L) as [B3 B4].
  destruct (lay_prologue _ _ L) as [P1 P2].
  pose proof (til_bounds _ _ _ T _ _ _ Hb) as Rb.
  constructor; rewrite ?R1, ?R2, ?R3.
  - exact (lay_base _ _ L).
  - exact (lay_brk _ _ L).
  - rewrite !Hfr by lia. exact (lay_prologue _ _ L).
  - rewrite Hfr by lia. exact (lay_epilogue _ _ L).
  - exact T.
  - intros x szx ax Hx. destruct (Z.eq_dec x b) as [-> | Hne].
    + rewrite Hb in Hx. injection Hx as <- <-. auto.
    + pose proof (Hold _ _ _ Hx Hne) as Hx'.
      saturate T.
      destruct (lay_tags _ _ L _ _ _ Hx') as [X1 X2].
      rewrite !Hfr by lia. auto.
Qed.

Lemma flist_formatted (s s' : state) (M M' : bmap) (fl : list Z) (b total : Z) (a : bool) :
  layout s M -> flist s M fl ->
  tiling (p_heap_list s + 8) (mem_brk s) M' ->
  M' b = Some (total, a) -> ~ In b fl ->
  (forall f szf, In f fl -> M f = Some (szf, false) -> M' f = Some (szf, false)) ->
  mp_firstfreeblock s' = mp_firstfreeblock s ->
  m_freecount s' = m_freecount s ->
  (forall q, q + 4 <= b - 4 \/ b <= q -> q + 4 <= b + total - 8 \/ b + total - 4 <= q ->
             load (mem s') q = load (mem s) q) ->
  flist s' M' fl.
Proof.
  intros L F T Hb Hn Hkeep Hh Hc Hfr.
  apply flist_remap with (M := M); [|exact Hkeep].
  apply flist_frame with (s := s); auto.
  intros f Hf. destruct (fl_free _ _ _ F f Hf) as [szf Hszf].
  pose proof (Hkeep _ _ Hf Hszf) as Hf'.
  assert (f <> b) by (intros ->; contradiction).
  saturate T.
  split; apply Hfr; lia.
Qed.

(** The memory after the two tag writes of a formatting step. *)
Lemma format_mem (m : memory) (b total : Z) (a : bool) (p1 p2 : Z) :
  16 <= total -> 0 <= total -> total + 1 < WORD ->
  (p1 = b - 4 /\ p2 = b + total - 8) \/ (p1 = b + total - 8 /\ p2 = b - 4) ->
  let m' := store (store m p1 (tag total a)) p2 (tag total a) in
  load m' (b - 4) = tag total a /\
  load m' (b + total - 8) = tag total a /\
  (forall q, q + 4 <= b - 4 \/ b <= q -> q + 4 <= b + total - 8 \/ b + total - 4 <= q ->
             load m' q = load m q) /\
  (forall x, x < b - 4 \/ b <= x -> x < b + total - 8 \/ b + total - 4 <= x ->
             m' x = m x).
Proof.
  intros H16 H0 Hw Hp m'. subst m'.
  destruct Hp as [[-> ->] | [-> ->]].
  - repeat split.
    + ld. apply wrap_tag; lia.
    + ld. apply wrap_tag; lia.
    + intros q Q1 Q2. ld.
    + intros x X1 X2. rewrite !store_other by lia. reflexivity.
  - repeat split.
    + ld. apply wrap_tag; lia.
    + ld. apply wrap_tag; lia.
    + intros q Q1 Q2. ld.
    + intros x X1 X2. rewrite !store_other by lia. reflexivity.
Qed.

(** ** Physical neighbours *)

Definition prev_allocated (M : bmap) (b : Z) : Prop :=
  forall b' sz', M b' = Some (sz', false) -> b' + sz' <> b.

Definition next_allocated (M : bmap) (e : Z) : Prop :=
  forall sz', M e <> Some (sz', false).

Lemma prev_view (s : state) (M : bmap) (b sz : Z) (a : bool) :
  layout s M -> M b = Some (sz, a) ->
  (GET_ALLOC s (FTRP s (PREV_BLKP s b)) = 1 /\ prev_allocated M b) \/
  (exists b' sz', GET_ALLOC s (FTRP s (PREV_BLKP s b)) = 0 /\
                  M b' = Some (sz', false) /\ b' + sz' = b /\ PREV_BLKP s b = b').
Proof.
  intros L Hb. pose proof (lay_tiling _ _ L) as T.
  destruct (til_prev _ _ _ T _ _ _ Hb) as [E | (b' & sz' & a' & E1 & E2)].
  - left. rewrite (read_PREV_BLKP_first _ _ L _ _ _ Hb E).
    split; [apply (read_prologue_alloc _ _ L)|].
    intros b' sz' Hb' Heq. saturate T. lia.
  - rewrite (read_PREV_BLKP _ _ L _ _ _ _ _ _ Hb E1 E2).
    rewrite (read_ftr_alloc _ _ L _ _ _ E1).
    destruct a'.
    + left. split; [reflexivity|].
      intros b2 sz2 Hb2 Heq. saturate T.
      assert (b2 = b') by lia. subst b2. rewrite E1 in Hb2. discriminate.
    + right. exists b', sz'. repeat split; auto.
Qed.

Lemma next_view (s : state) (M : bmap) (b sz : Z) (a : bool) :
  layout s M -> M b = Some (sz, a) ->
  (GET_ALLOC s (HDRP (NEXT_BLKP s b)) = 1 /\ next_allocated M (b + sz)) \/
  (exists nsz, GET_ALLOC s (HDRP (NEXT_BLKP s b)) = 0 /\
               M (b + sz) = Some (nsz, false)).
Proof.
  intros L Hb. pose proof (lay_tiling _ _ L) as T.
  rewrite (read_NEXT_BLKP _ _ L _ _ _ Hb).
  destruct (til_next _ _ _ T _ _ _ Hb) as [E | (nsz & an & E)].
  - left. rewrite E. split; [apply (read_epilogue_alloc _ _ L)|].
    intros sz' Hm. saturate T. lia.
  - rewrite (read_hdr_alloc _ _ L _ _ _ E). destruct an.
    + left. split; [reflexivity|]. intros sz' Hm. rewrite E in Hm. discriminate.
    + right. exists nsz. auto.
Qed.

(** ** Coalescing *)

(** The state in which [coalesce] is entered: block [bp] is tagged free
    but not yet listed; everything else is in order. *)
Record pending (s : state) (M : bmap) (fl : list Z) (bp sz : Z) : Prop := mkPending {
  pd_layout : layout s M;
  pd_flist : flist s M fl;
  pd_block : M bp = Some (sz, false);
  pd_notin : ~ In bp fl;
  pd_listed : forall x szx, M x = Some (szx, false) -> x <> bp -> In x fl;
  pd_coalesced : forall x szx szy,
      M x = Some (szx, false) -> M (x + szx) = Some (szy, false) ->
      x = bp \/ x + szx = bp
}.

(** What an operation leaves of the allocated blocks. *)
Definition keeps_allocated (s s' : state) (M M' : bmap) : Prop :=
  (forall x szx, M x = Some (szx, true) <-> M' x = Some (szx, true)) /\
  (forall x szx y, M x = Some (szx, true) -> x <= y < x + szx - 8 ->
                   mem s' y = mem s y).

Definition merge_map (M : bmap) (b sz1 sz2 : Z) : bmap :=
  bupd (bupd M (b + sz1) None) b (Some (sz1 + sz2, false)).

Lemma coalesce_case1 (s : state) (M : bmap) (fl : list Z) (bp sz : Z) :
  pending s M fl bp sz -> prev_allocated M bp -> next_allocated M (bp + sz) ->
  heap_rep (free_block s bp) M (bp :: fl) /\
  same_regs s (free_block s bp) /\
  keeps_allocated s (free_block s bp) M M.
Proof.
  intros P Hp Hn. destruct P as [L F Hb Hni Hls Hco].
  destruct (free_block_spec _ _ _ _ _ L F Hb Hni) as (L1 & F1 & R1 & U1).
  pose proof (lay_tiling _ _ L) as T.
  split; [|split].
  - constructor; auto.
    + intros x szx Hx. destruct (Z.eq_dec x bp) as [-> | Hne]; [left; reflexivity|].
      right. eapply Hls; eauto.
    + intros x szx szy Hx Hy.
      destruct (Hco _ _ _ Hx Hy) as [-> | E].
      * rewrite Hb in Hx. injection Hx as <-. exact (Hn _ Hy).
      * exact (Hp _ _ Hx E).
  - exact R1.
  - split; [tauto|].
    intros x szx y Hx Hy. apply U1.
    assert (x <> bp) by (intros ->; rewrite Hb in Hx; discriminate).
    intros f [<- | Hf].
    + saturate T. lia.
    + destruct (fl_free _ _ _ F f Hf) as [szf Hszf]. saturate T.
      assert (f <> x) by (intros ->; rewrite Hx in Hszf; discriminate).
      lia.
Qed.

Lemma payload_off_list (s : state) (M : bmap) (fl : list Z) (x szx y : Z) :
  layout s M -> flist s M fl -> M x = Some (szx, true) -> x <= y < x + szx - 8 ->
  forall f, In f fl -> y < f \/ f + 8 <= y.
Proof.
  intros L F Hx Hy f Hf. pose proof (lay_tiling _ _ L) as T.
  destruct (fl_free _ _ _ F f Hf) as [szf Hszf]. saturate T.
  assert (f <> x) by (intros ->; rewrite Hx in Hszf; discriminate).
  lia.
Qed.

(** The common end of the merge cases: the merged block [b0] has been
    formatted in [s3]; it is inserted at the head of the list. *)
Lemma merge_finish (s1 s3 : state) (M M' : bmap) (fl1 : list Z) (b0 total p1 p2 : Z) :
  layout s1 M -> flist s1 M fl1 ->
  tiling (p_heap_list s1 + 8) (mem_brk s1) M' ->
  M' b0 = Some (total, false) -> ~ In b0 fl1 ->
  (forall x szx ax, M' x = Some (szx, ax) -> x <> b0 -> M x = Some (szx, ax)) ->
  (forall f szf, In f fl1 -> M f = Some (szf, false) -> M' f = Some (szf, false)) ->
  same_regs s1 s3 ->
  mp_firstfreeblock s3 = mp_firstfreeblock s1 ->
  m_freecount s3 = m_freecount s1 ->
  mem s3 = store (store (mem s1) p1 total) p2 total ->
  (p1 = b0 - 4 /\ p2 = b0 + total - 8) \/ (p1 = b0 + total - 8 /\ p2 = b0 - 4) ->
  (forall x szx, M' x = Some (szx, false) -> x <> b0 -> In x fl1) ->
  coalesced M' ->
  heap_rep (free_block s3 b0) M' (b0 :: fl1) /\
  same_regs s1 (free_block s3 b0) /\
  (forall x szx y, M' x = Some (szx, true) -> x <= y < x + szx - 8 ->
                   mem (free_block s3 b0) y = mem s1 y).
Proof.
  intros L F T Hb0 Hni Hold Hkeep R Hh Hc Hmem Hp Hls Hco.
  pose proof (til_bounds _ _ _ T _ _ _ Hb0) as Rb.
  destruct (lay_base _ _ L) as [B1 B2]. destruct (lay_brk _ _ L) as [B3 B4].
  destruct (format_mem (mem s1) b0 total false p1 p2) as (M1 & M2 & M3 & M4);
    try lia; auto.
  change (tag total false) with total in *. rewrite <- Hmem in *.
  assert (L3 : layout s3 M').
  { apply layout_formatted with (s := s1) (M := M) (b := b0) (total := total) (a := false);
      auto. }
  assert (F3 : flist s3 M' fl1).
  { apply flist_formatted with (s := s1) (M := M) (b := b0) (total := total) (a := false);
      auto. }
  destruct (free_block_spec _ _ _ _ _ L3 F3 Hb0 Hni) as (L4 & F4 & R4 & U4).
  split; [|split].
  - constructor; auto.
    intros x szx Hx. destruct (Z.eq_dec x b0) as [-> | Hne]; [left; reflexivity|].
    right. eapply Hls; eauto.
  - eapply same_regs_trans; eauto.
  - intros x szx y Hx Hy.
    assert (x <> b0) by (intros ->; rewrite Hb0 in Hx; discriminate).
    assert (T3 := lay_tiling _ _ L3).
    rewrite U4.
    + apply M4; saturate T; lia.
    + intros f [<- | Hf].
      * saturate T. lia.
      * exact (payload_off_list _ _ _ _ _ _ L3 F3 Hx Hy f Hf).
Qed.

Ltac subst_rhs H :=
  match type of H with
  | _ = ?v => is_var v; subst v
  | _ => idtac
  end.

Ltac inj_some H :=
  first [ discriminate H
        | (let E1 := fresh in let E2 := fresh in
           injection H as E1 E2; subst_rhs E1; subst_rhs E2)
        | (let E1 := fresh in injection H as E1; subst_rhs E1)
        | clear H ].

Ltac bcases :=
  repeat match goal with
  | H : bupd _ ?k _ ?x = Some _ |- _ =>
      unfold bupd in H at 1; destruct (Z.eqb_spec x k);
      [ try subst x; inj_some H | idtac ]
  end.

(** The result of [coalesce]: the heap is quiescent again, the merged
    block [r] heads the free list. *)
Definition coalesce_post (s : state) (M : bmap) (bp sz : Z) (r : Z) (s' : state) : Prop :=
  exists M' fl' total,
    heap_rep s' M' (r :: fl') /\
    M' r = Some (total, false) /\ sz <= total /\
    (prev_allocated M bp -> r = bp) /\
    same_regs s s' /\
    keeps_allocated s s' M M'.

Lemma coalesce_eval1 (s : state) (M : bmap) (fl : list Z) (bp sz : Z) :
  pending s M fl bp sz -> prev_allocated M bp -> next_allocated M (bp + sz) ->
  coalesce s bp = (bp, free_block s bp).
Proof.
  intros P Hp Hn. destruct P as [L F Hb Hni Hls Hco].
  unfold coalesce.
  destruct (prev_view _ _ _ _ _ L Hb) as [[E1 _] | (b' & sz' & E1 & Hb' & Eb & _)].
  - destruct (next_view _ _ _ _ _ L Hb) as [[E2 _] | (nsz & E2 & Hnx)].
    + rewrite E1, E2. reflexivity.
    + exfalso. exact (Hn _ Hnx).
  - exfalso. exact (Hp _ _ Hb' Eb).
Qed.

Lemma coalesce_case2 (s : state) (M : bmap) (fl : list Z) (bp sz nsz : Z) :
  pending s M fl bp sz -> prev_allocated M bp -> M (bp + sz) = Some (nsz, false) ->
  exists s', coalesce s bp = (bp, s') /\ coalesce_post s M bp sz bp s'.
Proof.
  intros P Hp Hnx. destruct P as [L F Hb Hni Hls Hco].
  pose proof (lay_tiling _ _ L) as T.
  destruct (layout_block _ _ _ _ _ L Hb) as (A & B & C & D & E & G & I & T1 & T2).
  destruct (layout_block _ _ _ _ _ L Hnx) as (A' & B' & C' & D' & E' & _ & _ & T1' & T2').
  assert (Hin : In (bp + sz) fl) by (eapply Hls; eauto; lia).
  destruct (in_split _ _ Hin) as (l1 & l2 & Hfl). subst fl.
  destruct (allocate_block_spec _ _ _ _ _ L F) as (L1 & F1 & R1 & U1).
  unfold coalesce.
  destruct (prev_view _ _ _ _ _ L Hb) as [[E1 _] | (b' & sz' & E1 & Hb' & Eb & _)];
    [| exfalso; exact (Hp _ _ Hb' Eb)].
  destruct (next_view _ _ _ _ _ L Hb) as [[E2 Hna] | (nsz' & E2 & _)];
    [exfalso; exact (Hna _ Hnx)|].
  rewrite E1, E2. cbn [Z.eqb negb andb].
  rewrite (read_hdr_size _ _ L _ _ _ Hb).
  rewrite (read_NEXT_BLKP _ _ L _ _ _ Hb).
  set (s1 := allocate_block s (bp + sz)) in *.
  rewrite (read_NEXT_BLKP _ _ L1 _ _ _ Hb).
  rewrite (read_hdr_size _ _ L1 _ _ _ Hnx).
  rewrite wadd_small by lia. rewrite PACK_free. rewrite HDRP_small by lia.
  set (total := sz + nsz).
  set (s2 := PUT s1 (bp - 4) total).
  assert (F2 : FTRP s2 bp = bp + total - 8).
  { unfold FTRP. rewrite HDRP_small by lia.
    rewrite (GET_SIZE_tag _ _ total false); try (subst total; lia).
    - unfold DSIZE. rewrite wadd_small by (subst total; lia).
      apply wsub_small. subst total; lia.
    - subst s2. st_simpl. ld. apply (wrap_tag total false); subst total; lia. }
  rewrite F2.
  set (s3 := PUT s2 (bp + total - 8) total).
  eexists. split; [reflexivity|].
  pose proof R1 as (R1a & R1b & R1c).
  assert (Hnd := fl_nodup _ _ _ F).
  assert (Hn1 : ~ In (bp + sz) (l1 ++ l2)) by (apply NoDup_remove_2; exact Hnd).
  assert (Hn0 : ~ In bp (l1 ++ l2)).
  { intros X. apply Hni. apply in_app_or in X. apply in_or_app.
    destruct X; [left | right; right]; assumption. }
  assert (T' : tiling (p_heap_list s1 + 8) (mem_brk s1) (merge_map M bp sz nsz)).
  { rewrite R1a, R1c. eapply tiling_merge; eauto. }
  destruct (merge_finish s1 s3 M (merge_map M bp sz nsz) (l1 ++ l2) bp total
              (bp - 4) (bp + total - 8)) as (HR & RR & FR); auto.
  - unfold merge_map. solve_block.
  - intros x szx ax Hx Hne. unfold merge_map in Hx. bcases; try lia. exact Hx.
  - intros f szf Hf Hm. unfold merge_map.
    assert (f <> bp) by (intros ->; contradiction).
    assert (f <> bp + sz) by (intros ->; contradiction).
    solve_block.
  - repeat split.
  - intros x szx Hx Hne. unfold merge_map in Hx. bcases; try lia.
    pose proof (Hls _ _ Hx Hne) as X. apply in_app_or in X.
    apply in_or_app. destruct X as [X | [X | X]]; auto. congruence.
  - intros x szx szy Hx Hy. unfold merge_map in Hx, Hy. subst total. bcases; try lia.
    all: try (match goal with
              | e : _ + _ = _, H : _ = Some _ |- _ => exact (Hp _ _ H e)
              end).
    all: try (match goal with
              | H1 : _ ?x = Some (?a, false), H2 : _ (?x + ?a) = Some _ |- _ =>
                  destruct (Hco _ _ _ H1 H2); lia
              end).
    replace (bp + (sz + nsz)) with (bp + sz + nsz) in Hy by lia.
    destruct (Hco _ _ _ Hnx Hy); lia.
  - exists (merge_map M bp sz nsz), (l1 ++ l2), total.
    split; [exact HR|]. split; [unfold merge_map; solve_block|].
    split; [subst total; lia|]. split; [auto|].
    split; [eapply same_regs_trans; eauto|].
    split.
    + intros x szx. unfold merge_map. split; intros Hx.
      * assert (x <> bp) by (intros ->; rewrite Hb in Hx; discriminate).
        assert (x <> bp + sz) by (intros ->; rewrite Hnx in Hx; discriminate).
        solve_block.
      * bcases; try discriminate. exact Hx.
    + intros x szx y Hx Hy.
      assert (x <> bp) by (intros ->; rewrite Hb in Hx; discriminate).
      assert (x <> bp + sz) by (intros ->; rewrite Hnx in Hx; discriminate).
      rewrite (FR x szx y); auto.
      * apply U1. exact (payload_off_list _ _ _ _ _ _ L F Hx Hy).
      * unfold merge_map. solve_block.
Qed.

(** Address computations from raw tag words. *)
Lemma PREV_BLKP_raw (s : state) (bp psz : Z) (a : bool) :
  load (mem s) (bp - 8) = tag psz a ->
  8 <= bp < WORD -> 0 <= psz < bp -> psz mod 8 = 0 ->
  PREV_BLKP s bp = bp - psz.
Proof.
  intros Hl Hb Hp H8. unfold PREV_BLKP, DSIZE.
  rewrite (wsub_small bp 8) by lia.
  rewrite (GET_SIZE_tag _ _ psz a) by (auto; lia).
  apply wsub_small. lia.
Qed.

Lemma NEXT_BLKP_raw (s : state) (bp sz : Z) (a : bool) :
  load (mem s) (bp - 4) = tag sz a ->
  4 <= bp -> bp + sz < WORD -> 0 <= sz -> sz mod 8 = 0 ->
  NEXT_BLKP s bp = bp + sz.
Proof.
  intros Hl Hb Hw Hs H8. unfold NEXT_BLKP, WSIZE.
  rewrite (wsub_small bp 4) by lia.
  rewrite (GET_SIZE_tag _ _ sz a) by (auto; lia).
  apply wadd_small. lia.
Qed.

Lemma FTRP_raw (s : state) (bp sz : Z) (a : bool) :
  load (mem s) (bp - 4) = tag sz a ->
  4 <= bp -> bp + sz < WORD -> 8 <= sz -> sz mod 8 = 0 ->
  FTRP s bp = bp + sz - 8.
Proof.
  intros Hl Hb Hw Hs H8. unfold FTRP. rewrite HDRP_small by lia.
  rewrite (GET_SIZE_tag _ _ sz a) by (auto; lia).
  unfold DSIZE. rewrite wadd_small by lia. apply wsub_small. lia.
Qed.

Lemma coalesce_case3 (s : state) (M : bmap) (fl : list Z) (bp sz b' psz : Z) :
  pending s M fl bp sz ->
  M b' = Some (psz, false) -> b' + psz = bp -> next_allocated M (bp + sz) ->
  exists s', coalesce s bp = (b', s') /\ coalesce_post s M bp sz b' s'.
Proof.
  intros P Hpv Epv Hna. destruct P as [L F Hb Hni Hls Hco].
  pose proof (lay_tiling _ _ L) as T.
  destruct (layout_block _ _ _ _ _ L Hb) as (A & B & C & D & E & G & I & T1 & T2).
  destruct (layout_block _ _ _ _ _ L Hpv) as (A' & B' & C' & D' & E' & _ & _ & T1' & T2').
  assert (Hin : In b' fl) by (eapply Hls; eauto; lia).
  destruct (in_split _ _ Hin) as (l1 & l2 & Hfl). subst fl.
  destruct (allocate_block_spec _ _ _ _ _ L F) as (L1 & F1 & R1 & U1).
  unfold coalesce.
  destruct (prev_view _ _ _ _ _ L Hb) as [[E1 Hpa] | (b2 & sz2 & E1 & Hb2 & Eb2 & Epb)];
    [exfalso; exact (Hpa _ _ Hpv Epv)|].
  assert (Hbb : b2 = b') by (saturate T; lia). rewrite Hbb in Epb. clear Hbb Hb2 Eb2.
  destruct (next_view _ _ _ _ _ L Hb) as [[E2 _] | (nsz' & E2 & Hnf)];
    [| exfalso; exact (Hna _ Hnf)].
  rewrite E1, E2. cbn [Z.eqb negb andb].
  rewrite (read_hdr_size _ _ L _ _ _ Hb).
  rewrite Epb.
  set (s1 := allocate_block s b') in *.
  rewrite (read_PREV_BLKP _ _ L1 _ _ _ _ _ _ Hb Hpv Epv).
  rewrite (read_hdr_size _ _ L1 _ _ _ Hpv).
  rewrite (read_FTRP _ _ L1 _ _ _ Hb).
  rewrite wadd_small by lia. rewrite PACK_free.
  set (total := psz + sz). replace (sz + psz) with total by (subst total; lia).
  set (s2 := PUT s1 (bp + sz - 8) total).
  destruct (lay_tags _ _ L1 _ _ _ Hpv) as [X1 X2].
  assert (P2 : PREV_BLKP s2 bp = b').
  { rewrite (PREV_BLKP_raw _ _ psz false); try lia.
    subst s2. st_simpl. ld. rewrite <- Epv.
    replace (b' + psz - 8) with (b' + psz - 8) by lia. exact X2. }
  rewrite P2. rewrite HDRP_small by lia.
  set (s3 := PUT s2 (b' - 4) total).
  assert (P3 : PREV_BLKP s3 bp = b').
  { rewrite (PREV_BLKP_raw _ _ psz false); try lia.
    subst s3 s2. st_simpl. ld. rewrite <- Epv. exact X2. }
  rewrite P3.
  eexists. split; [reflexivity|].
  pose proof R1 as (R1a & R1b & R1c).
  assert (Hnd := fl_nodup _ _ _ F).
  assert (Hn1 : ~ In b' (l1 ++ l2)) by (apply NoDup_remove_2; exact Hnd).
  assert (Hn0 : ~ In bp (l1 ++ l2)).
  { intros X. apply Hni. apply in_app_or in X. apply in_or_app.
    destruct X; [left | right; right]; assumption. }
  assert (Hbp' : M (b' + psz) = Some (sz, false)) by (rewrite Epv; exact Hb).
  assert (T' : tiling (p_heap_list s1 + 8) (mem_brk s1) (merge_map M b' psz sz)).
  { rewrite R1a, R1c. eapply tiling_merge; eauto. }
  destruct (merge_finish s1 s3 M (merge_map M b' psz sz) (l1 ++ l2) b' total
              (bp + sz - 8) (b' - 4)) as (HR & RR & FR); auto.
  - unfold merge_map. solve_block.
  - intros x szx ax Hx Hne. unfold merge_map in Hx. bcases; try lia. exact Hx.
  - intros f szf Hf Hm. unfold merge_map.
    assert (f <> bp) by (intros ->; contradiction).
    assert (f <> b') by (intros ->; contradiction).
    solve_block.
  - repeat split.
  - subst total. lia.
  - intros x szx Hx Hne. unfold merge_map in Hx. bcases; try lia.
    assert (x <> bp) by lia.
    pose proof (Hls _ _ Hx H) as X. apply in_app_or in X.
    apply in_or_app. destruct X as [X | [X | X]]; auto. congruence.
  - intros x szx szy Hx Hy. unfold merge_map in Hx, Hy. subst total. bcases; try lia.
    all: try (match goal with
              | H1 : _ ?x = Some (?a, false), H2 : _ (?x + ?a) = Some _ |- _ =>
                  destruct (Hco _ _ _ H1 H2); lia
              end).
    all: try (match goal with
              | H : _ (?p + (?q + ?r)) = Some (_, false) |- _ =>
                  replace (p + (q + r)) with (bp + sz) in H by lia; exact (Hna _ H)
              end).
    all: try (match goal with
              | e : ?x + ?a = _, H : _ ?x = Some (?a, false) |- _ =>
                  assert (X : M (x + a) = Some (psz, false)) by (rewrite e; exact Hpv);
                  destruct (Hco _ _ _ H X); lia
              end).
  - exists (merge_map M b' psz sz), (l1 ++ l2), total.
    split; [exact HR|]. split; [unfold merge_map; solve_block|].
    split; [subst total; lia|]. split.
    { intros Hpa. exfalso. exact (Hpa _ _ Hpv Epv). }
    split; [eapply same_regs_trans; eauto|].
    split.
    + intros x szx. unfold merge_map. split; intros Hx.
      * assert (x <> bp) by (intros ->; rewrite Hb in Hx; discriminate).
        assert (x <> b') by (intros ->; rewrite Hpv in Hx; discriminate).
        solve_block.
      * bcases; try discriminate. exact Hx.
    + intros x szx y Hx Hy.
      assert (x <> bp) by (intros ->; rewrite Hb in Hx; discriminate).
      assert (x <> b') by (intros ->; rewrite Hpv in Hx; discriminate).
      rewrite (FR x szx y); auto.
      * apply U1. exact (payload_off_list _ _ _ _ _ _ L F Hx Hy).
      * unfold merge_map. solve_block.
Qed.

Lemma coalesce_case4 (s : state) (M : bmap) (fl : list Z) (bp sz b' psz nsz : Z) :
  pending s M fl bp sz ->
  M b' = Some (psz, false) -> b' + psz = bp -> M (bp + sz) = Some (nsz, false) ->
  exists s', coalesce s bp = (b', s') /\ coalesce_post s M bp sz b' s'.
Proof.
  intros P Hpv Epv Hnx. destruct P as [L F Hb Hni Hls Hco].
  pose proof (lay_tiling _ _ L) as T.
  destruct (layout_block _ _ _ _ _ L Hb) as (A & B & C & D & E & G & I & T1 & T2).
  destruct (layout_block _ _ _ _ _ L Hpv) as (A' & B' & C' & D' & E' & _ & _ & T1' & T2').
  destruct (layout_block _ _ _ _ _ L Hnx) as (A2 & B2 & C2 & D2 & E2' & _ & _ & T12 & T22).
  assert (Hin : In (bp + sz) fl) by (eapply Hls; eauto; lia).
  destruct (in_split _ _ Hin) as (l1 & l2 & Hfl). subst fl.
  destruct (allocate_block_spec _ _ _ _ _ L F) as (L1 & F1 & R1 & U1).
  assert (Hin' : In b' (l1 ++ l2)).
  { assert (X : In b' (l1 ++ bp + sz :: l2)) by (eapply Hls; eauto; lia).
    apply in_app_or in X. apply in_or_app. destruct X as [X | [X | X]]; auto. lia. }
  destruct (in_split _ _ Hin') as (l3 & l4 & Hfl').
  unfold coalesce.
  destruct (prev_view _ _ _ _ _ L Hb) as [[E1 Hpa] | (b2 & sz2 & E1 & Hb2 & Eb2 & Epb)];
    [exfalso; exact (Hpa _ _ Hpv Epv)|].
  assert (Hbb : b2 = b') by (saturate T; lia). rewrite Hbb in Epb. clear Hbb Hb2 Eb2.
  destruct (next_view _ _ _ _ _ L Hb) as [[E2 Hna] | (nsz' & E2 & _)];
    [exfalso; exact (Hna _ Hnx)|].
  rewrite E1, E2. cbn [Z.eqb negb andb].
  rewrite (read_hdr_size _ _ L _ _ _ Hb).
  rewrite (read_NEXT_BLKP _ _ L _ _ _ Hb).
  set (s1 := allocate_block s (bp + sz)) in *.
  rewrite Hfl' in F1.
  rewrite (read_PREV_BLKP _ _ L1 _ _ _ _ _ _ Hb Hpv Epv).
  destruct (allocate_block_spec _ _ _ _ _ L1 F1) as (L2 & F2 & R2 & U2).
  set (s2 := allocate_block s1 b') in *.
  rewrite (read_PREV_BLKP _ _ L2 _ _ _ _ _ _ Hb Hpv Epv).
  rewrite (read_hdr_size _ _ L2 _ _ _ Hpv).
  rewrite (read_NEXT_BLKP _ _ L2 _ _ _ Hb).
  rewrite (read_ftr_size _ _ L2 _ _ _ Hnx).
  rewrite (wadd_small psz nsz) by lia. rewrite wadd_small by lia.
  rewrite PACK_free. rewrite HDRP_small by lia.
  set (total := psz + sz + nsz).
  replace (sz + (psz + nsz)) with total by (subst total; lia).
  set (s3 := PUT s2 (b' - 4) total).
  destruct (lay_tags _ _ L2 _ _ _ Hpv) as [X1 X2].
  destruct (lay_tags _ _ L2 _ _ _ Hb) as [Y1 Y2].
  destruct (lay_tags _ _ L2 _ _ _ Hnx) as [Z1 Z2].
  assert (N3 : NEXT_BLKP s3 bp = bp + sz).
  { rewrite (NEXT_BLKP_raw _ _ sz false); try lia.
    subst s3. st_simpl. ld. }
  rewrite N3.
  assert (F3 : FTRP s3 (bp + sz) = bp + sz + nsz - 8).
  { rewrite (FTRP_raw _ _ nsz false); try lia.
    subst s3. st_simpl. ld. }
  rewrite F3.
  set (s4 := PUT s3 (bp + sz + nsz - 8) total).
  assert (P4 : PREV_BLKP s4 bp = b').
  { rewrite (PREV_BLKP_raw _ _ psz false); try lia.
    subst s4 s3. st_simpl. ld. rewrite <- Epv. exact X2. }
  rewrite P4.
  eexists. split; [reflexivity|].
  pose proof R1 as (R1a & R1b & R1c). pose proof R2 as (R2a & R2b & R2c).
  assert (Hnd := fl_nodup _ _ _ F).
  assert (Hnd1 := fl_nodup _ _ _ F1).
  assert (Hn1 : ~ In (bp + sz) (l1 ++ l2)) by (apply NoDup_remove_2; exact Hnd).
  assert (Hn2 : ~ In b' (l3 ++ l4)) by (apply NoDup_remove_2; exact Hnd1).
  assert (Hsub : forall x, In x (l3 ++ l4) -> In x (l1 ++ l2)).
  { intros x X. rewrite Hfl'. apply in_app_or in X. apply in_or_app.
    destruct X; [left | right; right]; assumption. }
  assert (Hsup : forall x, In x (l1 ++ l2) -> x <> b' -> In x (l3 ++ l4)).
  { intros x X Hne. rewrite Hfl' in X. apply in_app_or in X. apply in_or_app.
    destruct X as [X | [X | X]]; auto. congruence. }
  assert (Hn0 : ~ In bp (l3 ++ l4)).
  { intros X. apply Hni. apply Hsub in X. apply in_app_or in X. apply in_or_app.
    destruct X; [left | right; right]; assumption. }
  assert (Hn3 : ~ In (bp + sz) (l3 ++ l4)) by (intros X; apply Hn1; apply Hsub; exact X).
  assert (Hbp' : M (b' + psz) = Some (sz, false)) by (rewrite Epv; exact Hb).
  set (M1 := merge_map M b' psz sz).
  assert (T1m : tiling (p_heap_list s + 8) (mem_brk s) M1).
  { eapply tiling_merge; eauto. }
  assert (Hm1a : M1 b' = Some (psz + sz, false)) by (unfold M1, merge_map; solve_block).
  assert (Hm1b : M1 (b' + (psz + sz)) = Some (nsz, false)).
  { unfold M1, merge_map. replace (b' + (psz + sz)) with (bp + sz) by lia. solve_block. }
  set (M2 := merge_map M1 b' (psz + sz) nsz).
  assert (T2m : tiling (p_heap_list s2 + 8) (mem_brk s2) M2).
  { rewrite R2a, R2c, R1a, R1c. eapply tiling_merge; eauto. }
  assert (HM2 : forall x, M2 x = if x =? b' then Some (total, false)
                                 else if x =? bp then None
                                 else if x =? bp + sz then None else M x).
  { intros x. unfold M2, M1, merge_map, bupd. subst total.
    replace (b' + (psz + sz)) with (bp + sz) by lia.
    replace (b' + psz) with bp by lia.
    destruct (Z.eqb_spec x b'); [reflexivity|].
    destruct (Z.eqb_spec x (bp + sz)); destruct (Z.eqb_spec x bp); try reflexivity; lia. }
  assert (Hcases : forall x szx ax, M2 x = Some (szx, ax) ->
             (x = b' /\ szx = total /\ ax = false) \/
             (x <> b' /\ x <> bp /\ x <> bp + sz /\ M x = Some (szx, ax))).
  { intros x szx ax Hx. rewrite HM2 in Hx.
    destruct (Z.eqb_spec x b'); [left; injection Hx as <- <-; auto|].
    destruct (Z.eqb_spec x bp); [discriminate|].
    destruct (Z.eqb_spec x (bp + sz)); [discriminate|]. right. auto. }
  assert (Hkeep2 : forall x szx ax, M x = Some (szx, ax) -> x <> b' -> x <> bp ->
             x <> bp + sz -> M2 x = Some (szx, ax)).
  { intros x szx ax Hx N1 N2 N3'. rewrite HM2.
    destruct (Z.eqb_spec x b'); [contradiction|].
    destruct (Z.eqb_spec x bp); [contradiction|].
    destruct (Z.eqb_spec x (bp + sz)); [contradiction|]. exact Hx. }
  assert (Hb2' : M2 b' = Some (total, false)).
  { rewrite HM2. rewrite Z.eqb_refl. reflexivity. }
  destruct (merge_finish s2 s4 M M2 (l3 ++ l4) b' total
              (b' - 4) (bp + sz + nsz - 8)) as (HR & RR & FR); auto.
  - intros x szx ax Hx Hne. destruct (Hcases _ _ _ Hx) as [[? _] | (_ & _ & _ & X)]; auto.
    contradiction.
  - intros f szf Hf Hm. apply Hkeep2; auto; intros ->; contradiction.
  - repeat split.
  - subst total. lia.
  - intros x szx Hx Hne. destruct (Hcases _ _ _ Hx) as [[? _] | (N1 & N2 & N3' & X)];
      [contradiction|].
    apply Hsup; auto.
    pose proof (Hls _ _ X N2) as Y. apply in_app_or in Y. apply in_or_app.
    destruct Y as [Y | [Y | Y]]; auto. congruence.
  - intros x szx szy Hx Hy.
    destruct (Hcases _ _ _ Hx) as [(-> & -> & _) | (N1 & N2 & N3' & X)];
      destruct (Hcases _ _ _ Hy) as [(Ey & _ & _) | (N1' & N2' & N3'' & Y)].
    + subst total. lia.
    + subst total. replace (b' + (psz + sz + nsz)) with (bp + sz + nsz) in Y by lia.
      destruct (Hco _ _ _ Hnx Y); lia.
    + assert (X' : M (x + szx) = Some (psz, false)) by (rewrite Ey; exact Hpv).
      destruct (Hco _ _ _ X X'); lia.
    + destruct (Hco _ _ _ X Y); lia.
  - exists M2, (l3 ++ l4), total.
    split; [exact HR|]. split; [exact Hb2'|].
    split; [subst total; lia|]. split.
    { intros Hpa. exfalso. exact (Hpa _ _ Hpv Epv). }
    split; [eapply same_regs_trans; [exact R1 | eapply same_regs_trans; eauto]|].
    split.
    + intros x szx. split; intros Hx.
      * apply Hkeep2; auto; intros ->; congruence.
      * destruct (Hcases _ _ _ Hx) as [(_ & _ & ?) | (_ & _ & _ & X)]; [discriminate | auto].
    + intros x szx y Hx Hy.
      assert (x <> bp) by (intros ->; rewrite Hb in Hx; discriminate).
      assert (x <> b') by (intros ->; rewrite Hpv in Hx; discriminate).
      assert (x <> bp + sz) by (intros ->; rewrite Hnx in Hx; discriminate).
      rewrite (FR x szx y); auto.
      * rewrite U2; [apply U1|].
        -- exact (payload_off_list _ _ _ _ _ _ L F Hx Hy).
        -- exact (payload_off_list _ _ _ _ _ _ L1 F1 Hx Hy).
Qed.

Theorem coalesce_spec (s : state) (M : bmap) (fl : list Z) (bp sz : Z) :
  pending s M fl bp sz ->
  exists r s', coalesce s bp = (r, s') /\ coalesce_post s M bp sz r s'.
Proof.
  intros P. pose proof (pd_layout _ _ _ _ _ P) as L.
  pose proof (pd_block _ _ _ _ _ P) as Hb.
  destruct (prev_view _ _ _ _ _ L Hb) as [[_ Hpa] | (b' & psz & _ & Hpv & Epv & _)];
    destruct (next_view _ _ _ _ _ L Hb) as [[_ Hna] | (nsz & _ & Hnx)].
  - exists bp, (free_block s bp).
    split; [apply (coalesce_eval1 _ _ _ _ _ P Hpa Hna)|].
    destruct (coalesce_case1 _ _ _ _ _ P Hpa Hna) as (HR & RR & KR).
    exists M, fl, sz.
    split; [exact HR|]. split; [exact Hb|]. split; [lia|].
    split; [reflexivity|]. split; [exact RR | exact KR].
  - destruct (coalesce_case2 _ _ _ _ _ _ P Hpa Hnx) as (s' & E & Q). eauto.
  - destruct (coalesce_case3 _ _ _ _ _ _ _ P Hpv Epv Hna) as (s' & E & Q). eauto.
  - destruct (coalesce_case4 _ _ _ _ _ _ _ _ P Hpv Epv Hnx) as (s' & E & Q). eauto.
Qed.

(** ** Freeing *)

Definition retag_map (M : bmap) (b sz : Z) (a : bool) : bmap := bupd M b (Some (sz, a)).

(** The two tag writes of [mm_free] lead to a pending state. *)
Lemma free_tags_pending (s : state) (M : bmap) (fl : list Z) (bp sz : Z) :
  heap_rep s M fl -> M bp = Some (sz, true) ->
  let s2 := PUT (PUT s (bp - 4) sz) (bp + sz - 8) sz in
  pending s2 (retag_map M bp sz false) fl bp sz /\
  same_regs s s2 /\
  (forall x, x < bp - 4 \/ bp <= x -> x < bp + sz - 8 \/ bp + sz - 4 <= x ->
             mem s2 x = mem s x).
Proof.
  intros [L F Hls Hco] Hb s2.
  pose proof (lay_tiling _ _ L) as T.
  destruct (layout_block _ _ _ _ _ L Hb) as (A & B & C & D & E & G & I & T1 & T2).
  assert (T' : tiling (p_heap_list s + 8) (mem_brk s) (retag_map M bp sz false)).
  { eapply tiling_retag; eauto. }
  assert (Hb' : retag_map M bp sz false bp = Some (sz, false)).
  { unfold retag_map. apply bupd_same. }
  assert (Hni : ~ In bp fl).
  { intros X. destruct (fl_free _ _ _ F _ X) as [sz' X']. congruence. }
  destruct (format_mem (mem s) bp sz false (bp - 4) (bp + sz - 8)) as (M1 & M2 & M3 & M4);
    try lia; auto.
  change (tag sz false) with sz in *.
  assert (R : same_regs s s2) by (repeat split).
  split; [|split; [exact R | exact M4]].
  constructor.
  - apply layout_formatted with (s := s) (M := M) (b := bp) (total := sz) (a := false);
      auto.
    intros x szx ax Hx Hne. unfold retag_map in Hx. rewrite bupd_other in Hx; auto.
  - apply flist_formatted with (s := s) (M := M) (b := bp) (total := sz) (a := false);
      auto.
    intros f szf Hf Hm. unfold retag_map. rewrite bupd_other; auto.
    intros ->. contradiction.
  - exact Hb'.
  - exact Hni.
  - intros x szx Hx Hne. unfold retag_map in Hx. rewrite bupd_other in Hx; auto.
    eapply Hls; eauto.
  - intros x szx szy Hx Hy. unfold retag_map in Hx, Hy.
    destruct (Z.eq_dec x bp) as [-> | N1]; [left; reflexivity|].
    destruct (Z.eq_dec (x + szx) bp) as [E1 | N2]; [right; exact E1|].
    rewrite bupd_other in Hx, Hy; auto.
    exfalso. exact (Hco _ _ _ Hx Hy).
Qed.

Lemma mm_free_eval (s : state) (M : bmap) (bp sz : Z) :
  layout s M -> M bp = Some (sz, true) ->
  mm_free s bp = snd (coalesce (PUT (PUT s (bp - 4) sz) (bp + sz - 8) sz) bp).
Proof.
  intros L Hb.
  destruct (layout_block _ _ _ _ _ L Hb) as (A & B & C & D & E & G & I & T1 & T2).
  unfold mm_free.
  rewrite (read_hdr_size _ _ L _ _ _ Hb). rewrite PACK_free. rewrite HDRP_small by lia.
  rewrite (FTRP_raw _ _ sz false); try lia; [reflexivity|].
  st_simpl. ld. apply (wrap_tag sz false); lia.
Qed.

(** [mm_free] on an allocated block of a quiescent heap. *)
Theorem mm_free_spec (s : state) (M : bmap) (fl : list Z) (bp sz : Z) :
  heap_rep s M fl -> M bp = Some (sz, true) ->
  exists M' fl' r total,
    heap_rep (mm_free s bp) M' (r :: fl') /\
    M' r = Some (total, false) /\ sz <= total /\
    (prev_allocated M bp -> r = bp) /\
    same_regs s (mm_free s bp) /\
    (forall x szx, x <> bp -> (M x = Some (szx, true) <-> M' x = Some (szx, true))) /\
    (forall szx, M' bp <> Some (szx, true)) /\
    (forall x szx y, M x = Some (szx, true) -> x <> bp -> x <= y < x + szx - 8 ->
                     mem (mm_free s bp) y = mem s y).
Proof.
  intros HR Hb. pose proof (hr_layout _ _ _ HR) as L.
  pose proof (lay_tiling _ _ L) as T.
  rewrite (mm_free_eval _ _ _ _ L Hb).
  destruct (free_tags_pending _ _ _ _ _ HR Hb) as (P & R & Fr).
  set (s2 := PUT (PUT s (bp - 4) sz) (bp + sz - 8) sz) in *.
  destruct (coalesce_spec _ _ _ _ _ P) as (r & s' & E & (M' & fl' & total & HR' & Hr & Hsz & Hpa & R' & K1 & K2)).
  rewrite E. cbn [snd].
  exists M', fl', r, total.
  split; [exact HR'|]. split; [exact Hr|]. split; [exact Hsz|].
  split.
  { intros X. apply Hpa. intros b' sz' Hb' Eb'. unfold retag_map in Hb'.
    destruct (Z.eq_dec b' bp) as [-> | N].
    - rewrite bupd_same in Hb'. injection Hb' as <-. saturate T. lia.
    - rewrite bupd_other in Hb'; auto. exact (X _ _ Hb' Eb'). }
  split; [exact (same_regs_trans _ _ _ R R')|].
  split.
  { intros x szx Hne. specialize (K1 x szx). unfold retag_map in K1.
    rewrite bupd_other in K1; auto. }
  split.
  { intros szx X. apply K1 in X. unfold retag_map in X. rewrite bupd_same in X. discriminate. }
  intros x szx y Hx Hne Hy.
  rewrite (K2 x szx y); auto.
  - apply Fr; saturate T; lia.
  - unfold retag_map. rewrite bupd_other; auto.
Qed.

(** ** Heap growth *)

(** The number of bytes [extend_heap] asks the provider for. *)
Definition extend_size (words : Z) : Z :=
  if negb (words mod 2 =? 0) then wmul (wadd words 1) WSIZE else wmul words WSIZE.

Lemma extend_size_even (n : Z) :
  0 <= n < WORD -> n mod 8 = 0 -> extend_size (n / WSIZE) = n.
Proof.
  intros H0 H8. unfold extend_size, WSIZE.
  replace (n / 4 mod 2 =? 0) with true by (symmetry; apply Z.eqb_eq; lia).
  cbn [negb]. unfold wmul, wrap, WORD in *. lia.
Qed.

Lemma layout_brk_aligned (s : state) (M : bmap) : layout s M -> mem_brk s mod 8 = 0.
Proof.
  intros L. destruct (lay_base _ _ L) as [B1 B2].
  destruct (til_last _ _ _ (lay_tiling _ _ L)) as [E | (b & sz & a & Hb & E)].
  - lia.
  - pose proof (til_range _ _ _ (lay_tiling _ _ L) _ _ _ Hb). lia.
Qed.

Lemma extend_heap_fail (s : state) (words : Z) :
  mem_max_addr s < mem_brk s + extend_size words ->
  extend_heap s words = (NULL, log s (EvSbrk (extend_size words))).
Proof.
  intros H. unfold extend_heap. fold (extend_size words).
  unfold mem_sbrk. cbn [mem_brk mem_max_addr log].
  replace (mem_brk s + extend_size words <=? mem_max_addr s) with false
    by (symmetry; apply Z.leb_gt; lia).
  reflexivity.
Qed.

Lemma extend_heap_pending (s : state) (M : bmap) (fl : list Z) (n : Z) :
  heap_rep s M fl -> 16 <= n -> n mod 8 = 0 ->
  mem_brk s + n <= mem_max_addr s ->
  let hi := mem_brk s in
  let s1 := snd (mem_sbrk s n) in
  let s4 := PUT (PUT (PUT s1 (hi - 4) n) (hi + n - 8) n) (hi + n - 4) 1 in
  pending s4 (bupd M hi (Some (n, false))) fl hi n /\
  mem_brk s4 = hi + n /\ p_heap_list s4 = p_heap_list s /\
  mem_max_addr s4 = mem_max_addr s /\
  (forall x, x < hi - 4 -> mem s4 x = mem s x).
Proof.
  intros [L F Hls Hco] Hn Hn8 Hfit hi s1 s4.
  pose proof (lay_tiling _ _ L) as T.
  destruct (lay_base _ _ L) as [B1 B2]. destruct (lay_brk _ _ L) as (B3 & B4 & B5).
  destruct (lay_prologue _ _ L) as [P1 P2].
  pose proof (layout_brk_aligned _ _ L) as H8.
  assert (Hs1 : s1 = mkState (mem s) (mem_brk s + n) (mem_max_addr s) (p_heap_list s)
                        (mp_firstfreeblock s) (m_freecount s) (trace s ++ [EvSbrk n])).
  { subst s1. unfold mem_sbrk. cbn [mem_brk mem_max_addr log].
    replace (mem_brk s + n <=? mem_max_addr s) with true by (symmetry; apply Z.leb_le; lia).
    reflexivity. }
  assert (Hmem : mem s4 = store (store (store (mem s) (hi - 4) n) (hi + n - 8) n) (hi + n - 4) 1).
  { subst s4. rewrite Hs1. reflexivity. }
  assert (Hbrk : mem_brk s4 = hi + n) by (subst s4; rewrite Hs1; reflexivity).
  assert (Hph : p_heap_list s4 = p_heap_list s) by (subst s4; rewrite Hs1; reflexivity).
  assert (Hmx : mem_max_addr s4 = mem_max_addr s) by (subst s4; rewrite Hs1; reflexivity).
  assert (Hhd : mp_firstfreeblock s4 = mp_firstfreeblock s) by (subst s4; rewrite Hs1; reflexivity).
  assert (Hct : m_freecount s4 = m_freecount s) by (subst s4; rewrite Hs1; reflexivity).
  assert (Hnone : M hi = None) by (apply (tiling_no_block_at_end _ _ _ T); subst hi; lia).
  split; [|split; [exact Hbrk | split; [exact Hph | split; [exact Hmx |]]]].
  - constructor.
    + constructor; rewrite ?Hbrk, ?Hph, ?Hmx, ?Hmem.
      * exact (lay_base _ _ L).
      * subst hi. lia.
      * split; ld.
      * ld.
      * apply tiling_extend; auto.
      * intros x sz a Hx. bcases.
        -- change (tag n false) with n. split; ld; apply wrap_small; subst hi; lia.
        -- saturate T. destruct (lay_tags _ _ L _ _ _ Hx) as [X1 X2].
           subst hi. split; ld.
    + apply flist_remap with (M := M).
      * apply flist_frame with (s := s); auto.
        intros f Hf. destruct (fl_free _ _ _ F f Hf) as [szf Hszf]. saturate T.
        rewrite Hmem. subst hi. split; ld.
      * intros f sz Hf Hm. rewrite bupd_other; auto. intros ->. congruence.
    + apply bupd_same.
    + intros X. destruct (fl_free _ _ _ F _ X) as [szf Hszf]. congruence.
    + intros x szx Hx Hne. rewrite bupd_other in Hx; auto. eapply Hls; eauto.
    + intros x szx szy Hx Hy.
      destruct (Z.eq_dec x hi) as [-> | N1]; [left; reflexivity|].
      destruct (Z.eq_dec (x + szx) hi) as [E1 | N2]; [right; exact E1|].
      rewrite bupd_other in Hx, Hy; auto.
      exfalso. exact (Hco _ _ _ Hx Hy).
  - intros x Hx. rewrite Hmem. rewrite !store_other by lia. reflexivity.
Qed.

Lemma extend_heap_eval (s : state) (M : bmap) (words n : Z) :
  layout s M -> extend_size words = n -> 16 <= n -> n mod 8 = 0 ->
  mem_brk s + n <= mem_max_addr s ->
  extend_heap s words =
  coalesce (PUT (PUT (PUT (snd (mem_sbrk s n)) (mem_brk s - 4) n)
                     (mem_brk s + n - 8) n) (mem_brk s + n - 4) 1) (mem_brk s).
Proof.
  intros L Hsz Hn Hn8 Hfit.
  destruct (lay_base _ _ L) as [B1 B2]. destruct (lay_brk _ _ L) as (B3 & B4 & B5).
  pose proof (layout_brk_aligned _ _ L) as H8.
  assert (Hs : mem_sbrk s n = (mem_brk s, snd (mem_sbrk s n))).
  { unfold mem_sbrk. cbn [mem_brk mem_max_addr log].
    replace (mem_brk s + n <=? mem_max_addr s) with true by (symmetry; apply Z.leb_le; lia).
    reflexivity. }
  unfold extend_heap. fold (extend_size words). rewrite Hsz, Hs.
  set (s1 := snd (mem_sbrk s n)).
  replace (mem_brk s =? MINUS1) with false
    by (symmetry; apply Z.eqb_neq; unfold MINUS1, WORD in *; lia).
  rewrite PACK_free. rewrite HDRP_small by lia.
  set (s2 := PUT s1 (mem_brk s - 4) n).
  assert (F2 : FTRP s2 (mem_brk s) = mem_brk s + n - 8).
  { rewrite (FTRP_raw _ _ n false); try lia.
    subst s2. st_simpl. ld. apply (wrap_tag n false); lia. }
  rewrite F2.
  set (s3 := PUT s2 (mem_brk s + n - 8) n).
  assert (N3 : NEXT_BLKP s3 (mem_brk s) = mem_brk s + n).
  { rewrite (NEXT_BLKP_raw _ _ n false); try lia.
    subst s3 s2. st_simpl. ld. apply (wrap_tag n false); lia. }
  rewrite N3. rewrite HDRP_small by lia.
  reflexivity.
Qed.

Theorem extend_heap_spec (s : state) (M : bmap) (fl : list Z) (words n : Z) :
  heap_rep s M fl -> extend_size words = n -> 16 <= n -> n mod 8 = 0 ->
  mem_brk s + n <= mem_max_addr s ->
  exists r s', extend_heap s words = (r, s') /\ r <> NULL /\
    exists M' fl' total,
      heap_rep s' M' (r :: fl') /\
      M' r = Some (total, false) /\ n <= total /\
      mem_brk s' = mem_brk s + n /\ p_heap_list s' = p_heap_list s /\
      mem_max_addr s' = mem_max_addr s /\
      keeps_allocated s s' M M'.
Proof.
  intros HR Hsz Hn Hn8 Hfit. pose proof (hr_layout _ _ _ HR) as L.
  pose proof (lay_tiling _ _ L) as T.
  rewrite (extend_heap_eval _ _ _ _ L Hsz Hn Hn8 Hfit).
  destruct (extend_heap_pending _ _ _ _ HR Hn Hn8 Hfit) as (P & Hbrk & Hph & Hmx & Fr).
  cbv zeta in P, Hbrk, Hph, Hmx, Fr.
  set (s4 := PUT (PUT (PUT (snd (mem_sbrk s n)) (mem_brk s - 4) n)
                      (mem_brk s + n - 8) n) (mem_brk s + n - 4) 1) in *.
  destruct (coalesce_spec _ _ _ _ _ P)
    as (r & s' & E & (M' & fl' & total & HR' & Hr & Htot & Hpa & (R1 & R2 & R3) & K1 & K2)).
  exists r, s'. split; [exact E|].
  pose proof (hr_layout _ _ _ HR') as L'.
  destruct (layout_block _ _ _ _ _ L' Hr) as (A & _).
  destruct (lay_base _ _ L') as [B1 B2].
  split; [unfold NULL; lia|].
  assert (Hnone : M (mem_brk s) = None).
  { apply (tiling_no_block_at_end _ _ _ T). lia. }
  exists M', fl', total.
  split; [exact HR'|]. split; [exact Hr|]. split; [exact Htot|].
  split; [congruence|]. split; [congruence|]. split; [congruence|].
  split.
  - intros x szx. rewrite <- K1. unfold bupd.
    destruct (Z.eqb_spec x (mem_brk s)) as [-> | N].
    + rewrite Hnone. split; discriminate.
    + tauto.
  - intros x szx y Hx Hy.
    assert (x <> mem_brk s) by (intros ->; congruence).
    rewrite (K2 x szx y); auto.
    + apply Fr. saturate T. lia.
    + rewrite bupd_other; auto.
Qed.

(** ** First fit *)

(** The free list as [find_fit] walks it: from [p] along the successor
    links until NULL. *)
Fixpoint succ_chain (s : state) (p : Z) (fl : list Z) : Prop :=
  match fl with
  | [] => p = NULL
  | x :: r => p = x /\ x <> NULL /\ succ_chain s (SUCC s x) r
  end.

(** The first block of [fl] whose stored size is at least [asize]. *)
Definition first_fit (s : state) (fl : list Z) (asize : Z) : Z :=
  match find (fun b => asize <=? GET_SIZE s (HDRP b)) fl with
  | Some b => b
  | None => NULL
  end.

Lemma find_fit_loop_spec (s : state) (asize : Z) (fl : list Z) :
  0 <= m_freecount s ->
  forall (p : Z) (fuel : nat),
    succ_chain s p fl ->
    (forall b, In b fl -> GET_ALLOC s (HDRP b) = 0) ->
    (length fl < fuel)%nat ->
    find_fit_loop fuel s asize p = Some (first_fit s fl asize).
Proof.
  intros Hc. induction fl as [|x r IH]; intros p fuel Hch Hfree Hfuel.
  - simpl in Hch. subst p. destruct fuel as [|fuel]; [simpl in Hfuel; lia|].
    simpl. replace (0 <=? m_freecount s) with true by (symmetry; apply Z.leb_le; lia).
    reflexivity.
  - simpl in Hch. destruct Hch as (-> & Hx & Hch).
    destruct fuel as [|fuel]; [simpl in Hfuel; lia|].
    simpl find_fit_loop.
    replace (0 <=? m_freecount s) with true by (symmetry; apply Z.leb_le; lia).
    replace (x =? NULL) with false by (symmetry; apply Z.eqb_neq; exact Hx).
    rewrite (Hfree x (or_introl eq_refl)). cbn [Z.eqb andb].
    unfold first_fit. cbn [find].
    destruct (asize <=? GET_SIZE s (HDRP x)) eqn:E; [reflexivity|].
    apply IH; auto.
    + intros b Hb. apply Hfree. right. exact Hb.
    + simpl in Hfuel. lia.
Qed.

Lemma first_fit_found (s : state) (fl : list Z) (asize b : Z) :
  first_fit s fl asize = b -> b <> NULL ->
  exists l1 l2, fl = l1 ++ b :: l2 /\ asize <= GET_SIZE s (HDRP b) /\
                forall x, In x l1 -> GET_SIZE s (HDRP x) < asize.
Proof.
  unfold first_fit. induction fl as [|x r IH]; intros H Hb.
  - simpl in H. congruence.
  - cbn [find] in H. destruct (asize <=? GET_SIZE s (HDRP x)) eqn:E.
    + subst x. exists [], r. split; [reflexivity|]. split; [apply Z.leb_le; exact E|].
      intros y [].
    + destruct (IH H Hb) as (l1 & l2 & E1 & E2 & E3).
      exists (x :: l1), l2. split; [rewrite E1; reflexivity|]. split; [exact E2|].
      intros y [<- | Hy]; [apply Z.leb_gt; exact E | apply E3; exact Hy].
Qed.

Lemma first_fit_none (s : state) (fl : list Z) (asize : Z) :
  (forall x, In x fl -> x <> NULL) ->
  first_fit s fl asize = NULL ->
  forall x, In x fl -> GET_SIZE s (HDRP x) < asize.
Proof.
  unfold first_fit. intros Hnz H x Hx.
  destruct (find _ fl) as [b|] eqn:E.
  - apply find_some in E. destruct E as [E1 _]. subst b. exfalso. exact (Hnz _ E1 eq_refl).
  - apply Z.leb_gt. exact (find_none _ _ E x Hx).
Qed.

Lemma dlseg_succ_chain (s : state) (fl : list Z) (p : Z) :
  (forall f, In f fl -> 0 < f /\ f + 8 < WORD) ->
  dlseg (mem s) p fl NULL -> succ_chain s (hd NULL fl) fl.
Proof.
  revert p. induction fl as [|x r IH]; intros p Hr H.
  - reflexivity.
  - simpl in H. destruct H as (H1 & H2 & H3). simpl.
    destruct (Hr x (or_introl eq_refl)) as [X0 X1].
    split; [reflexivity|]. split; [unfold NULL; lia|].
    unfold SUCC. rewrite SUC_PTR_small by lia. rewrite H2.
    apply IH with (p := x); auto.
    intros f Hf. apply Hr. right. exact Hf.
Qed.

Lemma flist_succ_chain (s : state) (M : bmap) (fl : list Z) :
  layout s M -> flist s M fl ->
  succ_chain s (mp_firstfreeblock s) fl /\
  (forall b, In b fl -> GET_ALLOC s (HDRP b) = 0) /\
  (forall b, In b fl -> b <> NULL) /\
  0 <= m_freecount s.
Proof.
  intros L F. split; [|split; [|split]].
  - rewrite (fl_head _ _ _ F).
    apply dlseg_succ_chain with (p := NULL); [|exact (fl_links _ _ _ F)].
    intros f Hf. destruct (flist_node_range _ _ _ _ L F Hf) as (A & B & _). auto.
  - intros b Hb. destruct (fl_free _ _ _ F b Hb) as [sz Hsz].
    apply (read_hdr_alloc _ _ L _ _ _ Hsz).
  - intros b Hb. destruct (flist_node_range _ _ _ _ L F Hb) as (A & _). unfold NULL. lia.
  - rewrite (fl_count _ _ _ F). lia.
Qed.

(** ** Allocation *)

Lemma adjust_size_ok (size : Z) :
  0 < size <= WORD - 16 ->
  16 <= adjust_size size /\ adjust_size size mod 8 = 0 /\
  size + 8 <= adjust_size size /\ adjust_size size < size + 16.
Proof.
  intros H. unfold adjust_size, DSIZE, OVERHEAD.
  destruct (Z.leb_spec size 8).
  - lia.
  - unfold wmul, wadd, wrap, WORD in *.
    rewrite (Z.mod_small (size + 8)) by lia.
    rewrite (Z.mod_small (size + 8 + (8 - 1))) by lia.
    rewrite Z.mod_small by lia. lia.
Qed.

(** [place] on a listed free block of a quiescent heap. *)
Lemma place_spec (s : state) (M : bmap) (l1 l2 : list Z) (bp csz asz : Z) :
  heap_rep s M (l1 ++ bp :: l2) -> M bp = Some (csz, false) ->
  16 <= asz -> asz mod 8 = 0 -> asz <= csz ->
  exists M' fl' bsz,
    heap_rep (place s bp asz) M' fl' /\
    M' bp = Some (bsz, true) /\ asz <= bsz < asz + 16 /\
    same_regs s (place s bp asz) /\
    prev_allocated M' bp /\
    (forall x szx, x <> bp -> (M x = Some (szx, true) <-> M' x = Some (szx, true))) /\
    (forall x szx y, M x = Some (szx, true) -> x <= y < x + szx - 8 ->
                     mem (place s bp asz) y = mem s y).
Proof.
  intros [L F Hls Hco] Hb Ha Ha8 Hle.
  pose proof (lay_tiling _ _ L) as T.
  pose proof (til_bounds _ _ _ T _ _ _ Hb) as Rb.
  assert (Hnd := fl_nodup _ _ _ F).
  assert (Hnb : ~ In bp (l1 ++ l2)) by (apply NoDup_remove_2; exact Hnd).
  assert (Hrest : forall x, In x (l1 ++ bp :: l2) -> x <> bp -> In x (l1 ++ l2)).
  { intros x X N. apply in_app_or in X. apply in_or_app.
    destruct X as [X | [X | X]]; auto. congruence. }
  assert (Hfr : forall x szx y, M x = Some (szx, true) -> x <= y < x + szx - 8 ->
                  (y < bp - 4 \/ bp + csz - 4 <= y) /\
                  (forall f, In f (l1 ++ l2) -> y < f \/ f + 8 <= y)).
  { intros x szx y Hx Hy.
    assert (x <> bp) by (intros ->; congruence).
    split; [saturate T; lia|].
    intros f Hf. apply (payload_off_list _ _ _ _ _ _ L F Hx Hy).
    apply in_app_or in Hf. apply in_or_app. destruct Hf; [left | right; right]; auto. }
  destruct (Z.le_gt_cases 16 (csz - asz)) as [Hsp | Hsp].
  - destruct (place_split _ _ _ _ _ _ _ L F Hb Ha Ha8 Hsp) as (L' & F' & R' & U').
    exists (split_map M bp csz asz), ((bp + asz) :: l1 ++ l2), asz.
    split; [|split; [|split; [lia | split; [exact R' | split; [|split]]]]].
    + constructor; auto.
      * intros x szx Hx. unfold split_map in Hx. bcases.
        -- left. reflexivity.
        -- right. apply Hrest; auto. eapply Hls; eauto.
      * intros x szx szy Hx Hy. unfold split_map in Hx, Hy. bcases; try lia.
        all: try (match goal with
                  | H1 : _ ?x = Some (?a, false), H2 : _ (?x + ?a) = Some _ |- _ =>
                      exact (Hco _ _ _ H1 H2)
                  end).
        all: try (saturate T; lia).
        match goal with
        | H : _ (?p + ?q + (?r - ?q)) = Some _ |- _ =>
            replace (p + q + (r - q)) with (p + r) in H by lia; exact (Hco _ _ _ Hb H)
        end.
    + unfold split_map. solve_block.
    + intros b' sz' Hb' Eb'. unfold split_map in Hb'. bcases; try lia.
      assert (X : M (b' + sz') = Some (csz, false)) by (rewrite Eb'; exact Hb).
      exact (Hco _ _ _ Hb' X).
    + intros x szx Hne. unfold split_map. split; intros Hx.
      * assert (x <> bp + asz) by (intros ->; saturate T; lia).
        solve_block.
      * bcases; try discriminate; try contradiction. exact Hx.
    + intros x szx y Hx Hy. destruct (Hfr _ _ _ Hx Hy) as [Y1 Y2].
      apply U'; auto.
  - destruct (place_whole _ _ _ _ _ _ _ L F Hb Hle Hsp) as (L' & F' & R' & U').
    exists (bupd M bp (Some (csz, true))), (l1 ++ l2), csz.
    split; [|split; [|split; [lia | split; [exact R' | split; [|split]]]]].
    + constructor; auto.
      * intros x szx Hx. bcases. apply Hrest; auto. eapply Hls; eauto.
      * intros x szx szy Hx Hy. bcases. exact (Hco _ _ _ Hx Hy).
    + apply bupd_same.
    + intros b' sz' Hb' Eb'. bcases.
      assert (X : M (b' + sz') = Some (csz, false)) by (rewrite Eb'; exact Hb).
      exact (Hco _ _ _ Hb' X).
    + intros x szx Hne. rewrite bupd_other; auto. tauto.
    + intros x szx y Hx Hy. destruct (Hfr _ _ _ Hx Hy) as [Y1 Y2].
      apply U'; auto.
Qed.

(** What a successful [mm_malloc] establishes. *)
Definition malloc_post (s : state) (M : bmap) (asize p : Z) (s' : state) : Prop :=
  exists M' fl' bsz,
    heap_rep s' M' fl' /\
    M' p = Some (bsz, true) /\ asize <= bsz < asize + 16 /\
    p_heap_list s' = p_heap_list s /\ mem_max_addr s' = mem_max_addr s /\
    mem_brk s <= mem_brk s' /\
    prev_allocated M' p /\
    (forall szx, M p <> Some (szx, true)) /\
    (forall x szx, x <> p -> (M x = Some (szx, true) <-> M' x = Some (szx, true))) /\
    (forall x szx y, M x = Some (szx, true) -> x <= y < x + szx - 8 ->
                     mem s' y = mem s y).

Lemma mm_malloc_eval (fuel : nat) (s : state) (M : bmap) (fl : list Z) (size : Z) :
  heap_rep s M fl -> 0 < size -> (length fl < fuel)%nat ->
  mm_malloc fuel s size =
  let asize := adjust_size size in
  let bp := first_fit s fl asize in
  if negb (bp =? NULL) then Some (bp, place s bp asize)
  else
    let (bp, s1) := extend_heap s (Z.max asize CHUNKSIZE / WSIZE) in
    if bp =? NULL then Some (NULL, s1) else Some (bp, place s1 bp asize).
Proof.
  intros [L F _ _] Hsz Hfuel. unfold mm_malloc.
  replace (size <=? 0) with false by (symmetry; apply Z.leb_gt; lia).
  destruct (flist_succ_chain _ _ _ L F) as (C1 & C2 & C3 & C4).
  unfold find_fit.
  rewrite (find_fit_loop_spec s (adjust_size size) fl C4 _ fuel C1 C2 Hfuel).
  reflexivity.
Qed.

Theorem mm_malloc_spec (fuel : nat) (s : state) (M : bmap) (fl : list Z) (size : Z) :
  heap_rep s M fl -> 0 < size <= WORD - 16 -> (length fl < fuel)%nat ->
  let asize := adjust_size size in
  let grow := Z.max asize CHUNKSIZE in
  exists p s', mm_malloc fuel s size = Some (p, s') /\
    ((p = NULL /\ first_fit s fl asize = NULL /\
      mem_max_addr s < mem_brk s + grow /\ s' = log s (EvSbrk grow)) \/
     (p <> NULL /\ malloc_post s M asize p s' /\
      (first_fit s fl asize <> NULL ->
         p = first_fit s fl asize /\ s' = place s p asize /\ mem_brk s' = mem_brk s) /\
      (first_fit s fl asize = NULL -> mem_brk s' = mem_brk s + grow))).
Proof.
  intros HR Hsz Hfuel asize grow.
  rewrite (mm_malloc_eval _ _ _ _ _ HR (proj1 Hsz) Hfuel). cbv zeta. fold asize.
  destruct (adjust_size_ok size Hsz) as (A1 & A2 & A3 & A4). fold asize in A1, A2, A3, A4.
  pose proof (hr_layout _ _ _ HR) as L. pose proof (hr_flist _ _ _ HR) as F.
  pose proof (lay_tiling _ _ L) as T.
  destruct (flist_succ_chain _ _ _ L F) as (C1 & C2 & C3 & C4).
  destruct (Z.eq_dec (first_fit s fl asize) NULL) as [Hnf | Hfit].
  - (* no fit: grow the heap *)
    rewrite Hnf. cbn [Z.eqb negb NULL].
    assert (Hgrow : 16 <= grow /\ grow mod 8 = 0 /\ asize <= grow /\ grow < WORD).
    { subst grow. unfold CHUNKSIZE, WORD in *. lia. }
    destruct Hgrow as (G1 & G2 & G3 & G4).
    assert (Hes : extend_size (grow / WSIZE) = grow).
    { apply extend_size_even; lia. }
    fold grow.
    destruct (Z.le_gt_cases (mem_brk s + grow) (mem_max_addr s)) as [Hroom | Hfull].
    + destruct (extend_heap_spec _ _ _ _ _ HR Hes G1 G2 Hroom)
        as (r & s1 & E & Hr & (M1 & fl1 & total & HR1 & Hr1 & Htot & Hbrk & Hph & Hmx & K1 & K2)).
      rewrite E. replace (r =? NULL) with false by (symmetry; apply Z.eqb_neq; exact Hr).
      exists r, (place s1 r asize). split; [reflexivity|]. right.
      split; [exact Hr|].
      assert (Hle : asize <= total) by lia.
      destruct (place_spec s1 M1 [] fl1 r total asize HR1 Hr1 A1 A2 Hle)
        as (M' & fl' & bsz & HR' & Hp' & Hb' & (R1 & R2 & R3) & Hpa & Q1 & Q2).
      split; [|split; [intros X; contradiction | intros _; congruence]].
      exists M', fl', bsz.
      split; [exact HR'|]. split; [exact Hp'|]. split; [exact Hb'|].
      split; [congruence|]. split; [congruence|]. split; [lia|].
      split; [exact Hpa|].
      split.
      { intros szx X. apply K1 in X. congruence. }
      split.
      { intros x szx Hne. rewrite K1. apply Q1. exact Hne. }
      intros x szx y Hx Hy. rewrite Q2 with (x := x) (szx := szx); auto.
      * apply (K2 _ _ _ Hx Hy).
      * apply K1. exact Hx.
    + rewrite (extend_heap_fail s (grow / WSIZE)) by (rewrite Hes; lia).
      rewrite Hes. cbn [Z.eqb NULL].
      exists NULL, (log s (EvSbrk grow)). split; [reflexivity|]. left. auto.
  - (* a fit *)
    replace (first_fit s fl asize =? NULL) with false by (symmetry; apply Z.eqb_neq; exact Hfit).
    cbn [negb].
    set (bp := first_fit s fl asize) in *.
    destruct (first_fit_found s fl asize bp eq_refl Hfit) as (l1 & l2 & Efl & Hge & _).
    assert (Hin : In bp fl) by (rewrite Efl; apply in_elt).
    destruct (fl_free _ _ _ F bp Hin) as [csz Hb].
    rewrite (read_hdr_size _ _ L _ _ _ Hb) in Hge.
    rewrite Efl in HR.
    destruct (place_spec s M l1 l2 bp csz asize HR Hb A1 A2 Hge)
      as (M' & fl' & bsz & HR' & Hp' & Hb' & (R1 & R2 & R3) & Hpa & Q1 & Q2).
    exists bp, (place s bp asize). split; [reflexivity|]. right.
    split; [exact Hfit|].
    split; [|split; [intros _; auto | intros X; contradiction]].
    exists M', fl', bsz.
    split; [exact HR'|]. split; [exact Hp'|]. split; [exact Hb'|].
    split; [exact R3|]. split; [exact R2|]. split; [lia|].
    split; [exact Hpa|].
    split; [intros szx X; congruence|].
    split; [exact Q1 | exact Q2].
Qed.

(** ** Initialisation *)

Definition empty_map : bmap := fun _ => None.

Lemma coalesce_alone (s : state) (M : bmap) (bp sz : Z) :
  layout s M -> M bp = Some (sz, false) ->
  prev_allocated M bp -> next_allocated M (bp + sz) ->
  coalesce s bp = (bp, free_block s bp).
Proof.
  intros L Hb Hp Hn. unfold coalesce.
  destruct (prev_view _ _ _ _ _ L Hb) as [[E1 _] | (b' & sz' & E1 & Hb' & Eb & _)].
  - destruct (next_view _ _ _ _ _ L Hb) as [[E2 _] | (nsz & E2 & Hnx)].
    + rewrite E1, E2. reflexivity.
    + exfalso. exact (Hn _ Hnx).
  - exfalso. exact (Hp _ _ Hb' Eb).
Qed.

(** [free_block] treats a head equal to [p_heap_list] like NULL. *)
Lemma free_block_first (s : state) (b : Z) :
  mp_firstfreeblock s = p_heap_list s ->
  free_block s b = free_block (set_firstfree s NULL) b.
Proof.
  intros H. unfold free_block.
  cbn [mp_firstfreeblock p_heap_list set_freecount log set_firstfree].
  rewrite H, Z.eqb_refl. cbn [orb NULL Z.eqb]. rewrite orb_true_r. reflexivity.
Qed.

(** The heap right after the prologue and the epilogue are written. *)
Lemma init_empty_heap (m : memory) (base limit : Z) :
  0 < base -> base mod 8 = 0 -> base + 16 <= limit -> limit < WORD ->
  let s0 := mkState (store (store (store (store m base 0) (base + 4) 9)
                                   (base + 8) 9) (base + 12) 1)
                    (base + 16) limit (base + 8) NULL 0 [EvSbrk 16; EvPut base 0;
                       EvPut (base + 4) 9; EvPut (base + 8) 9; EvPut (base + 12) 1] in
  heap_rep s0 empty_map [].
Proof.
  intros H0 H8 Hl Hw s0. constructor.
  - constructor; cbn [mem mem_brk mem_max_addr p_heap_list s0].
    + lia.
    + lia.
    + replace (base + 8 - 4) with (base + 4) by lia. split; ld.
    + replace (base + 16 - 4) with (base + 12) by lia. ld.
    + constructor; try discriminate; left; lia.
    + discriminate.
  - constructor; cbn [mem mp_firstfreeblock m_freecount s0]; try reflexivity.
    + constructor.
    + intros f [].
  - discriminate.
  - discriminate.
Qed.

Lemma mem_sbrk_set_firstfree (s : state) (p n : Z) :
  mem_sbrk (set_firstfree s p) n =
  (fst (mem_sbrk s n), set_firstfree (snd (mem_sbrk s n)) p).
Proof.
  unfold mem_sbrk. cbn [mem_brk mem_max_addr log set_firstfree].
  destruct (mem_brk s + n <=? mem_max_addr s); reflexivity.
Qed.

Lemma layout_set_firstfree (s : state) (M : bmap) (p : Z) :
  layout (set_firstfree s p) M -> layout s M.
Proof.
  intros L. apply layout_frame with (s := set_firstfree s p); auto.
  repeat split.
Qed.

Definition initial_map (base : Z) : bmap :=
  bupd empty_map (base + 16) (Some (CHUNKSIZE, false)).

(** [mm_init] on a fresh provider with room for the first chunk. *)
Theorem mm_init_spec (m : memory) (base limit : Z) :
  0 < base -> base mod 8 = 0 -> base + 16 + CHUNKSIZE <= limit -> limit < WORD ->
  exists s', mm_init (fresh m base limit) = (0, s') /\
             heap_rep s' (initial_map base) [base + 16] /\
             p_heap_list s' = base + 8 /\ mem_brk s' = base + 16 + CHUNKSIZE /\
             mem_max_addr s' = limit.
Proof.
  intros H0 H8 Hl Hw. unfold CHUNKSIZE in *.
  pose proof (init_empty_heap m base limit H0 H8 ltac:(lia) Hw) as HR0.
  cbv zeta in HR0.
  set (s0 := mkState (store (store (store (store m base 0) (base + 4) 9)
                                   (base + 8) 9) (base + 12) 1)
                    (base + 16) limit (base + 8) NULL 0 [EvSbrk 16; EvPut base 0;
                       EvPut (base + 4) 9; EvPut (base + 8) 9; EvPut (base + 12) 1]) in *.
  set (sA := set_firstfree s0 (base + 8)).
  assert (HsA : set_firstfree sA NULL = s0) by reflexivity.
  assert (Einit : mm_init (fresh m base limit) =
                  let (r, s) := extend_heap sA (CHUNKSIZE / WSIZE) in
                  if r =? NULL then (-1, s)
                  else (0, set_PREV (set_SUCC s (wadd (mp_firstfreeblock s) WSIZE) NULL)
                                    (wadd (mp_firstfreeblock s) WSIZE) NULL)).
  { unfold mm_init, mem_sbrk, fresh, WSIZE, DSIZE, OVERHEAD.
    cbn [mem_brk mem_max_addr log mem p_heap_list mp_firstfreeblock m_freecount trace
         set_p_heap_list].
    replace (base + 4 * 4 <=? limit) with true by (symmetry; apply Z.leb_le; lia).
    replace (base =? NULL) with false by (symmetry; apply Z.eqb_neq; unfold NULL; lia).
    rewrite !(wadd_small base) by (unfold WORD in *; lia).
    rewrite wadd_small by (unfold WORD in *; lia).
    replace (base + 4 + 8) with (base + 12) by lia.
    replace (base + 4 * 4) with (base + 16) by lia.
    reflexivity. }
  rewrite Einit. clear Einit.
  pose proof (hr_layout _ _ _ HR0) as L0.
  assert (LA : layout sA empty_map) by (apply layout_set_firstfree with (p := NULL); exact L0).
  assert (Hes : extend_size (CHUNKSIZE / WSIZE) = 4096) by reflexivity.
  assert (Hroom : mem_brk s0 + 4096 <= mem_max_addr s0) by (cbn; lia).
  assert (H48 : 4096 mod 8 = 0) by reflexivity.
  rewrite (extend_heap_eval sA empty_map _ 4096 LA Hes ltac:(lia) H48 Hroom).
  destruct (extend_heap_pending s0 empty_map [] 4096 HR0 ltac:(lia) H48 Hroom)
    as (P & Hbrk & Hph & Hmx & Fr).
  cbv zeta in P, Hbrk, Hph, Hmx, Fr.
  change (mem_brk sA) with (base + 16). change (mem_brk s0) with (base + 16) in *.
  set (sA4 := PUT (PUT (PUT (snd (mem_sbrk sA 4096)) (base + 16 - 4) 4096)
                       (base + 16 + 4096 - 8) 4096) (base + 16 + 4096 - 4) 1).
  set (s04 := PUT (PUT (PUT (snd (mem_sbrk s0 4096)) (base + 16 - 4) 4096)
                       (base + 16 + 4096 - 8) 4096) (base + 16 + 4096 - 4) 1) in *.
  assert (E4 : s04 = set_firstfree sA4 NULL).
  { subst s04 sA4. rewrite <- HsA at 1. rewrite mem_sbrk_set_firstfree. reflexivity. }
  set (M1 := bupd empty_map (base + 16) (Some (4096, false))) in *.
  assert (LA4 : layout sA4 M1).
  { apply layout_set_firstfree with (p := NULL). rewrite <- E4. exact (pd_layout _ _ _ _ _ P). }
  assert (Hpa : prev_allocated M1 (base + 16)).
  { intros b' sz' Hb' Eb'. unfold M1 in Hb'. bcases; [lia | discriminate]. }
  assert (Hna : next_allocated M1 (base + 16 + 4096)).
  { intros sz' Hb'. unfold M1 in Hb'. bcases; [lia | discriminate]. }
  rewrite (coalesce_alone sA4 M1 (base + 16) 4096 LA4 (pd_block _ _ _ _ _ P) Hpa Hna).
  replace (base + 16 =? NULL) with false by (symmetry; apply Z.eqb_neq; unfold NULL; lia).
  assert (HheadA : mp_firstfreeblock sA4 = p_heap_list sA4).
  { subst sA4. unfold mem_sbrk. cbn [mem_brk mem_max_addr log].
    destruct (_ <=? _); reflexivity. }
  rewrite (free_block_first sA4 (base + 16) HheadA). rewrite <- E4.
  destruct (coalesce_case1 _ _ _ _ _ P Hpa Hna) as (HRE & (R1 & R2 & R3) & _).
  set (sE := free_block s04 (base + 16)) in *.
  pose proof (hr_layout _ _ _ HRE) as LE. pose proof (hr_flist _ _ _ HRE) as FE.
  pose proof (fl_head _ _ _ FE) as HhE. cbn [hd] in HhE.
  rewrite HhE. unfold WSIZE. rewrite wadd_small by (unfold WORD in *; lia).
  eexists. split; [reflexivity|].
  assert (Hsuc : SUC_PTR (base + 16 + 4) = base + 24).
  { rewrite SUC_PTR_small by (unfold WORD in *; lia). lia. }
  set (sF := set_PREV (set_SUCC sE (base + 16 + 4) NULL) (base + 16 + 4) NULL).
  assert (HmF : mem sF = store (store (mem sE) (base + 24) 0) (base + 20) 0).
  { subst sF. cbn [mem set_PREV set_SUCC with_mem]. rewrite Hsuc.
    replace (base + 16 + 4) with (base + 20) by lia. reflexivity. }
  assert (HM1 : M1 (base + 16) = Some (4096, false)) by apply bupd_same.
  split; [|split; [|split]].
  - constructor.
    + apply layout_frame with (s := sE); [exact LE | repeat split |].
      intros q Hq [Hc | [Hc | [Hc | (b & sz & a & Hb & Hc)]]]; rewrite HmF.
      * rewrite Hc, R3, Hph. cbn [p_heap_list s0]. ld.
      * rewrite Hc, R3, Hph. cbn [p_heap_list s0]. ld.
      * rewrite Hc, R1, Hbrk. ld.
      * unfold initial_map, CHUNKSIZE in Hb. bcases; [|discriminate].
        destruct Hc as [-> | ->]; ld.
    + constructor.
      * rewrite HmF. pose proof (fl_links _ _ _ FE) as X. cbn [dlseg hd] in X |- *.
        destruct X as (X1 & X2 & _). split; [ld|].
        replace (base + 16 + 4) with (base + 20) by lia. split; [ld | exact I].
      * exact HhE.
      * exact (fl_count _ _ _ FE).
      * exact (fl_nodup _ _ _ FE).
      * exact (fl_free _ _ _ FE).
    + exact (hr_listed _ _ _ HRE).
    + exact (hr_coalesced _ _ _ HRE).
  - change (p_heap_list sF) with (p_heap_list sE). rewrite R3, Hph. reflexivity.
  - change (mem_brk sF) with (mem_brk sE). rewrite R1, Hbrk. lia.
  - change (mem_max_addr sF) with (mem_max_addr sE). rewrite R2, Hmx. reflexivity.
Qed.

(** * The claims *)

(** ** A concrete heap

    The provider of the lab: a region of 20 MB starting at the address
    shown in the source comments, all bytes zero. *)
Definition lab_base : Z := 4137746440.          (* 0xf6a10008 *)
Definition lab_limit : Z := lab_base + 20971520.

Definition lab_heap : state := snd (mm_init (fresh (fun _ => 0) lab_base lab_limit)).

Lemma lab_heap_rep :
  heap_rep lab_heap (initial_map lab_base) [lab_base + 16] /\
  p_heap_list lab_heap = lab_base + 8 /\
  mem_brk lab_heap = lab_base + 16 + CHUNKSIZE /\
  mem_max_addr lab_heap = lab_limit.
Proof.
  assert (H1 : 0 < lab_base) by reflexivity.
  assert (H2 : lab_base mod 8 = 0) by reflexivity.
  assert (H3 : lab_base + 16 + CHUNKSIZE <= lab_limit) by (vm_compute; discriminate).
  assert (H4 : lab_limit < WORD) by reflexivity.
  destruct (mm_init_spec (fun _ => 0) lab_base lab_limit H1 H2 H3 H4) as (s' & E & H).
  unfold lab_heap. rewrite E. exact H.
Qed.

(** ** Clients

    A client is a sequence of calls; [run] returns the addresses the
    [mm_malloc] calls returned, in call order, and the final state
    ([None]: a [find_fit] ran out of fuel). *)
Inductive call :=
| Malloc (size : Z)
| Free (p : Z)
| Store (a v : Z).

Fixpoint run (fuel : nat) (cs : list call) (s : state) : option (list Z * state) :=
  match cs with
  | [] => Some ([], s)
  | Malloc size :: cs =>
      match mm_malloc fuel s size with
      | Some (p, s') =>
          match run fuel cs s' with
          | Some (ps, s'') => Some (p :: ps, s'')
          | None => None
          end
      | None => None
      end
  | Free p :: cs => run fuel cs (mm_free s p)
  | Store a v :: cs => run fuel cs (client_store s a v)
  end.

Definition is_some {A : Type} (o : option A) : bool :=
  match o with
  | Some _ => true
  | None => false
  end.

Definition ptrs_of (o : option (list Z * state)) : list Z :=
  match o with
  | Some (ps, _) => ps
  | None => []
  end.

Definition state_of (o : option (list Z * state)) (dflt : state) : state :=
  match o with
  | Some (_, s) => s
  | None => dflt
  end.

Lemma run_some (o : option (list Z * state)) (dflt : state) :
  is_some o = true -> o = Some (ptrs_of o, state_of o dflt).
Proof. destruct o as [[ps s]|]; [reflexivity | discriminate]. Qed.

(** ** C7: a failed growth leaves the heap alone *)

(** The provider refuses to grow the heap by [n] bytes. *)
Definition grow_fails (s : state) (n : Z) : Prop := mem_max_addr s < mem_brk s + n.

(** C7.  When [find_fit] finds nothing and the provider refuses the
    growth request, [mm_malloc] returns NULL and no byte of memory, no
    free-list link, neither the list head nor the counter nor a heap
    bound is modified; the only thing recorded is the refused provider
    call. *)
Theorem C7_failed_growth_no_side_effect (fuel : nat) (s : state) (size : Z) :
  0 < size ->
  find_fit fuel s (adjust_size size) = Some NULL ->
  grow_fails s (extend_size (Z.max (adjust_size size) CHUNKSIZE / WSIZE)) ->
  exists s',
    mm_malloc fuel s size = Some (NULL, s') /\
    mem s' = mem s /\
    mem_brk s' = mem_brk s /\ mem_max_addr s' = mem_max_addr s /\
    p_heap_list s' = p_heap_list s /\
    mp_firstfreeblock s' = mp_firstfreeblock s /\
    m_freecount s' = m_freecount s /\
    trace s' = trace s ++ [EvSbrk (extend_size (Z.max (adjust_size size) CHUNKSIZE / WSIZE))].
Proof.
  intros Hsz Hff Hfail. unfold grow_fails in Hfail.
  exists (log s (EvSbrk (extend_size (Z.max (adjust_size size) CHUNKSIZE / WSIZE)))).
  split; [|repeat split].
  unfold mm_malloc.
  replace (size <=? 0) with false by (symmetry; apply Z.leb_gt; lia).
  rewrite Hff. cbn [Z.eqb NULL negb].
  rewrite extend_heap_fail by exact Hfail. reflexivity.
Qed.

(** A heap with no room left behind the first chunk. *)
Definition full_heap : state :=
  snd (mm_init (fresh (fun _ => 0) lab_base (lab_base + 16 + CHUNKSIZE))).

Lemma C7_witness :
  0 < 5000 /\
  find_fit 2 full_heap (adjust_size 5000) = Some NULL /\
  grow_fails full_heap (extend_size (Z.max (adjust_size 5000) CHUNKSIZE / WSIZE)) /\
  exists s',
    mm_malloc 2 full_heap 5000 = Some (NULL, s') /\
    mem s' = mem full_heap /\
    mem_brk s' = mem_brk full_heap /\ mem_max_addr s' = mem_max_addr full_heap /\
    p_heap_list s' = p_heap_list full_heap /\
    mp_firstfreeblock s' = mp_firstfreeblock full_heap /\
    m_freecount s' = m_freecount full_heap /\
    trace s' = trace full_heap ++
               [EvSbrk (extend_size (Z.max (adjust_size 5000) CHUNKSIZE / WSIZE))].
Proof.
  assert (H1 : 0 < 5000) by lia.
  assert (H2 : find_fit 2 full_heap (adjust_size 5000) = Some NULL) by (vm_compute; reflexivity).
  assert (H3 : grow_fails full_heap (extend_size (Z.max (adjust_size 5000) CHUNKSIZE / WSIZE)))
    by (vm_compute; reflexivity).
  split; [exact H1|]. split; [exact H2|]. split; [exact H3|].
  exact (C7_failed_growth_no_side_effect 2 full_heap 5000 H1 H2 H3).
Defined.

(** ** C2: first fit over the free list *)

(** C2.  [find_fit] walks the free list from its head along the successor
    links and returns the first block whose stored size is at least the
    requested size, or NULL when no listed block is large enough.  The
    list [fl] is the list in link order: new blocks are pushed at its head
    by [free_block], so the most recently freed block is tried first. *)
Theorem C2_find_fit_first_fit (fuel : nat) (s : state) (fl : list Z) (asize : Z) :
  succ_chain s (mp_firstfreeblock s) fl ->
  (forall b, In b fl -> GET_ALLOC s (HDRP b) = 0) ->
  0 <= m_freecount s ->
  (length fl < fuel)%nat ->
  exists r,
    find_fit fuel s asize = Some r /\
    ((r = NULL /\ forall x, In x fl -> GET_SIZE s (HDRP x) < asize) \/
     (exists l1 l2, fl = l1 ++ r :: l2 /\
                    asize <= GET_SIZE s (HDRP r) /\
                    forall x, In x l1 -> GET_SIZE s (HDRP x) < asize)).
Proof.
  intros Hch Hfree Hc Hfuel.
  exists (first_fit s fl asize). split.
  - unfold find_fit. apply find_fit_loop_spec; assumption.
  - assert (Hnz : forall x, In x fl -> x <> NULL).
    { clear Hfree Hfuel. revert Hch. generalize (mp_firstfreeblock s).
      induction fl as [|y r IH]; intros p Hch x Hx; [contradiction|].
      simpl in Hch. destruct Hch as (_ & Hy & Hch).
      destruct Hx as [<- | Hx]; [exact Hy | eapply IH; eauto]. }
    destruct (Z.eq_dec (first_fit s fl asize) NULL) as [E | N].
    + left. split; [exact E|]. apply first_fit_none; assumption.
    + right. apply first_fit_found; [reflexivity | exact N].
Qed.

(** A fragmented heap: six blocks are allocated, then the third, the
    fifth and the first are freed.  The free list in link order is the
    first block (48 bytes), the fifth (208), the third (112) and the rest
    of the chunk (3632). *)
Definition frag_calls : list call :=
  [Malloc 40; Malloc 24; Malloc 100; Malloc 24; Malloc 200; Malloc 24;
   Free (lab_base + 96); Free (lab_base + 240); Free (lab_base + 16)].

Definition frag_heap : state := state_of (run 8 frag_calls lab_heap) lab_heap.

Definition frag_list : list Z :=
  [lab_base + 16; lab_base + 240; lab_base + 96; lab_base + 480].

Lemma frag_heap_run :
  run 8 frag_calls lab_heap =
    Some ([lab_base + 16; lab_base + 64; lab_base + 96; lab_base + 208;
           lab_base + 240; lab_base + 448], frag_heap).
Proof.
  assert (H : is_some (run 8 frag_calls lab_heap) = true) by (vm_compute; reflexivity).
  assert (P : ptrs_of (run 8 frag_calls lab_heap) =
              [lab_base + 16; lab_base + 64; lab_base + 96; lab_base + 208;
               lab_base + 240; lab_base + 448]) by (vm_compute; reflexivity).
  pose proof (run_some _ lab_heap H) as X. rewrite P in X.
  unfold frag_heap. exact X.
Qed.

Lemma frag_heap_list :
  succ_chain frag_heap (mp_firstfreeblock frag_heap) frag_list /\
  (forall b, In b frag_list -> GET_ALLOC frag_heap (HDRP b) = 0) /\
  map (fun b => GET_SIZE frag_heap (HDRP b)) frag_list = [48; 208; 112; 3632] /\
  m_freecount frag_heap = 4.
Proof.
  split; [|split; [|split]].
  - unfold frag_list. cbn [succ_chain].
    repeat split; try (vm_compute; reflexivity); vm_compute; discriminate.
  - intros b [<- | [<- | [<- | [<- | []]]]]; vm_compute; reflexivity.
  - vm_compute. reflexivity.
  - vm_compute. reflexivity.
Qed.

Lemma C2_witness :
  succ_chain frag_heap (mp_firstfreeblock frag_heap) frag_list /\
  (forall b, In b frag_list -> GET_ALLOC frag_heap (HDRP b) = 0) /\
  0 <= m_freecount frag_heap /\
  (length frag_list < 8)%nat /\
  (exists r,
     find_fit 8 frag_heap 112 = Some r /\
     ((r = NULL /\ forall x, In x frag_list -> GET_SIZE frag_heap (HDRP x) < 112) \/
      (exists l1 l2, frag_list = l1 ++ r :: l2 /\
                     112 <= GET_SIZE frag_heap (HDRP r) /\
                     forall x, In x l1 -> GET_SIZE frag_heap (HDRP x) < 112))) /\
  (exists r,
     find_fit 8 frag_heap 3000 = Some r /\
     ((r = NULL /\ forall x, In x frag_list -> GET_SIZE frag_heap (HDRP x) < 3000) \/
      (exists l1 l2, frag_list = l1 ++ r :: l2 /\
                     3000 <= GET_SIZE frag_heap (HDRP r) /\
                     forall x, In x l1 -> GET_SIZE frag_heap (HDRP x) < 3000))) /\
  (exists r,
     find_fit 8 frag_heap 4000 = Some r /\
     ((r = NULL /\ forall x, In x frag_list -> GET_SIZE frag_heap (HDRP x) < 4000) \/
      (exists l1 l2, frag_list = l1 ++ r :: l2 /\
                     4000 <= GET_SIZE frag_heap (HDRP r) /\
                     forall x, In x l1 -> GET_SIZE frag_heap (HDRP x) < 4000))).
Proof.
  destruct frag_heap_list as (H1 & H2 & _ & Hc).
  assert (H3 : 0 <= m_freecount frag_heap) by (rewrite Hc; lia).
  assert (H4 : (length frag_list < 8)%nat) by (unfold frag_list; cbn [length]; lia).
  split; [exact H1|]. split; [exact H2|]. split; [exact H3|]. split; [exact H4|].
  split; [|split].
  - exact (C2_find_fit_first_fit 8 frag_heap frag_list 112 H1 H2 H3 H4).
  - exact (C2_find_fit_first_fit 8 frag_heap frag_list 3000 H1 H2 H3 H4).
  - exact (C2_find_fit_first_fit 8 frag_heap frag_list 4000 H1 H2 H3 H4).
Defined.

(** On the fragmented heap [find_fit] follows the links: for 112 bytes it
    skips the head and returns the second block of the list, for 3000
    bytes it returns the fourth, for 4000 bytes NULL.  The [find_fit] of
    the first draft (mm_old.c), started on the same list head and
    counter, steps through the heap in address order instead and returns
    for 112 bytes the block at [lab_base + 96], which in link order comes
    after the block at [lab_base + 240]: of that function C2 does not
    hold. *)
Lemma C2_counterexample :
  succ_chain frag_heap (mp_firstfreeblock frag_heap) frag_list /\
  map (fun b => GET_SIZE frag_heap (HDRP b)) frag_list = [48; 208; 112; 3632] /\
  find_fit 8 frag_heap 112 = Some (lab_base + 240) /\
  find_fit 8 frag_heap 3000 = Some (lab_base + 480) /\
  find_fit 8 frag_heap 4000 = Some NULL /\
  old_find_fit frag_heap (mp_firstfreeblock frag_heap) (m_freecount frag_heap) 112 =
    lab_base + 96 /\
  lab_base + 96 <> lab_base + 240.
Proof.
  destruct frag_heap_list as (H1 & _ & H2 & _).
  split; [exact H1|]. split; [exact H2|].
  split; [vm_compute; reflexivity|]. split; [vm_compute; reflexivity|].
  split; [vm_compute; reflexivity|]. split; [vm_compute; reflexivity|].
  lia.
Qed.

(** ** Placement and splitting, for adjusted sizes in range *)

(** X31.  [place] on a listed free block [bp] of size [csz] with an adjusted
    request [asz] that is at least 16, a multiple of 8 and at most [csz]
    takes [bp] off the free list; when the leftover [csz - asz] is at
    least 16 bytes it tags the first [asz] bytes allocated in header and
    footer, tags the leftover as a free block in header and footer and
    pushes it on the free list; otherwise it tags the whole block
    allocated at its size [csz] and does not split. *)
Theorem place_split_or_whole (s : state) (M : bmap) (l1 l2 : list Z) (bp csz asz : Z) :
  layout s M -> flist s M (l1 ++ bp :: l2) -> M bp = Some (csz, false) ->
  16 <= asz -> asz mod 8 = 0 -> asz <= csz ->
  let s' := place s bp asz in
  if DSIZE + OVERHEAD <=? csz - asz then
    let rest := bp + asz in
    let M' := split_map M bp csz asz in
    layout s' M' /\ flist s' M' (rest :: l1 ++ l2) /\
    ~ In bp (rest :: l1 ++ l2) /\
    GET s' (HDRP bp) = PACK asz 1 /\ GET s' (FTRP s' bp) = PACK asz 1 /\
    NEXT_BLKP s' bp = rest /\
    GET s' (HDRP rest) = PACK (csz - asz) 0 /\
    GET s' (FTRP s' rest) = PACK (csz - asz) 0 /\
    mp_firstfreeblock s' = rest
  else
    let M' := bupd M bp (Some (csz, true)) in
    layout s' M' /\ flist s' M' (l1 ++ l2) /\
    ~ In bp (l1 ++ l2) /\
    GET s' (HDRP bp) = PACK csz 1 /\ GET s' (FTRP s' bp) = PACK csz 1.
Proof.
  intros L F Hb Ha Ha8 Hle s'.
  pose proof (lay_tiling _ _ L) as T.
  destruct (layout_block _ _ _ _ _ L Hb) as (A & B & C & D & E & G & I & _).
  assert (Hnb : ~ In bp (l1 ++ l2)).
  { apply NoDup_remove_2. exact (fl_nodup _ _ _ F). }
  destruct (Z.le_gt_cases 16 (csz - asz)) as [Hsp | Hsp].
  - replace (DSIZE + OVERHEAD <=? csz - asz) with true
      by (symmetry; apply Z.leb_le; unfold DSIZE, OVERHEAD; lia).
    cbv iota zeta.
    destruct (place_split _ _ _ _ _ _ _ L F Hb Ha Ha8 Hsp) as (L' & F' & R' & U').
    fold s' in L', F'.
    assert (H1 : split_map M bp csz asz bp = Some (asz, true))
      by (unfold split_map; solve_block).
    assert (H2 : split_map M bp csz asz (bp + asz) = Some (csz - asz, false))
      by (unfold split_map; solve_block).
    destruct (lay_tags _ _ L' _ _ _ H1) as [X1 X2].
    destruct (lay_tags _ _ L' _ _ _ H2) as [Y1 Y2].
    split; [exact L'|]. split; [exact F'|].
    split.
    { intros [X | X]; [lia | contradiction]. }
    rewrite (read_FTRP _ _ L' _ _ _ H1), (read_FTRP _ _ L' _ _ _ H2).
    rewrite (read_NEXT_BLKP _ _ L' _ _ _ H1).
    rewrite !HDRP_small by lia.
    rewrite PACK_alloc by exact Ha8. rewrite PACK_free.
    unfold GET. repeat split; auto.
    exact (fl_head _ _ _ F').
  - replace (DSIZE + OVERHEAD <=? csz - asz) with false
      by (symmetry; apply Z.leb_gt; unfold DSIZE, OVERHEAD; lia).
    cbv iota zeta.
    destruct (place_whole _ _ _ _ _ _ _ L F Hb Hle Hsp) as (L' & F' & R' & U').
    fold s' in L', F'.
    assert (H1 : bupd M bp (Some (csz, true)) bp = Some (csz, true)) by apply bupd_same.
    destruct (lay_tags _ _ L' _ _ _ H1) as [X1 X2].
    split; [exact L'|]. split; [exact F'|]. split; [exact Hnb|].
    rewrite (read_FTRP _ _ L' _ _ _ H1).
    rewrite HDRP_small by lia. rewrite PACK_alloc by exact D.
    unfold GET. split; assumption.
Qed.

Lemma place_split_or_whole_witness :
  layout lab_heap (initial_map lab_base) /\
  flist lab_heap (initial_map lab_base) ([] ++ (lab_base + 16) :: []) /\
  initial_map lab_base (lab_base + 16) = Some (4096, false) /\
  16 <= 112 /\ 112 mod 8 = 0 /\ 112 <= 4096 /\
  let s' := place lab_heap (lab_base + 16) 112 in
  if DSIZE + OVERHEAD <=? 4096 - 112 then
    let rest := lab_base + 16 + 112 in
    let M' := split_map (initial_map lab_base) (lab_base + 16) 4096 112 in
    layout s' M' /\ flist s' M' (rest :: [] ++ []) /\
    ~ In (lab_base + 16) (rest :: [] ++ []) /\
    GET s' (HDRP (lab_base + 16)) = PACK 112 1 /\
    GET s' (FTRP s' (lab_base + 16)) = PACK 112 1 /\
    NEXT_BLKP s' (lab_base + 16) = rest /\
    GET s' (HDRP rest) = PACK (4096 - 112) 0 /\
    GET s' (FTRP s' rest) = PACK (4096 - 112) 0 /\
    mp_firstfreeblock s' = rest
  else
    let M' := bupd (initial_map lab_base) (lab_base + 16) (Some (4096, true)) in
    layout s' M' /\ flist s' M' ([] ++ []) /\
    ~ In (lab_base + 16) ([] ++ []) /\
    GET s' (HDRP (lab_base + 16)) = PACK 4096 1 /\
    GET s' (FTRP s' (lab_base + 16)) = PACK 4096 1.
Proof.
  destruct lab_heap_rep as ([L F _ _] & _).
  assert (H3 : initial_map lab_base (lab_base + 16) = Some (4096, false)) by reflexivity.
  assert (H4 : 16 <= 112) by lia.
  assert (H5 : 112 mod 8 = 0) by reflexivity.
  assert (H6 : 112 <= 4096) by lia.
  split; [exact L|]. split; [exact F|]. split; [exact H3|].
  split; [exact H4|]. split; [exact H5|]. split; [exact H6|].
  exact (place_split_or_whole lab_heap (initial_map lab_base) [] []
           (lab_base + 16) 4096 112 L F H3 H4 H5 H6).
Defined.

(** * Further properties of the allocator *)

(** ** Sample heaps *)

(** The lab heap after [mm_malloc(100)]: one allocated block of 112 bytes
    at [lab_base + 16], followed by one free block. *)
Definition lab_one : state := place lab_heap (lab_base + 16) 112.

Definition lab_one_map : bmap := split_map (initial_map lab_base) (lab_base + 16) 4096 112.

Lemma lab_one_rep : heap_rep lab_one lab_one_map [lab_base + 16 + 112].
Proof.
  destruct lab_heap_rep as ([L F Hl Hc] & _).
  assert (Hb : initial_map lab_base (lab_base + 16) = Some (4096, false)) by reflexivity.
  assert (H1 : 16 <= 112) by lia.
  assert (H2 : 112 mod 8 = 0) by reflexivity.
  assert (H3 : 16 <= 4096 - 112) by lia.
  destruct (place_split lab_heap (initial_map lab_base) [] [] (lab_base + 16) 4096 112
              L F Hb H1 H2 H3) as (L' & F' & _).
  constructor.
  - exact L'.
  - exact F'.
  - intros x szx Hx. unfold lab_one_map, split_map, initial_map, empty_map in Hx.
    bcases; try discriminate; try (left; reflexivity); try congruence.
  - intros x szx szy Hx Hy.
    unfold lab_one_map, split_map, initial_map, empty_map in Hx, Hy.
    bcases; try discriminate; try congruence; lia.
Qed.

Lemma lab_one_malloc : mm_malloc 2 lab_heap 100 = Some (lab_base + 16, lab_one).
Proof.
  destruct lab_heap_rep as (HR & _).
  rewrite (mm_malloc_eval 2 lab_heap _ _ 100 HR); [|lia|cbn [length]; lia].
  cbv zeta.
  replace (adjust_size 100) with 112 by (vm_compute; reflexivity).
  replace (first_fit lab_heap [lab_base + 16] 112) with (lab_base + 16)
    by (vm_compute; reflexivity).
  replace (negb (lab_base + 16 =? NULL)) with true by (vm_compute; reflexivity).
  cbv iota. unfold lab_one. reflexivity.
Qed.

(** The lab heap after [mm_malloc(100)] and [mm_malloc(24)]: allocated
    blocks of 112 and 32 bytes, followed by one free block. *)
Definition lab_two : state := place lab_one (lab_base + 128) 32.

Definition lab_two_map : bmap := split_map lab_one_map (lab_base + 128) 3984 32.

Lemma lab_two_rep : heap_rep lab_two lab_two_map [lab_base + 128 + 32].
Proof.
  destruct lab_one_rep as [L F Hl Hc].
  assert (Hb : lab_one_map (lab_base + 128) = Some (3984, false)) by reflexivity.
  assert (H1 : 16 <= 32) by lia.
  assert (H2 : 32 mod 8 = 0) by reflexivity.
  assert (H3 : 16 <= 3984 - 32) by lia.
  change (lab_base + 16 + 112) with (lab_base + 128) in F.
  destruct (place_split lab_one lab_one_map [] [] (lab_base + 128) 3984 32
              L F Hb H1 H2 H3) as (L' & F' & _).
  constructor.
  - exact L'.
  - exact F'.
  - intros x szx Hx.
    unfold lab_two_map, lab_one_map, split_map, initial_map, empty_map in Hx.
    bcases; try discriminate; try (left; reflexivity); try congruence; try (exfalso; lia).
  - intros x szx szy Hx Hy.
    unfold lab_two_map, lab_one_map, split_map, initial_map, empty_map in Hx, Hy.
    bcases; try discriminate; try congruence; lia.
Qed.

Lemma lab_two_malloc : mm_malloc 2 lab_one 24 = Some (lab_base + 128, lab_two).
Proof.
  pose proof lab_one_rep as HR.
  rewrite (mm_malloc_eval 2 lab_one _ _ 24 HR); [|lia|cbn [length]; lia].
  cbv zeta.
  replace (adjust_size 24) with 32 by (vm_compute; reflexivity).
  replace (first_fit lab_one [lab_base + 16 + 112] 32) with (lab_base + 128)
    by (vm_compute; reflexivity).
  replace (negb (lab_base + 128 =? NULL)) with true by (vm_compute; reflexivity).
  cbv iota. unfold lab_two. reflexivity.
Qed.

(** The heap [lab_one] inside [mm_free]: the block at [lab_base + 16] is
    tagged free but not yet listed. *)
Definition lab_pending : state :=
  PUT (PUT lab_one (lab_base + 16 - 4) 112) (lab_base + 16 + 112 - 8) 112.

Definition lab_pending_map : bmap := retag_map lab_one_map (lab_base + 16) 112 false.

Lemma lab_pending_ok :
  pending lab_pending lab_pending_map [lab_base + 16 + 112] (lab_base + 16) 112.
Proof.
  assert (Hb : lab_one_map (lab_base + 16) = Some (112, true)) by reflexivity.
  exact (proj1 (free_tags_pending lab_one lab_one_map _ (lab_base + 16) 112 lab_one_rep Hb)).
Qed.

(** The same heap with that block pushed on the list: two listed blocks. *)
Definition lab_listed : state := free_block lab_pending (lab_base + 16).

Lemma lab_listed_ok :
  layout lab_listed lab_pending_map /\
  flist lab_listed lab_pending_map ([lab_base + 16] ++ (lab_base + 16 + 112) :: []).
Proof.
  pose proof lab_pending_ok as P.
  destruct (free_block_spec _ _ _ _ _ (pd_layout _ _ _ _ _ P) (pd_flist _ _ _ _ _ P)
              (pd_block _ _ _ _ _ P) (pd_notin _ _ _ _ _ P)) as (L & F & _).
  split; [exact L | exact F].
Qed.


(** ** Initialisation *)

(** X1.  [mm_init] on a provider with room for the first chunk returns 0 and
    builds the initial heap: the padding word, the prologue block of 8
    bytes, one free block of [CHUNKSIZE] bytes that is the only member of
    the free list, and the epilogue header at the new break. *)
Theorem mm_init_builds_initial_heap (m : memory) (base limit : Z) :
  0 < base -> base mod 8 = 0 -> base + 16 + CHUNKSIZE <= limit -> limit < WORD ->
  let s' := snd (mm_init (fresh m base limit)) in
  fst (mm_init (fresh m base limit)) = 0 /\
  heap_ok s' /\
  p_heap_list s' = base + 8 /\ mem_brk s' = base + 16 + CHUNKSIZE /\
  GET s' (HDRP (p_heap_list s')) = PACK OVERHEAD 1 /\
  GET s' (p_heap_list s') = PACK OVERHEAD 1 /\
  GET s' (HDRP (mem_brk s')) = PACK 0 1 /\
  mp_firstfreeblock s' = base + 16 /\ m_freecount s' = 1 /\
  GET s' (HDRP (base + 16)) = PACK CHUNKSIZE 0 /\
  GET s' (FTRP s' (base + 16)) = PACK CHUNKSIZE 0 /\
  NEXT_BLKP s' (base + 16) = mem_brk s' /\
  PREV s' (base + 16) = NULL /\ SUCC s' (base + 16) = NULL.
Proof.
  intros H1 H2 H3 H4 s'.
  destruct (mm_init_spec m base limit H1 H2 H3 H4) as (s0 & E & HR & Hp & Hbrk & Hmx).
  unfold s'. rewrite E. cbn [fst snd]. clear s'.
  pose proof (hr_layout _ _ _ HR) as L. pose proof (hr_flist _ _ _ HR) as F.
  assert (Hb : initial_map base (base + 16) = Some (CHUNKSIZE, false)).
  { unfold initial_map. apply bupd_same. }
  destruct (lay_prologue _ _ L) as [P1 P2]. pose proof (lay_epilogue _ _ L) as P3.
  destruct (lay_tags _ _ L _ _ _ Hb) as [T1 T2].
  pose proof (fl_links _ _ _ F) as D. cbn [dlseg hd] in D. destruct D as (D1 & D2 & _).
  unfold CHUNKSIZE in *.
  split; [reflexivity|]. split; [exists (initial_map base), [base + 16]; exact HR|].
  split; [exact Hp|]. split; [exact Hbrk|].
  rewrite (read_FTRP _ _ L _ _ _ Hb), (read_NEXT_BLKP _ _ L _ _ _ Hb).
  rewrite !HDRP_small by (unfold WORD in *; lia).
  unfold GET, PREV, SUCC. rewrite SUC_PTR_small by (unfold WORD in *; lia).
  change (PACK OVERHEAD 1) with 9. change (PACK 0 1) with 1. change (PACK 4096 0) with 4096.
  split; [exact P1|]. split; [exact P2|]. split; [exact P3|].
  split; [rewrite (fl_head _ _ _ F); reflexivity|].
  split; [rewrite (fl_count _ _ _ F); reflexivity|].
  split; [exact T1|]. split; [exact T2|]. split; [lia|].
  split; [exact D1 | exact D2].
Qed.

Lemma mm_init_builds_initial_heap_witness :
  0 < lab_base /\ lab_base mod 8 = 0 /\ lab_base + 16 + CHUNKSIZE <= lab_limit /\
  lab_limit < WORD /\
  let s' := snd (mm_init (fresh (fun _ => 0) lab_base lab_limit)) in
  fst (mm_init (fresh (fun _ => 0) lab_base lab_limit)) = 0 /\
  heap_ok s' /\
  p_heap_list s' = lab_base + 8 /\ mem_brk s' = lab_base + 16 + CHUNKSIZE /\
  GET s' (HDRP (p_heap_list s')) = PACK OVERHEAD 1 /\
  GET s' (p_heap_list s') = PACK OVERHEAD 1 /\
  GET s' (HDRP (mem_brk s')) = PACK 0 1 /\
  mp_firstfreeblock s' = lab_base + 16 /\ m_freecount s' = 1 /\
  GET s' (HDRP (lab_base + 16)) = PACK CHUNKSIZE 0 /\
  GET s' (FTRP s' (lab_base + 16)) = PACK CHUNKSIZE 0 /\
  NEXT_BLKP s' (lab_base + 16) = mem_brk s' /\
  PREV s' (lab_base + 16) = NULL /\ SUCC s' (lab_base + 16) = NULL.
Proof.
  assert (H1 : 0 < lab_base) by reflexivity.
  assert (H2 : lab_base mod 8 = 0) by reflexivity.
  assert (H3 : lab_base + 16 + CHUNKSIZE <= lab_limit) by (vm_compute; discriminate).
  assert (H4 : lab_limit < WORD) by reflexivity.
  split; [exact H1|]. split; [exact H2|]. split; [exact H3|]. split; [exact H4|].
  exact (mm_init_builds_initial_heap (fun _ => 0) lab_base lab_limit H1 H2 H3 H4).
Defined.

(** X2.  [mm_init] reports failure when the provider grants the 16 bytes of
    padding, prologue and epilogue but has no room for the first chunk:
    it returns -1.  The 16 bytes stay claimed and formatted, and the free
    list is empty. *)
Theorem mm_init_fails_without_room (m : memory) (base limit : Z) :
  0 < base -> base + 16 <= limit -> limit < base + 16 + CHUNKSIZE -> limit < WORD ->
  let s' := snd (mm_init (fresh m base limit)) in
  fst (mm_init (fresh m base limit)) = -1 /\
  mem_brk s' = base + 16 /\ p_heap_list s' = base + 8 /\ m_freecount s' = 0 /\
  GET s' (base + 4) = PACK OVERHEAD 1 /\ GET s' (base + 8) = PACK OVERHEAD 1 /\
  GET s' (base + 12) = PACK 0 1.
Proof.
  intros H1 H2 H3 H4. unfold mm_init, mem_sbrk.
  cbn [fresh log mem mem_brk mem_max_addr p_heap_list mp_firstfreeblock m_freecount trace].
  replace (base + 4 * WSIZE <=? limit) with true
    by (symmetry; apply Z.leb_le; unfold WSIZE; lia).
  cbn [set_p_heap_list p_heap_list mem mem_brk mem_max_addr mp_firstfreeblock
       m_freecount trace].
  replace (base =? NULL) with false by (symmetry; apply Z.eqb_neq; unfold NULL; lia).
  match goal with
  | |- context [extend_heap ?s0 ?w] => rewrite (extend_heap_fail s0 w)
  end.
  - cbn [Z.eqb NULL fst snd log PUT with_mem set_p_heap_list set_firstfree set_freecount
         mem mem_brk mem_max_addr p_heap_list mp_firstfreeblock m_freecount trace].
    unfold WSIZE, DSIZE, GET. st_simpl.
    rewrite !wadd_small by (unfold WORD in *; lia).
    change (PACK OVERHEAD 1) with 9. change (PACK 0 1) with 1.
    split; [reflexivity|]. split; [lia|]. split; [reflexivity|]. split; [reflexivity|].
    replace (base + 4 + 8) with (base + 12) by lia.
    split; [|split]; ld.
  - st_simpl. unfold CHUNKSIZE in *. change (extend_size (4096 / WSIZE)) with 4096.
    unfold WSIZE. lia.
Qed.

Lemma mm_init_fails_without_room_witness :
  0 < lab_base /\ lab_base + 16 <= lab_base + 100 /\
  lab_base + 100 < lab_base + 16 + CHUNKSIZE /\ lab_base + 100 < WORD /\
  let s' := snd (mm_init (fresh (fun _ => 0) lab_base (lab_base + 100))) in
  fst (mm_init (fresh (fun _ => 0) lab_base (lab_base + 100))) = -1 /\
  mem_brk s' = lab_base + 16 /\ p_heap_list s' = lab_base + 8 /\ m_freecount s' = 0 /\
  GET s' (lab_base + 4) = PACK OVERHEAD 1 /\ GET s' (lab_base + 8) = PACK OVERHEAD 1 /\
  GET s' (lab_base + 12) = PACK 0 1.
Proof.
  assert (H1 : 0 < lab_base) by reflexivity.
  assert (H2 : lab_base + 16 <= lab_base + 100) by lia.
  assert (H3 : lab_base + 100 < lab_base + 16 + CHUNKSIZE) by (unfold CHUNKSIZE; lia).
  assert (H4 : lab_base + 100 < WORD) by reflexivity.
  split; [exact H1|]. split; [exact H2|]. split; [exact H3|]. split; [exact H4|].
  exact (mm_init_fails_without_room (fun _ => 0) lab_base (lab_base + 100) H1 H2 H3 H4).
Defined.

(** X3.  The first check of [mm_init] compares the provider's answer with NULL,
    but the provider reports failure with [(void * )-1].  When the provider
    refuses the initial 16 bytes, the check therefore does not catch the
    failure and [mm_init] does not return: its next action is the store
    of the padding word through the failure value, at address 2^32 - 1.
    (That store is an invalid access; nothing is stated about what
    follows it.) *)
Theorem mm_init_misses_failure_value (m : memory) (base limit : Z) :
  limit < base + 16 ->
  fst (mem_sbrk (fresh m base limit) (4 * WSIZE)) = MINUS1 /\
  (MINUS1 =? NULL) = false /\
  exists rest,
    trace (snd (mm_init (fresh m base limit))) =
      EvSbrk (4 * WSIZE) :: EvPut MINUS1 0 :: rest.
Proof.
  intros H. unfold mm_init, mem_sbrk.
  cbn [fresh log mem mem_brk mem_max_addr p_heap_list mp_firstfreeblock m_freecount trace].
  replace (base + 4 * WSIZE <=? limit) with false
    by (symmetry; apply Z.leb_gt; unfold WSIZE; lia).
  cbn [fst set_p_heap_list p_heap_list mem mem_brk mem_max_addr mp_firstfreeblock
       m_freecount trace].
  split; [reflexivity|]. split; [reflexivity|].
  change (MINUS1 =? NULL) with false. cbv iota.
  match goal with
  | |- context [extend_heap ?s0 ?w] =>
      rewrite (extend_heap_fail s0 w)
  end.
  - cbn [Z.eqb NULL snd log trace p_heap_list PUT with_mem set_p_heap_list set_firstfree
         set_freecount app].
    eexists. reflexivity.
  - st_simpl. unfold CHUNKSIZE in *. change (extend_size (4096 / WSIZE)) with 4096.
    unfold fresh, WSIZE. st_simpl. lia.
Qed.

Lemma mm_init_misses_failure_value_witness :
  lab_base + 8 < lab_base + 16 /\
  fst (mem_sbrk (fresh (fun _ => 0) lab_base (lab_base + 8)) (4 * WSIZE)) = MINUS1 /\
  (MINUS1 =? NULL) = false /\
  exists rest,
    trace (snd (mm_init (fresh (fun _ => 0) lab_base (lab_base + 8)))) =
      EvSbrk (4 * WSIZE) :: EvPut MINUS1 0 :: rest.
Proof.
  assert (H : lab_base + 8 < lab_base + 16) by lia.
  split; [exact H|].
  exact (mm_init_misses_failure_value (fun _ => 0) lab_base (lab_base + 8) H).
Defined.

(** ** The free-list primitives *)

Lemma allocate_block_regs (s : state) (b : Z) : same_regs s (allocate_block s b).
Proof.
  unfold allocate_block, same_regs.
  repeat match goal with
         | |- context [if ?c then _ else _] => destruct c
         end; st_simpl; auto.
Qed.

Lemma free_block_regs (s : state) (b : Z) : same_regs s (free_block s b).
Proof.
  unfold free_block, same_regs.
  repeat match goal with
         | |- context [if ?c then _ else _] => destruct c
         end; st_simpl; auto.
Qed.

(** [place] never moves the heap bounds, whatever its arguments. *)
Lemma place_regs (s : state) (b asize : Z) : same_regs s (place s b asize).
Proof.
  unfold place.
  destruct (DSIZE + OVERHEAD <=? wsub (GET_SIZE s (HDRP b)) asize).
  - eapply same_regs_trans; [apply allocate_block_regs|].
    eapply same_regs_trans; [|apply free_block_regs].
    repeat split.
  - eapply same_regs_trans; [apply allocate_block_regs|]. repeat split.
Qed.

(** X23.  [free_block] pushes a free block that is not yet listed at the head
    of the list (LIFO): the list becomes [b :: fl], the counter grows by
    one, the block has no predecessor and the old head as its successor,
    and no byte outside the link slots of the listed blocks changes. *)
Theorem free_block_pushes_front (s : state) (M : bmap) (fl : list Z) (b sz : Z) :
  layout s M -> flist s M fl -> M b = Some (sz, false) -> ~ In b fl ->
  let s' := free_block s b in
  layout s' M /\ flist s' M (b :: fl) /\
  mp_firstfreeblock s' = b /\ m_freecount s' = m_freecount s + 1 /\
  PREV s' b = NULL /\ SUCC s' b = hd NULL fl /\
  (fl <> [] -> PREV s' (hd NULL fl) = b) /\
  mem_brk s' = mem_brk s /\
  links_untouched s s' (b :: fl).
Proof.
  intros L F Hb Hn s'.
  destruct (free_block_spec s M fl b sz L F Hb Hn) as (L' & F' & (R1 & _) & U).
  fold s' in L', F', R1, U.
  destruct (layout_block _ _ _ _ _ L Hb) as (B1 & B2 & B3 & B4 & B5 & B6 & B7 & _).
  pose proof (fl_links _ _ _ F') as D. cbn [dlseg] in D. destruct D as (D1 & D2 & D3).
  split; [exact L'|]. split; [exact F'|].
  split; [exact (fl_head _ _ _ F')|].
  split.
  { rewrite (fl_count _ _ _ F'), (fl_count _ _ _ F). cbn [length]. lia. }
  unfold PREV, SUCC. rewrite SUC_PTR_small by lia.
  split; [exact D1|]. split; [exact D2|].
  split; [|split; [exact R1 | exact U]].
  intros Hne. destruct fl as [|h r]; [contradiction|].
  cbn [hd dlseg] in *. apply D3.
Qed.

Lemma free_block_pushes_front_witness :
  layout lab_pending lab_pending_map /\
  flist lab_pending lab_pending_map [lab_base + 16 + 112] /\
  lab_pending_map (lab_base + 16) = Some (112, false) /\
  ~ In (lab_base + 16) [lab_base + 16 + 112] /\
  let s' := free_block lab_pending (lab_base + 16) in
  layout s' lab_pending_map /\
  flist s' lab_pending_map [lab_base + 16; lab_base + 16 + 112] /\
  mp_firstfreeblock s' = lab_base + 16 /\
  m_freecount s' = m_freecount lab_pending + 1 /\
  PREV s' (lab_base + 16) = NULL /\
  SUCC s' (lab_base + 16) = hd NULL [lab_base + 16 + 112] /\
  ([lab_base + 16 + 112] <> [] -> PREV s' (hd NULL [lab_base + 16 + 112]) = lab_base + 16) /\
  mem_brk s' = mem_brk lab_pending /\
  links_untouched lab_pending s' [lab_base + 16; lab_base + 16 + 112].
Proof.
  pose proof lab_pending_ok as P.
  pose proof (pd_layout _ _ _ _ _ P) as L. pose proof (pd_flist _ _ _ _ _ P) as F.
  pose proof (pd_block _ _ _ _ _ P) as H3. pose proof (pd_notin _ _ _ _ _ P) as H4.
  split; [exact L|]. split; [exact F|]. split; [exact H3|]. split; [exact H4|].
  exact (free_block_pushes_front _ _ _ (lab_base + 16) 112 L F H3 H4).
Defined.

(** X24.  [allocate_block] unlinks a listed block wherever it stands in the
    list: the other blocks stay linked in their order, the counter drops
    by one, and no byte outside the link slots of the listed blocks
    changes. *)
Theorem allocate_block_unlinks (s : state) (M : bmap) (l1 l2 : list Z) (b : Z) :
  layout s M -> flist s M (l1 ++ b :: l2) ->
  let s' := allocate_block s b in
  layout s' M /\ flist s' M (l1 ++ l2) /\
  mp_firstfreeblock s' = hd NULL (l1 ++ l2) /\
  m_freecount s' = m_freecount s - 1 /\
  mem_brk s' = mem_brk s /\
  links_untouched s s' (l1 ++ b :: l2).
Proof.
  intros L F s'.
  destruct (allocate_block_spec s M l1 l2 b L F) as (L' & F' & (R1 & _) & U).
  fold s' in L', F', R1, U.
  split; [exact L'|]. split; [exact F'|].
  split; [exact (fl_head _ _ _ F')|].
  split; [|split; [exact R1 | exact U]].
  rewrite (fl_count _ _ _ F'), (fl_count _ _ _ F).
  rewrite !length_app. cbn [length]. lia.
Qed.

Lemma allocate_block_unlinks_witness :
  layout lab_listed lab_pending_map /\
  flist lab_listed lab_pending_map ([lab_base + 16] ++ (lab_base + 16 + 112) :: []) /\
  let s' := allocate_block lab_listed (lab_base + 16 + 112) in
  layout s' lab_pending_map /\ flist s' lab_pending_map ([lab_base + 16] ++ []) /\
  mp_firstfreeblock s' = hd NULL ([lab_base + 16] ++ []) /\
  m_freecount s' = m_freecount lab_listed - 1 /\
  mem_brk s' = mem_brk lab_listed /\
  links_untouched lab_listed s' ([lab_base + 16] ++ (lab_base + 16 + 112) :: []).
Proof.
  destruct lab_listed_ok as [L F].
  split; [exact L|]. split; [exact F|].
  exact (allocate_block_unlinks lab_listed _ [lab_base + 16] [] (lab_base + 16 + 112) L F).
Defined.

Lemma links_untouched_trans (s1 s2 s3 : state) (ws : list Z) :
  links_untouched s1 s2 ws -> links_untouched s2 s3 ws -> links_untouched s1 s3 ws.
Proof.
  intros U1 U2 x Hx. rewrite (U2 x Hx). apply U1. exact Hx.
Qed.

(** X25.  Insert, then remove: [free_block] followed by [allocate_block] of the
    same block gives back the free list as it was, with the same head and
    counter. *)
Theorem free_block_then_allocate_block (s : state) (M : bmap) (fl : list Z) (b sz : Z) :
  layout s M -> flist s M fl -> M b = Some (sz, false) -> ~ In b fl ->
  let s' := allocate_block (free_block s b) b in
  layout s' M /\ flist s' M fl /\
  mp_firstfreeblock s' = hd NULL fl /\
  m_freecount s' = m_freecount s /\
  links_untouched s s' (b :: fl).
Proof.
  intros L F Hb Hn s'.
  destruct (free_block_spec s M fl b sz L F Hb Hn) as (L1 & F1 & _ & U1).
  destruct (allocate_block_spec (free_block s b) M [] fl b L1 F1) as (L2 & F2 & _ & U2).
  cbn [app] in F2, U2. fold s' in L2, F2, U2.
  split; [exact L2|]. split; [exact F2|].
  split; [exact (fl_head _ _ _ F2)|].
  split; [rewrite (fl_count _ _ _ F2), (fl_count _ _ _ F); reflexivity|].
  exact (links_untouched_trans _ _ _ _ U1 U2).
Qed.

Lemma free_block_then_allocate_block_witness :
  layout lab_pending lab_pending_map /\
  flist lab_pending lab_pending_map [lab_base + 16 + 112] /\
  lab_pending_map (lab_base + 16) = Some (112, false) /\
  ~ In (lab_base + 16) [lab_base + 16 + 112] /\
  let s' := allocate_block (free_block lab_pending (lab_base + 16)) (lab_base + 16) in
  layout s' lab_pending_map /\ flist s' lab_pending_map [lab_base + 16 + 112] /\
  mp_firstfreeblock s' = hd NULL [lab_base + 16 + 112] /\
  m_freecount s' = m_freecount lab_pending /\
  links_untouched lab_pending s' [lab_base + 16; lab_base + 16 + 112].
Proof.
  pose proof lab_pending_ok as P.
  pose proof (pd_layout _ _ _ _ _ P) as L. pose proof (pd_flist _ _ _ _ _ P) as F.
  pose proof (pd_block _ _ _ _ _ P) as H3. pose proof (pd_notin _ _ _ _ _ P) as H4.
  split; [exact L|]. split; [exact F|]. split; [exact H3|]. split; [exact H4|].
  exact (free_block_then_allocate_block _ _ _ (lab_base + 16) 112 L F H3 H4).
Defined.

(** X26.  Remove, then insert: [allocate_block] followed by [free_block] of a
    listed block moves it to the head of the list and keeps the other
    blocks in their order. *)
Theorem allocate_block_then_free_block (s : state) (M : bmap) (l1 l2 : list Z) (b : Z) :
  layout s M -> flist s M (l1 ++ b :: l2) ->
  let s' := free_block (allocate_block s b) b in
  layout s' M /\ flist s' M (b :: l1 ++ l2) /\
  mp_firstfreeblock s' = b /\
  m_freecount s' = m_freecount s.
Proof.
  intros L F s'.
  destruct (fl_free _ _ _ F b) as [sz Hb]; [apply in_or_app; right; left; reflexivity|].
  assert (Hn : ~ In b (l1 ++ l2)) by (apply NoDup_remove_2; exact (fl_nodup _ _ _ F)).
  destruct (allocate_block_spec s M l1 l2 b L F) as (L1 & F1 & _).
  destruct (free_block_spec _ M _ b sz L1 F1 Hb Hn) as (L2 & F2 & _).
  fold s' in L2, F2.
  split; [exact L2|]. split; [exact F2|].
  split; [exact (fl_head _ _ _ F2)|].
  rewrite (fl_count _ _ _ F2), (fl_count _ _ _ F).
  cbn [length]. rewrite !length_app. cbn [length]. lia.
Qed.

Lemma allocate_block_then_free_block_witness :
  layout lab_listed lab_pending_map /\
  flist lab_listed lab_pending_map ([lab_base + 16] ++ (lab_base + 16 + 112) :: []) /\
  let s' := free_block (allocate_block lab_listed (lab_base + 16 + 112))
                       (lab_base + 16 + 112) in
  layout s' lab_pending_map /\
  flist s' lab_pending_map ((lab_base + 16 + 112) :: [lab_base + 16] ++ []) /\
  mp_firstfreeblock s' = lab_base + 16 + 112 /\
  m_freecount s' = m_freecount lab_listed.
Proof.
  destruct lab_listed_ok as [L F].
  split; [exact L|]. split; [exact F|].
  exact (allocate_block_then_free_block lab_listed _ [lab_base + 16] []
           (lab_base + 16 + 112) L F).
Defined.

(** ** Coalescing and heap growth *)

(** On a quiescent heap both physical neighbours of a free block are
    allocated, as the boundary tags read by [coalesce] show. *)
Lemma free_neighbours_allocated (s : state) (M : bmap) (fl : list Z) (b sz : Z) :
  heap_rep s M fl -> M b = Some (sz, false) ->
  GET_ALLOC s (HDRP b) = 0 /\
  GET_ALLOC s (HDRP (NEXT_BLKP s b)) = 1 /\
  GET_ALLOC s (FTRP s (PREV_BLKP s b)) = 1.
Proof.
  intros [L F Hl Hc] Hb.
  split; [exact (read_hdr_alloc _ _ L _ _ _ Hb)|]. split.
  - destruct (next_view _ _ _ _ _ L Hb) as [[X _] | (nsz & _ & Hn)]; [exact X|].
    exfalso. exact (Hc _ _ _ Hb Hn).
  - destruct (prev_view _ _ _ _ _ L Hb) as [[X _] | (b' & sz' & _ & Hp & E & _)]; [exact X|].
    exfalso. rewrite <- E in Hb. exact (Hc _ _ _ Hp Hb).
Qed.

Lemma merged_block_covers (s s' : state) (M M' : bmap) (fl' : list Z)
      (bp sz r total : Z) :
  layout s M -> M bp = Some (sz, false) ->
  r = bp \/ (exists psz, M r = Some (psz, false) /\ r + psz = bp) ->
  heap_rep s' M' (r :: fl') -> M' r = Some (total, false) ->
  same_regs s s' -> keeps_allocated s s' M M' ->
  r <= bp /\ bp + sz <= r + total.
Proof.
  intros L Hb Hr HR' Hr' (R1 & R2 & R3) (K1 & _).
  pose proof (lay_tiling _ _ L) as T.
  pose proof (hr_layout _ _ _ HR') as L'. pose proof (lay_tiling _ _ L') as T'.
  pose proof (til_bounds _ _ _ T _ _ _ Hb) as Bb.
  pose proof (til_bounds _ _ _ T' _ _ _ Hr') as Br.
  assert (Hle : r <= bp).
  { destruct Hr as [-> | (psz & Hp & E)]; [lia|].
    pose proof (til_bounds _ _ _ T _ _ _ Hp). lia. }
  split; [exact Hle|].
  destruct (til_next _ _ _ T' _ _ _ Hr') as [E | (sz' & a' & Hy)].
  - rewrite R1 in E. lia.
  - destruct a'; [|exfalso; exact (hr_coalesced _ _ _ HR' _ _ _ Hr' Hy)].
    apply K1 in Hy.
    pose proof (til_bounds _ _ _ T _ _ _ Hy) as By.
    destruct (blocks_apart _ _ _ _ _ _ _ _ _ T Hy Hb) as [X | [X | X]].
    + rewrite X in Hy. rewrite Hb in Hy. discriminate.
    + exfalso. destruct Hr as [-> | (psz & Hp & E)]; [lia|].
      destruct (blocks_apart _ _ _ _ _ _ _ _ _ T Hp Hy) as [Y | [Y | Y]]; lia.
    + lia.
Qed.

(** [coalesce] with the place of its result: the block returned starts at
    or before the given block and covers it. *)
Lemma coalesce_covers (s : state) (M : bmap) (fl : list Z) (bp sz : Z) :
  pending s M fl bp sz ->
  exists r s', coalesce s bp = (r, s') /\
    exists M' fl' total,
      heap_rep s' M' (r :: fl') /\ M' r = Some (total, false) /\
      r <= bp /\ bp + sz <= r + total /\
      (prev_allocated M bp -> r = bp) /\
      same_regs s s' /\ keeps_allocated s s' M M'.
Proof.
  intros P. pose proof (pd_layout _ _ _ _ _ P) as L.
  pose proof (pd_block _ _ _ _ _ P) as Hb.
  assert (Hfin : forall r s',
             coalesce s bp = (r, s') -> coalesce_post s M bp sz r s' ->
             r = bp \/ (exists psz, M r = Some (psz, false) /\ r + psz = bp) ->
             exists r s', coalesce s bp = (r, s') /\
               exists M' fl' total,
                 heap_rep s' M' (r :: fl') /\ M' r = Some (total, false) /\
                 r <= bp /\ bp + sz <= r + total /\
                 (prev_allocated M bp -> r = bp) /\
                 same_regs s s' /\ keeps_allocated s s' M M').
  { intros r s' E (M' & fl' & total & HR' & Hr' & _ & Hpa & R & K) Hr.
    destruct (merged_block_covers s s' M M' fl' bp sz r total L Hb Hr HR' Hr' R K)
      as [C1 C2].
    exists r, s'. split; [exact E|]. exists M', fl', total. auto 10. }
  destruct (prev_view _ _ _ _ _ L Hb) as [[_ Hpa] | (b' & psz & _ & Hpv & Epv & _)];
    destruct (next_view _ _ _ _ _ L Hb) as [[_ Hna] | (nsz & _ & Hnx)].
  - apply (Hfin bp (free_block s bp)).
    + apply (coalesce_eval1 _ _ _ _ _ P Hpa Hna).
    + destruct (coalesce_case1 _ _ _ _ _ P Hpa Hna) as (HR & RR & KR).
      exists M, fl, sz.
      split; [exact HR|]. split; [exact Hb|]. split; [lia|].
      split; [reflexivity|]. split; [exact RR | exact KR].
    + left. reflexivity.
  - destruct (coalesce_case2 _ _ _ _ _ _ P Hpa Hnx) as (s' & E & Q).
    apply (Hfin bp s' E Q). left. reflexivity.
  - destruct (coalesce_case3 _ _ _ _ _ _ _ P Hpv Epv Hna) as (s' & E & Q).
    apply (Hfin b' s' E Q). right. exists psz. auto.
  - destruct (coalesce_case4 _ _ _ _ _ _ _ _ P Hpv Epv Hnx) as (s' & E & Q).
    apply (Hfin b' s' E Q). right. exists psz. auto.
Qed.

(** X19.  [coalesce] completes a free: entered with a block that is tagged free
    but not yet listed, on a heap that is otherwise quiescent, it returns
    a free block that covers the given one, heads the free list and has
    allocated neighbours on both sides; the heap is quiescent again and
    its bounds are unchanged.  The result is the given block itself when
    the block before it is allocated. *)
Theorem coalesce_merges_free_neighbours (s : state) (M : bmap) (fl : list Z) (bp sz : Z) :
  pending s M fl bp sz ->
  let r := fst (coalesce s bp) in
  let s' := snd (coalesce s bp) in
  heap_ok s' /\
  mp_firstfreeblock s' = r /\
  GET_ALLOC s' (HDRP r) = 0 /\
  r <= bp /\ bp + sz <= r + GET_SIZE s' (HDRP r) /\
  GET_ALLOC s' (HDRP (NEXT_BLKP s' r)) = 1 /\
  GET_ALLOC s' (FTRP s' (PREV_BLKP s' r)) = 1 /\
  (GET_ALLOC s (FTRP s (PREV_BLKP s bp)) = 1 -> r = bp) /\
  mem_brk s' = mem_brk s /\ p_heap_list s' = p_heap_list s.
Proof.
  intros P r s'.
  destruct (coalesce_covers s M fl bp sz P)
    as (r0 & s0 & E & (M' & fl' & total & HR' & Hr & C1 & C2 & Hrp & (R1 & R2 & R3) & _)).
  unfold r, s'. rewrite E. cbn [fst snd]. clear r s'.
  pose proof (hr_layout _ _ _ HR') as L'.
  destruct (free_neighbours_allocated _ _ _ _ _ HR' Hr) as (N1 & N2 & N3).
  split; [exists M', (r0 :: fl'); exact HR'|].
  split; [exact (fl_head _ _ _ (hr_flist _ _ _ HR'))|].
  split; [exact N1|]. split; [exact C1|].
  split; [rewrite (read_hdr_size _ _ L' _ _ _ Hr); exact C2|].
  split; [exact N2|]. split; [exact N3|].
  split; [|split; [exact R1 | exact R3]].
  intros Ha. apply Hrp.
  destruct (prev_view _ _ _ _ _ (pd_layout _ _ _ _ _ P) (pd_block _ _ _ _ _ P))
    as [[_ X] | (b' & sz' & X & _)]; [exact X | rewrite X in Ha; discriminate].
Qed.

Lemma coalesce_merges_free_neighbours_witness :
  pending lab_pending lab_pending_map [lab_base + 16 + 112] (lab_base + 16) 112 /\
  let r := fst (coalesce lab_pending (lab_base + 16)) in
  let s' := snd (coalesce lab_pending (lab_base + 16)) in
  heap_ok s' /\
  mp_firstfreeblock s' = r /\
  GET_ALLOC s' (HDRP r) = 0 /\
  r <= lab_base + 16 /\ lab_base + 16 + 112 <= r + GET_SIZE s' (HDRP r) /\
  GET_ALLOC s' (HDRP (NEXT_BLKP s' r)) = 1 /\
  GET_ALLOC s' (FTRP s' (PREV_BLKP s' r)) = 1 /\
  (GET_ALLOC lab_pending (FTRP lab_pending (PREV_BLKP lab_pending (lab_base + 16))) = 1 ->
   r = lab_base + 16) /\
  mem_brk s' = mem_brk lab_pending /\ p_heap_list s' = p_heap_list lab_pending.
Proof.
  pose proof lab_pending_ok as P.
  split; [exact P|].
  exact (coalesce_merges_free_neighbours _ _ _ _ _ P).
Defined.

Lemma extend_size_rounds (words : Z) :
  0 <= words < 1073741823 ->
  extend_size words mod 8 = 0 /\
  words * WSIZE <= extend_size words <= words * WSIZE + WSIZE /\
  extend_size words < WORD.
Proof.
  intros H. unfold extend_size, WSIZE, wmul, wadd, wrap, WORD.
  destruct (Z.eqb_spec (words mod 2) 0) as [E | E]; cbn [negb].
  - lia.
  - lia.
Qed.

(** X21.  [extend_heap] rounds the request up to an even number of words and,
    when the provider has room, moves the break up by exactly that many
    bytes.  It returns a free block of at least that size, which heads
    the free list and ends at the new break, where the new epilogue
    header stands; the heap is quiescent again and the allocated blocks
    and their payloads are unchanged. *)
Theorem extend_heap_grows_heap (s : state) (M : bmap) (fl : list Z) (words : Z) :
  heap_rep s M fl -> 4 <= words < 1073741823 ->
  mem_brk s + extend_size words <= mem_max_addr s ->
  let r := fst (extend_heap s words) in
  let s' := snd (extend_heap s words) in
  r <> NULL /\ heap_ok s' /\
  mem_brk s' = mem_brk s + extend_size words /\
  extend_size words mod 8 = 0 /\ words * WSIZE <= extend_size words /\
  mp_firstfreeblock s' = r /\
  GET_ALLOC s' (HDRP r) = 0 /\ extend_size words <= GET_SIZE s' (HDRP r) /\
  NEXT_BLKP s' r = mem_brk s' /\
  GET s' (HDRP (mem_brk s')) = PACK 0 1 /\
  (forall x szx, M x = Some (szx, true) ->
     GET_ALLOC s' (HDRP x) = 1 /\ GET_SIZE s' (HDRP x) = szx /\
     forall y, x <= y < x + szx - 8 -> mem s' y = mem s y).
Proof.
  intros HR Hw Hroom r s'.
  assert (Hw' : 0 <= words < 1073741823) by lia.
  destruct (extend_size_rounds words Hw') as (E8 & (Elo & Ehi) & Elt).
  assert (E16 : 16 <= extend_size words) by (unfold WSIZE in *; lia).
  pose proof (hr_layout _ _ _ HR) as L. pose proof (lay_tiling _ _ L) as T.
  subst r s'. rewrite (extend_heap_eval _ _ _ _ L eq_refl E16 E8 Hroom).
  destruct (extend_heap_pending _ _ _ _ HR E16 E8 Hroom) as (P & Hbrk0 & Hph & Hmx & Fr).
  cbv zeta in P, Hbrk0, Hph, Hmx, Fr.
  set (n := extend_size words) in *.
  set (s4 := PUT (PUT (PUT (snd (mem_sbrk s n)) (mem_brk s - 4) n)
                      (mem_brk s + n - 8) n) (mem_brk s + n - 4) 1) in *.
  destruct (coalesce_covers _ _ _ _ _ P)
    as (r0 & s0 & E & (M' & fl' & total & HR' & Hr & C1 & C2 & _ & (R1 & R2 & R3) & K1 & K2)).
  rewrite E. cbn [fst snd].
  pose proof (hr_layout _ _ _ HR') as L'. pose proof (lay_tiling _ _ L') as T'.
  destruct (free_neighbours_allocated _ _ _ _ _ HR' Hr) as (N1 & N2 & N3).
  destruct (layout_block _ _ _ _ _ L' Hr) as (B1 & B2 & B3 & B4 & B5 & B6 & B7 & _).
  assert (Hbrk : mem_brk s0 = mem_brk s + n) by congruence.
  assert (Hend : r0 + total = mem_brk s0) by lia.
  assert (Htot : n <= total).
  { destruct (lay_brk _ _ L) as (X1 & _). lia. }
  assert (Hnone : M (mem_brk s) = None).
  { apply (tiling_no_block_at_end _ _ _ T). lia. }
  assert (Hr0 : r0 <> NULL) by (unfold NULL; lia).
  split; [exact Hr0|]. split; [exists M', (r0 :: fl'); exact HR'|].
  split; [exact Hbrk|]. split; [exact E8|]. split; [exact Elo|].
  split; [exact (fl_head _ _ _ (hr_flist _ _ _ HR'))|].
  split; [exact N1|].
  rewrite (read_hdr_size _ _ L' _ _ _ Hr), (read_NEXT_BLKP _ _ L' _ _ _ Hr).
  split; [exact Htot|]. split; [exact Hend|].
  split.
  { rewrite HDRP_small by lia. unfold GET. exact (lay_epilogue _ _ L'). }
  intros x szx Hx.
  assert (Hxn : x <> mem_brk s) by (intros ->; congruence).
  assert (Hx0 : bupd M (mem_brk s) (Some (n, false)) x = Some (szx, true))
    by (rewrite bupd_other; auto).
  assert (Hx' : M' x = Some (szx, true)) by (apply K1; exact Hx0).
  rewrite (read_hdr_alloc _ _ L' _ _ _ Hx'), (read_hdr_size _ _ L' _ _ _ Hx').
  split; [reflexivity|]. split; [reflexivity|].
  intros y Hy. rewrite (K2 x szx y Hx0 Hy). apply Fr.
  pose proof (til_bounds _ _ _ T _ _ _ Hx). lia.
Qed.

Lemma extend_heap_grows_heap_witness :
  heap_rep lab_one lab_one_map [lab_base + 16 + 112] /\
  4 <= 1025 < 1073741823 /\
  mem_brk lab_one + extend_size 1025 <= mem_max_addr lab_one /\
  let r := fst (extend_heap lab_one 1025) in
  let s' := snd (extend_heap lab_one 1025) in
  r <> NULL /\ heap_ok s' /\
  mem_brk s' = mem_brk lab_one + extend_size 1025 /\
  extend_size 1025 mod 8 = 0 /\ 1025 * WSIZE <= extend_size 1025 /\
  mp_firstfreeblock s' = r /\
  GET_ALLOC s' (HDRP r) = 0 /\ extend_size 1025 <= GET_SIZE s' (HDRP r) /\
  NEXT_BLKP s' r = mem_brk s' /\
  GET s' (HDRP (mem_brk s')) = PACK 0 1 /\
  (forall x szx, lab_one_map x = Some (szx, true) ->
     GET_ALLOC s' (HDRP x) = 1 /\ GET_SIZE s' (HDRP x) = szx /\
     forall y, x <= y < x + szx - 8 -> mem s' y = mem lab_one y).
Proof.
  pose proof lab_one_rep as HR.
  assert (H2 : 4 <= 1025 < 1073741823) by lia.
  assert (H3 : mem_brk lab_one + extend_size 1025 <= mem_max_addr lab_one)
    by (vm_compute; discriminate).
  split; [exact HR|]. split; [exact H2|]. split; [exact H3|].
  exact (extend_heap_grows_heap lab_one _ _ 1025 HR H2 H3).
Defined.

(** ** The frame of [place] *)

(** X22.  Given a free block of the list and an adjusted size that is a
    multiple of 8, at least 16 and at most the size of the block, [place]
    writes only inside that block and into the link slots of the other
    listed blocks: every other byte of memory and the heap bounds are
    unchanged.  (Without the bounds on the adjusted size this fails: for
    an adjusted size of 0 the footer tag is written below the block.) *)
Theorem place_writes_inside_block (s : state) (M : bmap) (l1 l2 : list Z)
        (bp csz asz x : Z) :
  layout s M -> flist s M (l1 ++ bp :: l2) -> M bp = Some (csz, false) ->
  16 <= asz -> asz mod 8 = 0 -> asz <= csz ->
  x < bp - 4 \/ bp + csz - 4 <= x ->
  (forall f, In f (l1 ++ l2) -> x < f \/ f + 8 <= x) ->
  mem (place s bp asz) x = mem s x /\
  mem_brk (place s bp asz) = mem_brk s /\
  p_heap_list (place s bp asz) = p_heap_list s.
Proof.
  intros L F Hb Ha Ha8 Hle Hx Hl.
  destruct (place_regs s bp asz) as (R1 & _ & R3).
  split; [|split; [exact R1 | exact R3]].
  destruct (Z.le_gt_cases 16 (csz - asz)) as [Hsp | Hsp].
  - destruct (place_split _ _ _ _ _ _ _ L F Hb Ha Ha8 Hsp) as (_ & _ & _ & U).
    exact (U x Hx Hl).
  - destruct (place_whole _ _ _ _ _ _ _ L F Hb Hle Hsp) as (_ & _ & _ & U).
    exact (U x Hx Hl).
Qed.

Lemma place_writes_inside_block_witness :
  layout lab_one lab_one_map /\
  flist lab_one lab_one_map ([] ++ (lab_base + 128) :: []) /\
  lab_one_map (lab_base + 128) = Some (3984, false) /\
  16 <= 32 /\ 32 mod 8 = 0 /\ 32 <= 3984 /\
  (lab_base + 20 < lab_base + 128 - 4 \/ lab_base + 128 + 3984 - 4 <= lab_base + 20) /\
  (forall f, In f ([] ++ []) -> lab_base + 20 < f \/ f + 8 <= lab_base + 20) /\
  mem (place lab_one (lab_base + 128) 32) (lab_base + 20) = mem lab_one (lab_base + 20) /\
  mem_brk (place lab_one (lab_base + 128) 32) = mem_brk lab_one /\
  p_heap_list (place lab_one (lab_base + 128) 32) = p_heap_list lab_one.
Proof.
  destruct lab_one_rep as [L F _ _].
  change (lab_base + 16 + 112) with (lab_base + 128) in F.
  assert (H3 : lab_one_map (lab_base + 128) = Some (3984, false)) by reflexivity.
  assert (H4 : 16 <= 32) by lia.
  assert (H5 : 32 mod 8 = 0) by reflexivity.
  assert (H6 : 32 <= 3984) by lia.
  assert (H7 : lab_base + 20 < lab_base + 128 - 4 \/
               lab_base + 128 + 3984 - 4 <= lab_base + 20) by lia.
  assert (H8 : forall f, In f ([] ++ []) -> lab_base + 20 < f \/ f + 8 <= lab_base + 20)
    by (intros f []).
  split; [exact L|]. split; [exact F|]. split; [exact H3|]. split; [exact H4|].
  split; [exact H5|]. split; [exact H6|]. split; [exact H7|]. split; [exact H8|].
  exact (place_writes_inside_block lab_one _ [] [] (lab_base + 128) 3984 32 (lab_base + 20)
           L F H3 H4 H5 H6 H7 H8).
Defined.

(** ** Allocation on a quiescent heap *)

Lemma fuel_covers_list (fuel : nat) (s : state) (M : bmap) (fl : list Z) :
  flist s M fl -> m_freecount s < Z.of_nat fuel -> (length fl < fuel)%nat.
Proof. intros F H. rewrite (fl_count _ _ _ F) in H. lia. Qed.

Lemma heap_rep_log (s : state) (M : bmap) (fl : list Z) (e : event) :
  heap_rep s M fl -> heap_rep (log s e) M fl.
Proof.
  intros [L F Hl Hc]. constructor; auto.
  - apply (layout_frame s (log s e) M L (same_regs_refl s)). reflexivity.
  - apply (flist_frame s (log s e) M fl F); auto.
Qed.

Lemma find_fit_head (fuel : nat) (s : state) (M : bmap) (fl : list Z) (p total asize : Z) :
  heap_rep s M (p :: fl) -> M p = Some (total, false) -> asize <= total ->
  find_fit (S fuel) s asize = Some p.
Proof.
  intros [L F _ _] Hp Hle.
  destruct (flist_succ_chain _ _ _ L F) as (C1 & C2 & C3 & C4).
  unfold find_fit. rewrite (fl_head _ _ _ F). cbn [hd find_fit_loop].
  replace (0 <=? m_freecount s) with true by (symmetry; apply Z.leb_le; lia).
  replace (p =? NULL) with false
    by (symmetry; apply Z.eqb_neq; apply C3; left; reflexivity).
  rewrite (read_hdr_alloc _ _ L _ _ _ Hp), (read_hdr_size _ _ L _ _ _ Hp).
  replace (asize <=? total) with true by (symmetry; apply Z.leb_le; lia).
  reflexivity.
Qed.

(** X4.  [mm_malloc] on a quiescent heap, for a request of at most 2^32 - 16
    bytes, always returns; the heap is quiescent again afterwards, and a
    pointer other than NULL is 8-byte aligned and is the payload of an
    allocated block that lies inside the heap, has matching header and
    footer and has room for the [size] requested bytes after the 8 bytes
    of overhead. *)
Theorem mm_malloc_returns_aligned_block (fuel : nat) (s : state) (M : bmap) (fl : list Z)
        (size : Z) :
  heap_rep s M fl -> 0 < size <= WORD - 16 -> m_freecount s < Z.of_nat fuel ->
  exists p s',
    mm_malloc fuel s size = Some (p, s') /\
    heap_ok s' /\
    (p <> NULL ->
     p mod 8 = 0 /\
     GET_ALLOC s' (HDRP p) = 1 /\
     size + 8 <= GET_SIZE s' (HDRP p) /\
     GET s' (FTRP s' p) = GET s' (HDRP p) /\
     p_heap_list s' + 8 <= p /\
     p + GET_SIZE s' (HDRP p) <= mem_brk s').
Proof.
  intros HR Hsz Hfuel.
  pose proof (fuel_covers_list _ _ _ _ (hr_flist _ _ _ HR) Hfuel) as Hlen.
  destruct (mm_malloc_spec fuel s M fl size HR Hsz Hlen) as (p & s' & E & Hcase).
  destruct (adjust_size_ok size Hsz) as (A1 & A2 & A3 & A4).
  exists p, s'. split; [exact E|].
  destruct Hcase as [(Hp & _ & _ & Hs') | (Hp & Hpost & _)].
  - split; [|intros X; contradiction].
    exists M, fl. subst s'. apply heap_rep_log. exact HR.
  - destruct Hpost as (M' & fl' & bsz & HR' & Hb & Hbsz & _).
    split; [exists M', fl'; exact HR'|]. intros _.
    pose proof (hr_layout _ _ _ HR') as L'.
    destruct (layout_block _ _ _ _ _ L' Hb) as (B1 & B2 & B3 & B4 & B5 & B6 & B7 & T1 & T2).
    rewrite (read_hdr_alloc _ _ L' _ _ _ Hb), (read_hdr_size _ _ L' _ _ _ Hb).
    rewrite (read_FTRP _ _ L' _ _ _ Hb).
    rewrite HDRP_small by lia. unfold GET. rewrite T1, T2.
    repeat split; try lia.
Qed.

Lemma mm_malloc_returns_aligned_block_witness :
  heap_rep lab_heap (initial_map lab_base) [lab_base + 16] /\
  0 < 100 <= WORD - 16 /\ m_freecount lab_heap < Z.of_nat 2 /\
  exists p s',
    mm_malloc 2 lab_heap 100 = Some (p, s') /\
    heap_ok s' /\
    (p <> NULL ->
     p mod 8 = 0 /\
     GET_ALLOC s' (HDRP p) = 1 /\
     100 + 8 <= GET_SIZE s' (HDRP p) /\
     GET s' (FTRP s' p) = GET s' (HDRP p) /\
     p_heap_list s' + 8 <= p /\
     p + GET_SIZE s' (HDRP p) <= mem_brk s').
Proof.
  destruct lab_heap_rep as (HR & _).
  assert (H2 : 0 < 100 <= WORD - 16) by (unfold WORD; lia).
  assert (H3 : m_freecount lab_heap < Z.of_nat 2) by (vm_compute; reflexivity).
  split; [exact HR|]. split; [exact H2|]. split; [exact H3|].
  exact (mm_malloc_returns_aligned_block 2 lab_heap _ _ 100 HR H2 H3).
Defined.

(** X5.  [mm_malloc] leaves the live blocks alone: a block that was allocated
    before the call is still allocated with the same size, its payload
    bytes are unchanged, and the block handed out does not overlap it. *)
Theorem mm_malloc_keeps_live_blocks (fuel : nat) (s : state) (M : bmap) (fl : list Z)
        (size p : Z) (s' : state) (x szx : Z) :
  heap_rep s M fl -> 0 < size <= WORD - 16 -> m_freecount s < Z.of_nat fuel ->
  mm_malloc fuel s size = Some (p, s') ->
  M x = Some (szx, true) ->
  GET_ALLOC s' (HDRP x) = 1 /\ GET_SIZE s' (HDRP x) = szx /\
  (forall y, x <= y < x + szx - 8 -> mem s' y = mem s y) /\
  (p <> NULL -> p + GET_SIZE s' (HDRP p) <= x \/ x + szx <= p).
Proof.
  intros HR Hsz Hfuel E Hx.
  pose proof (fuel_covers_list _ _ _ _ (hr_flist _ _ _ HR) Hfuel) as Hlen.
  destruct (mm_malloc_spec fuel s M fl size HR Hsz Hlen) as (p' & s'' & E' & Hcase).
  rewrite E in E'. injection E' as <- <-.
  destruct Hcase as [(Hp & _ & _ & Hs') | (Hp & Hpost & _)].
  - pose proof (heap_rep_log s M fl (EvSbrk (Z.max (adjust_size size) CHUNKSIZE)) HR) as HR'.
    rewrite <- Hs' in HR'. pose proof (hr_layout _ _ _ HR') as L'.
    rewrite (read_hdr_alloc _ _ L' _ _ _ Hx), (read_hdr_size _ _ L' _ _ _ Hx).
    split; [reflexivity|]. split; [reflexivity|].
    split; [intros y _; subst s'; reflexivity | intros X; contradiction].
  - destruct Hpost as (M' & fl' & bsz & HR' & Hb & Hbsz & _ & _ & _ & _ & Hnew & Hkeep & Hfr).
    pose proof (hr_layout _ _ _ HR') as L'.
    assert (Hxp : x <> p) by (intros ->; exact (Hnew _ Hx)).
    assert (Hx' : M' x = Some (szx, true)) by (apply Hkeep; assumption).
    rewrite (read_hdr_alloc _ _ L' _ _ _ Hx'), (read_hdr_size _ _ L' _ _ _ Hx').
    rewrite (read_hdr_size _ _ L' _ _ _ Hb).
    split; [reflexivity|]. split; [reflexivity|].
    split; [intros y Hy; exact (Hfr _ _ _ Hx Hy)|].
    intros _. destruct (layout_apart _ _ _ _ _ _ _ _ L' Hb Hx') as [X | [X | X]];
      [congruence | left; exact X | right; exact X].
Qed.

Lemma mm_malloc_keeps_live_blocks_witness :
  heap_rep lab_one lab_one_map [lab_base + 16 + 112] /\
  0 < 24 <= WORD - 16 /\ m_freecount lab_one < Z.of_nat 2 /\
  mm_malloc 2 lab_one 24 = Some (lab_base + 128, lab_two) /\
  lab_one_map (lab_base + 16) = Some (112, true) /\
  GET_ALLOC lab_two (HDRP (lab_base + 16)) = 1 /\
  GET_SIZE lab_two (HDRP (lab_base + 16)) = 112 /\
  (forall y, lab_base + 16 <= y < lab_base + 16 + 112 - 8 ->
             mem lab_two y = mem lab_one y) /\
  (lab_base + 128 <> NULL ->
   lab_base + 128 + GET_SIZE lab_two (HDRP (lab_base + 128)) <= lab_base + 16 \/
   lab_base + 16 + 112 <= lab_base + 128).
Proof.
  pose proof lab_one_rep as HR.
  assert (H2 : 0 < 24 <= WORD - 16) by (unfold WORD; lia).
  assert (H3 : m_freecount lab_one < Z.of_nat 2) by (vm_compute; reflexivity).
  pose proof lab_two_malloc as H4.
  assert (H5 : lab_one_map (lab_base + 16) = Some (112, true)) by reflexivity.
  split; [exact HR|]. split; [exact H2|]. split; [exact H3|]. split; [exact H4|].
  split; [exact H5|].
  exact (mm_malloc_keeps_live_blocks 2 lab_one _ _ 24 _ _ _ _ HR H2 H3 H4 H5).
Defined.

(** X6.  [mm_malloc] returns NULL only when memory is exhausted: on a quiescent
    heap and for a request of at most 2^32 - 16 bytes the result is NULL
    exactly when every block of the free list is smaller than the adjusted
    size and the provider has no room for the growth of
    [max(asize, CHUNKSIZE)] bytes. *)
Theorem mm_malloc_null_iff_exhausted (fuel : nat) (s : state) (M : bmap) (fl : list Z)
        (size : Z) :
  heap_rep s M fl -> 0 < size <= WORD - 16 -> m_freecount s < Z.of_nat fuel ->
  exists p s',
    mm_malloc fuel s size = Some (p, s') /\
    (p = NULL <->
     (forall f, In f fl -> GET_SIZE s (HDRP f) < adjust_size size) /\
     mem_max_addr s < mem_brk s + Z.max (adjust_size size) CHUNKSIZE).
Proof.
  intros HR Hsz Hfuel.
  pose proof (fuel_covers_list _ _ _ _ (hr_flist _ _ _ HR) Hfuel) as Hlen.
  destruct (mm_malloc_spec fuel s M fl size HR Hsz Hlen) as (p & s' & E & Hcase).
  exists p, s'. split; [exact E|].
  pose proof (hr_layout _ _ _ HR) as L. pose proof (hr_flist _ _ _ HR) as F.
  destruct (flist_succ_chain _ _ _ L F) as (C1 & C2 & C3 & C4).
  destruct Hcase as [(Hp & Hnf & Hfull & _) | (Hp & Hpost & Hfit & Hgrow)].
  - split; [intros _ | intros _; exact Hp].
    split; [|exact Hfull].
    apply first_fit_none; assumption.
  - split; [intros X; contradiction|].
    intros [Hnone Hfull]. exfalso.
    destruct (Z.eq_dec (first_fit s fl (adjust_size size)) NULL) as [Hnf | Hf].
    + destruct Hpost as (M' & fl' & bsz & HR' & _ & _ & _ & Hmx & _).
      pose proof (lay_brk _ _ (hr_layout _ _ _ HR')) as (_ & B & _).
      rewrite (Hgrow Hnf), Hmx in B. lia.
    + destruct (first_fit_found s fl (adjust_size size) _ eq_refl Hf)
        as (l1 & l2 & Efl & Hge & _).
      assert (Hin : In (first_fit s fl (adjust_size size)) fl).
      { rewrite Efl at 2. apply in_or_app. right. left. reflexivity. }
      specialize (Hnone _ Hin). lia.
Qed.

Lemma mm_malloc_null_iff_exhausted_witness :
  heap_rep lab_heap (initial_map lab_base) [lab_base + 16] /\
  0 < 100 <= WORD - 16 /\ m_freecount lab_heap < Z.of_nat 2 /\
  exists p s',
    mm_malloc 2 lab_heap 100 = Some (p, s') /\
    (p = NULL <->
     (forall f, In f [lab_base + 16] -> GET_SIZE lab_heap (HDRP f) < adjust_size 100) /\
     mem_max_addr lab_heap < mem_brk lab_heap + Z.max (adjust_size 100) CHUNKSIZE).
Proof.
  destruct lab_heap_rep as (HR & _).
  assert (H2 : 0 < 100 <= WORD - 16) by (unfold WORD; lia).
  assert (H3 : m_freecount lab_heap < Z.of_nat 2) by (vm_compute; reflexivity).
  split; [exact HR|]. split; [exact H2|]. split; [exact H3|].
  exact (mm_malloc_null_iff_exhausted 2 lab_heap _ _ 100 HR H2 H3).
Defined.

(** ** The size adjustment of [mm_malloc] and its wrap-around *)

(** X7.  For a request of at most 2^32 - 16 bytes the adjusted block size is a
    multiple of 8, at least the minimum block size of 16, and holds the
    request and the 8 bytes of overhead with less than 8 bytes to spare. *)
Theorem adjust_size_fits_request (size : Z) :
  0 < size <= WORD - 16 ->
  adjust_size size mod 8 = 0 /\ 16 <= adjust_size size /\
  size + OVERHEAD <= adjust_size size < size + OVERHEAD + DSIZE.
Proof.
  intros H. destruct (adjust_size_ok size H) as (A1 & A2 & A3 & A4).
  unfold OVERHEAD, DSIZE. lia.
Qed.

Lemma adjust_size_fits_request_witness :
  0 < 100 <= WORD - 16 /\
  adjust_size 100 mod 8 = 0 /\ 16 <= adjust_size 100 /\
  100 + OVERHEAD <= adjust_size 100 < 100 + OVERHEAD + DSIZE.
Proof.
  assert (H : 0 < 100 <= WORD - 16) by (unfold WORD; lia).
  split; [exact H|]. exact (adjust_size_fits_request 100 H).
Defined.

Lemma adjust_size_wrap_values (size : Z) :
  WORD - 16 < size < WORD ->
  (size <= WORD - 8 -> adjust_size size = 0) /\
  (WORD - 8 < size -> adjust_size size = 8).
Proof.
  intros H. unfold adjust_size, DSIZE, OVERHEAD.
  replace (size <=? 8) with false by (symmetry; apply Z.leb_gt; unfold WORD in *; lia).
  unfold wmul, wadd, wrap, WORD in *. split; intros X.
  - assert (E : ((size + 8) mod 4294967296 + (8 - 1)) mod 4294967296 / 8 = 0) by lia.
    rewrite E. reflexivity.
  - assert (E : ((size + 8) mod 4294967296 + (8 - 1)) mod 4294967296 / 8 = 1) by lia.
    rewrite E. reflexivity.
Qed.

(** X8.  The adjustment is computed in 32-bit arithmetic without a check: for
    a request above 2^32 - 16 bytes it wraps around, and the adjusted
    size is 0 (up to 2^32 - 8) or 8 (above), less than the minimum
    block size and less than the request. *)
Theorem adjust_size_wraps_around (size : Z) :
  WORD - 16 < size < WORD ->
  adjust_size size = (if size <=? WORD - 8 then 0 else 8) /\
  adjust_size size < 16 /\ adjust_size size < size.
Proof.
  intros H. destruct (adjust_size_wrap_values size H) as [A B].
  destruct (Z.leb_spec size (WORD - 8)) as [X | X].
  - rewrite (A X). unfold WORD in *. lia.
  - rewrite (B X). unfold WORD in *. lia.
Qed.

Lemma adjust_size_wraps_around_witness :
  WORD - 16 < 4294967295 < WORD /\
  adjust_size 4294967295 = (if 4294967295 <=? WORD - 8 then 0 else 8) /\
  adjust_size 4294967295 < 16 /\ adjust_size 4294967295 < 4294967295.
Proof.
  assert (H : WORD - 16 < 4294967295 < WORD) by (unfold WORD; lia).
  split; [exact H|]. exact (adjust_size_wraps_around 4294967295 H).
Defined.

Lemma find_fit_at_head (fuel : nat) (s : state) (asize : Z) :
  0 <= m_freecount s -> mp_firstfreeblock s <> NULL ->
  GET_ALLOC s (HDRP (mp_firstfreeblock s)) = 0 ->
  asize <= GET_SIZE s (HDRP (mp_firstfreeblock s)) ->
  find_fit (S fuel) s asize = Some (mp_firstfreeblock s).
Proof.
  intros Hc Hn Ha Hs. unfold find_fit. cbn [find_fit_loop].
  replace (0 <=? m_freecount s) with true by (symmetry; apply Z.leb_le; lia).
  replace (mp_firstfreeblock s =? NULL) with false
    by (symmetry; apply Z.eqb_neq; exact Hn).
  rewrite Ha.
  replace (asize <=? GET_SIZE s (HDRP (mp_firstfreeblock s))) with true
    by (symmetry; apply Z.leb_le; lia).
  reflexivity.
Qed.

(** X9.  A request above 2^32 - 16 bytes is not refused.  On a quiescent heap
    with a non-empty free list [mm_malloc] returns the head of the free
    list, since every free block is at least as large as the wrapped
    adjusted size, although that block is smaller than the request; the
    heap is not grown. *)
Theorem mm_malloc_oversized_request_succeeds (fuel : nat) (s : state) (M : bmap)
        (b : Z) (fl : list Z) (size : Z) :
  heap_rep s M (b :: fl) -> WORD - 16 < size < WORD -> (0 < fuel)%nat ->
  exists s',
    mm_malloc fuel s size = Some (b, s') /\
    b <> NULL /\
    GET_SIZE s (HDRP b) < size /\
    mem_brk s' = mem_brk s.
Proof.
  intros HR Hsz Hfuel. destruct fuel as [|fuel]; [lia|].
  pose proof (hr_layout _ _ _ HR) as L. pose proof (hr_flist _ _ _ HR) as F.
  destruct (fl_free _ _ _ F b (or_introl eq_refl)) as [csz Hb].
  destruct (layout_block _ _ _ _ _ L Hb) as (B1 & B2 & B3 & B4 & B5 & B6 & B7 & _).
  destruct (adjust_size_wrap_values size Hsz) as [A0 A8].
  assert (A : adjust_size size < 16).
  { destruct (Z.le_gt_cases size (WORD - 8)) as [X | X];
      [rewrite (A0 X) | rewrite (A8 X)]; lia. }
  assert (Hle : adjust_size size <= csz) by lia.
  pose proof (find_fit_head fuel _ _ _ _ _ _ HR Hb Hle) as Hff.
  exists (place s b (adjust_size size)).
  split; [|split; [unfold NULL; lia | split]].
  - unfold mm_malloc.
    replace (size <=? 0) with false by (symmetry; apply Z.leb_gt; unfold WORD in *; lia).
    rewrite Hff.
    replace (b =? NULL) with false by (symmetry; apply Z.eqb_neq; unfold NULL; lia).
    reflexivity.
  - rewrite (read_hdr_size _ _ L _ _ _ Hb). unfold WORD in *. lia.
  - apply place_regs.
Qed.

Lemma mm_malloc_oversized_request_succeeds_witness :
  heap_rep lab_heap (initial_map lab_base) [lab_base + 16] /\
  WORD - 16 < 4294967295 < WORD /\ (0 < 1)%nat /\
  exists s',
    mm_malloc 1 lab_heap 4294967295 = Some (lab_base + 16, s') /\
    lab_base + 16 <> NULL /\
    GET_SIZE lab_heap (HDRP (lab_base + 16)) < 4294967295 /\
    mem_brk s' = mem_brk lab_heap.
Proof.
  destruct lab_heap_rep as (HR & _).
  assert (H2 : WORD - 16 < 4294967295 < WORD) by (unfold WORD; lia).
  assert (H3 : (0 < 1)%nat) by lia.
  split; [exact HR|]. split; [exact H2|]. split; [exact H3|].
  exact (mm_malloc_oversized_request_succeeds 1 lab_heap _ _ _ 4294967295 HR H2 H3).
Defined.

Lemma free_block_header_kept (s : state) (b : Z) :
  8 <= b -> b + 8 < WORD ->
  mp_firstfreeblock s + 4 <= b - 4 \/ b <= mp_firstfreeblock s ->
  mp_firstfreeblock (free_block s b) = b /\
  m_freecount (free_block s b) = m_freecount s + 1 /\
  load (mem (free_block s b)) (b - 4) = load (mem s) (b - 4).
Proof.
  intros Hb Hw Hh.
  assert (Hsuc : SUC_PTR b = b + 4) by (apply SUC_PTR_small; lia).
  unfold free_block. cbn [mp_firstfreeblock p_heap_list m_freecount set_freecount log].
  destruct ((mp_firstfreeblock s =? p_heap_list s) || (mp_firstfreeblock s =? NULL));
    st_simpl; rewrite Hsuc; (split; [reflexivity|]); (split; [reflexivity|]); ld.
Qed.

Lemma place_zero_result (s : state) (M : bmap) (b : Z) (fl : list Z) (csz : Z) :
  heap_rep s M (b :: fl) -> M b = Some (csz, false) ->
  mp_firstfreeblock (place s b 0) = b /\
  0 <= m_freecount (place s b 0) /\
  load (mem (place s b 0)) (b - 4) = csz.
Proof.
  intros HR Hb. pose proof (hr_layout _ _ _ HR) as L. pose proof (hr_flist _ _ _ HR) as F.
  destruct (layout_block _ _ _ _ _ L Hb) as (B1 & B2 & B3 & B4 & B5 & B6 & B7 & T1 & T2).
  destruct (allocate_block_spec s M [] fl b L F) as (L1 & F1 & (R1 & R2 & R3) & _).
  cbn [app] in F1.
  unfold place. rewrite (read_hdr_size _ _ L _ _ _ Hb).
  rewrite (wsub_small csz 0) by lia. rewrite Z.sub_0_r.
  replace (DSIZE + OVERHEAD <=? csz) with true
    by (symmetry; apply Z.leb_le; unfold DSIZE, OVERHEAD; lia).
  set (s1 := allocate_block s b) in *.
  rewrite HDRP_small by lia.
  change (PACK 0 1) with 1. rewrite PACK_free.
  set (s2 := PUT s1 (b - 4) 1).
  assert (E2 : FTRP s2 b = b - 8).
  { unfold FTRP. rewrite HDRP_small by lia.
    rewrite (GET_SIZE_tag s2 (b - 4) 0 true); try lia.
    - unfold DSIZE. rewrite wadd_small by lia. rewrite Z.add_0_r.
      apply wsub_small. lia.
    - unfold s2. st_simpl. rewrite load_store_same. reflexivity. }
  rewrite E2. set (s3 := PUT s2 (b - 8) 1).
  assert (E3 : NEXT_BLKP s3 b = b).
  { assert (X : NEXT_BLKP s3 b = b + 0); [|rewrite X; lia].
    apply (NEXT_BLKP_raw s3 b 0 true); try lia.
    unfold s3, s2. st_simpl. ld. }
  rewrite E3. rewrite HDRP_small by lia.
  set (s4 := PUT s3 (b - 4) csz).
  assert (E4 : FTRP s4 b = b + csz - 8).
  { apply (FTRP_raw s4 b csz false); try lia.
    unfold s4. st_simpl. rewrite load_store_same. unfold tag. apply wrap_small. lia. }
  rewrite E4. set (s5 := PUT s4 (b + csz - 8) csz).
  assert (Hh : mp_firstfreeblock s5 + 4 <= b - 4 \/ b <= mp_firstfreeblock s5).
  { change (mp_firstfreeblock s5) with (mp_firstfreeblock s1).
    rewrite (fl_head _ _ _ F1).
    destruct fl as [|h r]; cbn [hd]; [unfold NULL; lia|].
    destruct (fl_free _ _ _ F1 h (or_introl eq_refl)) as [hsz Hh].
    assert (h <> b).
    { intros ->. pose proof (fl_nodup _ _ _ F) as N.
      apply NoDup_cons_iff in N. apply (proj1 N). left. reflexivity. }
    destruct (layout_block _ _ _ _ _ L Hh) as (C1 & C2 & C3 & _).
    destruct (layout_apart _ _ _ _ _ _ _ _ L Hb Hh) as [X | [X | X]]; lia. }
  destruct (free_block_header_kept s5 b) as (X1 & X2 & X3); try lia.
  split; [exact X1|]. split.
  - rewrite X2. change (m_freecount s5) with (m_freecount s1).
    rewrite (fl_count _ _ _ F1). lia.
  - rewrite X3. unfold s5, s4. st_simpl. ld. apply wrap_small. lia.
Qed.

(** X10.  The worst case of the wrap-around.  For a request between 2^32 - 15
    and 2^32 - 8 bytes the adjusted size is 0, and the block that
    [mm_malloc] returns is tagged free again and pushed back on the free
    list by [place]: any later request that fits the block is answered
    with the same address, so two live allocations share their memory. *)
Theorem mm_malloc_oversized_request_allocates_twice (fuel : nat) (s : state) (M : bmap)
        (b : Z) (fl : list Z) (csz size size2 : Z) :
  heap_rep s M (b :: fl) -> M b = Some (csz, false) ->
  WORD - 16 < size <= WORD - 8 -> 0 < size2 -> adjust_size size2 <= csz ->
  (0 < fuel)%nat ->
  exists s1 s2,
    mm_malloc fuel s size = Some (b, s1) /\
    mm_malloc fuel s1 size2 = Some (b, s2) /\
    b <> NULL.
Proof.
  intros HR Hb Hsz Hsz2 Hfit Hfuel. destruct fuel as [|fuel]; [lia|].
  pose proof (hr_layout _ _ _ HR) as L.
  destruct (layout_block _ _ _ _ _ L Hb) as (B1 & B2 & B3 & B4 & B5 & B6 & B7 & _).
  assert (Hsz' : WORD - 16 < size < WORD) by lia.
  destruct (adjust_size_wrap_values size Hsz') as (A0 & _).
  assert (Ha : adjust_size size = 0) by (apply A0; lia).
  assert (Hle : adjust_size size <= csz) by lia.
  pose proof (find_fit_head fuel _ _ _ _ _ _ HR Hb Hle) as Hff.
  destruct (place_zero_result s M b fl csz HR Hb) as (P1 & P2 & P3).
  assert (Hnull : b <> NULL) by (unfold NULL; lia).
  exists (place s b 0), (place (place s b 0) b (adjust_size size2)).
  split; [|split; [|exact Hnull]].
  - unfold mm_malloc.
    replace (size <=? 0) with false by (symmetry; apply Z.leb_gt; unfold WORD in *; lia).
    rewrite Hff, Ha.
    replace (b =? NULL) with false by (symmetry; apply Z.eqb_neq; exact Hnull).
    reflexivity.
  - unfold mm_malloc.
    replace (size2 <=? 0) with false by (symmetry; apply Z.leb_gt; lia).
    assert (Hh : load (mem (place s b 0)) (b - 4) = tag csz false) by exact P3.
    pose proof (find_fit_at_head fuel (place s b 0) (adjust_size size2) P2) as X.
    rewrite P1 in X. rewrite HDRP_small in X by lia.
    rewrite X.
    + replace (b =? NULL) with false by (symmetry; apply Z.eqb_neq; exact Hnull).
      reflexivity.
    + exact Hnull.
    + rewrite (GET_ALLOC_tag _ _ csz false Hh B4). reflexivity.
    + rewrite (GET_SIZE_tag _ _ csz false Hh); lia.
Qed.

Lemma mm_malloc_oversized_request_allocates_twice_witness :
  heap_rep lab_heap (initial_map lab_base) [lab_base + 16] /\
  initial_map lab_base (lab_base + 16) = Some (4096, false) /\
  WORD - 16 < 4294967281 <= WORD - 8 /\ 0 < 100 /\ adjust_size 100 <= 4096 /\
  (0 < 1)%nat /\
  exists s1 s2,
    mm_malloc 1 lab_heap 4294967281 = Some (lab_base + 16, s1) /\
    mm_malloc 1 s1 100 = Some (lab_base + 16, s2) /\
    lab_base + 16 <> NULL.
Proof.
  destruct lab_heap_rep as (HR & _).
  assert (H2 : initial_map lab_base (lab_base + 16) = Some (4096, false)) by reflexivity.
  assert (H3 : WORD - 16 < 4294967281 <= WORD - 8) by (unfold WORD; lia).
  assert (H4 : 0 < 100) by lia.
  assert (H5 : adjust_size 100 <= 4096) by (vm_compute; discriminate).
  assert (H6 : (0 < 1)%nat) by lia.
  split; [exact HR|]. split; [exact H2|]. split; [exact H3|]. split; [exact H4|].
  split; [exact H5|]. split; [exact H6|].
  exact (mm_malloc_oversized_request_allocates_twice 1 lab_heap _ _ _ 4096 4294967281 100
           HR H2 H3 H4 H5 H6).
Defined.

(** ** Freeing on a quiescent heap *)

Lemma mm_free_covers (s : state) (M : bmap) (fl : list Z) (bp sz : Z) :
  heap_rep s M fl -> M bp = Some (sz, true) ->
  exists M' fl' r total,
    heap_rep (mm_free s bp) M' (r :: fl') /\
    M' r = Some (total, false) /\
    r <= bp /\ bp + sz <= r + total /\
    (prev_allocated M bp -> r = bp) /\
    same_regs s (mm_free s bp).
Proof.
  intros HR Hb. pose proof (hr_layout _ _ _ HR) as L.
  pose proof (lay_tiling _ _ L) as T.
  rewrite (mm_free_eval _ _ _ _ L Hb).
  destruct (free_tags_pending _ _ _ _ _ HR Hb) as (P & R & Fr).
  set (s2 := PUT (PUT s (bp - 4) sz) (bp + sz - 8) sz) in *.
  destruct (coalesce_covers _ _ _ _ _ P)
    as (r & s' & E & (M' & fl' & total & HR' & Hr & C1 & C2 & Hpa & R' & _)).
  rewrite E. cbn [snd].
  exists M', fl', r, total.
  split; [exact HR'|]. split; [exact Hr|]. split; [exact C1|]. split; [exact C2|].
  split; [|exact (same_regs_trans _ _ _ R R')].
  intros X. apply Hpa. intros b' sz' Hb' Eb'. unfold retag_map in Hb'.
  destruct (Z.eq_dec b' bp) as [-> | N].
  - rewrite bupd_same in Hb'. injection Hb' as <-. saturate T. lia.
  - rewrite bupd_other in Hb'; auto. exact (X _ _ Hb' Eb').
Qed.

(** X11.  [mm_free] of an allocated block leaves a quiescent heap whose bounds
    are unchanged.  The freed block ends up inside a free block that is
    the new head of the free list (LIFO) and whose physical neighbours are
    both allocated; that block starts at the freed block itself when the
    block before it is allocated. *)
Theorem mm_free_lists_merged_block (s : state) (M : bmap) (fl : list Z) (bp sz : Z) :
  heap_rep s M fl -> M bp = Some (sz, true) ->
  let s' := mm_free s bp in
  let r := mp_firstfreeblock s' in
  heap_ok s' /\
  mem_brk s' = mem_brk s /\ p_heap_list s' = p_heap_list s /\
  r <> NULL /\ GET_ALLOC s' (HDRP r) = 0 /\ PREV s' r = NULL /\
  r <= bp /\ bp + sz <= r + GET_SIZE s' (HDRP r) /\
  GET_ALLOC s' (HDRP (NEXT_BLKP s' r)) = 1 /\
  GET_ALLOC s' (FTRP s' (PREV_BLKP s' r)) = 1 /\
  (GET_ALLOC s (FTRP s (PREV_BLKP s bp)) = 1 -> r = bp) /\
  0 < m_freecount s'.
Proof.
  intros HR Hb s' r.
  destruct (mm_free_covers s M fl bp sz HR Hb)
    as (M' & fl' & r0 & total & HR' & Hr & C1 & C2 & Hrp & (R1 & R2 & R3)).
  fold s' in HR', R1, R2, R3.
  pose proof (hr_layout _ _ _ HR') as L'. pose proof (hr_flist _ _ _ HR') as F'.
  assert (Hhd : r = r0) by (unfold r; rewrite (fl_head _ _ _ F'); reflexivity).
  rewrite Hhd. clear Hhd r.
  destruct (layout_block _ _ _ _ _ L' Hr) as (B1 & B2 & B3 & B4 & B5 & B6 & B7 & _).
  destruct (free_neighbours_allocated _ _ _ _ _ HR' Hr) as (N1 & N2 & N3).
  rewrite (read_hdr_size _ _ L' _ _ _ Hr).
  split; [exists M', (r0 :: fl'); exact HR'|].
  split; [exact R1|]. split; [exact R3|].
  split; [unfold NULL; lia|]. split; [exact N1|].
  split.
  { pose proof (fl_links _ _ _ F') as D. cbn [dlseg] in D. unfold PREV. apply D. }
  split; [exact C1|]. split; [exact C2|]. split; [exact N2|]. split; [exact N3|].
  split.
  { intros Ha. apply Hrp.
    destruct (prev_view _ _ _ _ _ (hr_layout _ _ _ HR) Hb) as [[_ X] | (b' & sz' & X & _)];
      [exact X | rewrite X in Ha; discriminate]. }
  rewrite (fl_count _ _ _ F'). cbn [length]. lia.
Qed.

Lemma mm_free_lists_merged_block_witness :
  heap_rep lab_two lab_two_map [lab_base + 128 + 32] /\
  lab_two_map (lab_base + 128) = Some (32, true) /\
  let s' := mm_free lab_two (lab_base + 128) in
  let r := mp_firstfreeblock s' in
  heap_ok s' /\
  mem_brk s' = mem_brk lab_two /\ p_heap_list s' = p_heap_list lab_two /\
  r <> NULL /\ GET_ALLOC s' (HDRP r) = 0 /\ PREV s' r = NULL /\
  r <= lab_base + 128 /\ lab_base + 128 + 32 <= r + GET_SIZE s' (HDRP r) /\
  GET_ALLOC s' (HDRP (NEXT_BLKP s' r)) = 1 /\
  GET_ALLOC s' (FTRP s' (PREV_BLKP s' r)) = 1 /\
  (GET_ALLOC lab_two (FTRP lab_two (PREV_BLKP lab_two (lab_base + 128))) = 1 ->
   r = lab_base + 128) /\
  0 < m_freecount s'.
Proof.
  pose proof lab_two_rep as HR.
  assert (H2 : lab_two_map (lab_base + 128) = Some (32, true)) by reflexivity.
  split; [exact HR|]. split; [exact H2|].
  exact (mm_free_lists_merged_block lab_two _ _ (lab_base + 128) 32 HR H2).
Defined.

(** X12.  [mm_free] leaves the other live blocks alone: every other allocated
    block is still allocated with the same size and its payload bytes are
    unchanged. *)
Theorem mm_free_keeps_live_blocks (s : state) (M : bmap) (fl : list Z)
        (bp sz x szx : Z) :
  heap_rep s M fl -> M bp = Some (sz, true) ->
  M x = Some (szx, true) -> x <> bp ->
  GET_ALLOC (mm_free s bp) (HDRP x) = 1 /\
  GET_SIZE (mm_free s bp) (HDRP x) = szx /\
  (forall y, x <= y < x + szx - 8 -> mem (mm_free s bp) y = mem s y).
Proof.
  intros HR Hb Hx Hne.
  destruct (mm_free_spec s M fl bp sz HR Hb)
    as (M' & fl' & r & total & HR' & _ & _ & _ & _ & Hkeep & _ & Hfr).
  pose proof (hr_layout _ _ _ HR') as L'.
  assert (Hx' : M' x = Some (szx, true)) by (apply Hkeep; assumption).
  rewrite (read_hdr_alloc _ _ L' _ _ _ Hx'), (read_hdr_size _ _ L' _ _ _ Hx').
  split; [reflexivity|]. split; [reflexivity|].
  intros y Hy. exact (Hfr _ _ _ Hx Hne Hy).
Qed.

Lemma mm_free_keeps_live_blocks_witness :
  heap_rep lab_two lab_two_map [lab_base + 128 + 32] /\
  lab_two_map (lab_base + 16) = Some (112, true) /\
  lab_two_map (lab_base + 128) = Some (32, true) /\
  lab_base + 128 <> lab_base + 16 /\
  GET_ALLOC (mm_free lab_two (lab_base + 16)) (HDRP (lab_base + 128)) = 1 /\
  GET_SIZE (mm_free lab_two (lab_base + 16)) (HDRP (lab_base + 128)) = 32 /\
  (forall y, lab_base + 128 <= y < lab_base + 128 + 32 - 8 ->
             mem (mm_free lab_two (lab_base + 16)) y = mem lab_two y).
Proof.
  pose proof lab_two_rep as HR.
  assert (H2 : lab_two_map (lab_base + 16) = Some (112, true)) by reflexivity.
  assert (H3 : lab_two_map (lab_base + 128) = Some (32, true)) by reflexivity.
  assert (H4 : lab_base + 128 <> lab_base + 16) by lia.
  split; [exact HR|]. split; [exact H2|]. split; [exact H3|]. split; [exact H4|].
  exact (mm_free_keeps_live_blocks lab_two _ _ (lab_base + 16) 112 (lab_base + 128) 32
           HR H2 H3 H4).
Defined.

(** ** Reuse of freed blocks *)

Lemma malloc_takes_head (fuel : nat) (s : state) (M : bmap) (fl : list Z)
      (r total size : Z) :
  heap_rep s M (r :: fl) -> M r = Some (total, false) ->
  0 < size <= WORD - 16 -> adjust_size size <= total -> (0 < fuel)%nat ->
  mm_malloc fuel s size = Some (r, place s r (adjust_size size)) /\
  mem_brk (place s r (adjust_size size)) = mem_brk s /\
  heap_ok (place s r (adjust_size size)).
Proof.
  intros HR Hr Hsz Hle Hfuel.
  destruct fuel as [|fuel]; [lia|].
  pose proof (find_fit_head fuel _ _ _ _ _ _ HR Hr Hle) as Hff.
  destruct (adjust_size_ok size Hsz) as (A1 & A2 & _).
  destruct (place_spec s M [] fl r total (adjust_size size) HR Hr A1 A2 Hle)
    as (M' & fl' & bsz & HR' & _ & _ & (P1 & P2 & P3) & _).
  pose proof (hr_layout _ _ _ HR) as L.
  destruct (layout_block _ _ _ _ _ L Hr) as (B1 & _ & _ & _ & _ & _ & B7 & _).
  split; [|split; [exact P1 | exists M', fl'; exact HR']].
  unfold mm_malloc.
  replace (size <=? 0) with false by (symmetry; apply Z.leb_gt; lia).
  rewrite Hff.
  replace (r =? NULL) with false by (symmetry; apply Z.eqb_neq; unfold NULL; lia).
  reflexivity.
Qed.

(** X13.  A freed block is the first candidate of the next allocation: after
    [mm_free] of an allocated block of [sz] bytes, an [mm_malloc] whose
    adjusted size is at most [sz] returns the head of the free list, which
    holds the freed bytes, and does not grow the heap. *)
Theorem mm_free_then_malloc_reuses (fuel : nat) (s : state) (M : bmap) (fl : list Z)
        (bp sz size : Z) :
  heap_rep s M fl -> M bp = Some (sz, true) ->
  0 < size <= WORD - 16 -> adjust_size size <= sz -> (0 < fuel)%nat ->
  let s1 := mm_free s bp in
  let r := mp_firstfreeblock s1 in
  mm_malloc fuel s1 size = Some (r, place s1 r (adjust_size size)) /\
  r <> NULL /\
  (GET_ALLOC s (FTRP s (PREV_BLKP s bp)) = 1 -> r = bp) /\
  mem_brk (place s1 r (adjust_size size)) = mem_brk s /\
  heap_ok (place s1 r (adjust_size size)).
Proof.
  intros HR Hb Hsz Hle Hfuel s1 r.
  destruct (mm_free_spec s M fl bp sz HR Hb)
    as (M' & fl' & r' & total & HR' & Hr & Htot & Hrp & (R1 & R2 & R3) & _).
  fold s1 in HR', R1, R2, R3.
  pose proof (hr_layout _ _ _ HR') as L'. pose proof (hr_flist _ _ _ HR') as F'.
  assert (Hhd : r = r') by (unfold r; rewrite (fl_head _ _ _ F'); reflexivity).
  rewrite Hhd.
  assert (Hle' : adjust_size size <= total) by lia.
  destruct (malloc_takes_head fuel s1 M' fl' r' total size HR' Hr Hsz Hle' Hfuel)
    as (E & Hbrk & Hok).
  destruct (layout_block _ _ _ _ _ L' Hr) as (B1 & _ & _ & _ & _ & _ & B7 & _).
  split; [exact E|]. split; [unfold NULL; lia|].
  split; [|split; [rewrite Hbrk; exact R1 | exact Hok]].
  intros Ha. apply Hrp.
  destruct (prev_view _ _ _ _ _ (hr_layout _ _ _ HR) Hb) as [[_ X] | (b' & sz' & X & _)];
    [exact X | rewrite X in Ha; discriminate].
Qed.

Lemma mm_free_then_malloc_reuses_witness :
  heap_rep lab_two lab_two_map [lab_base + 128 + 32] /\
  lab_two_map (lab_base + 16) = Some (112, true) /\
  0 < 50 <= WORD - 16 /\ adjust_size 50 <= 112 /\ (0 < 1)%nat /\
  let s1 := mm_free lab_two (lab_base + 16) in
  let r := mp_firstfreeblock s1 in
  mm_malloc 1 s1 50 = Some (r, place s1 r (adjust_size 50)) /\
  r <> NULL /\
  (GET_ALLOC lab_two (FTRP lab_two (PREV_BLKP lab_two (lab_base + 16))) = 1 ->
   r = lab_base + 16) /\
  mem_brk (place s1 r (adjust_size 50)) = mem_brk lab_two /\
  heap_ok (place s1 r (adjust_size 50)).
Proof.
  pose proof lab_two_rep as HR.
  assert (H2 : lab_two_map (lab_base + 16) = Some (112, true)) by reflexivity.
  assert (H3 : 0 < 50 <= WORD - 16) by (unfold WORD; lia).
  assert (H4 : adjust_size 50 <= 112) by (vm_compute; discriminate).
  assert (H5 : (0 < 1)%nat) by lia.
  split; [exact HR|]. split; [exact H2|]. split; [exact H3|]. split; [exact H4|].
  split; [exact H5|].
  exact (mm_free_then_malloc_reuses 1 lab_two _ _ (lab_base + 16) 112 50 HR H2 H3 H4 H5).
Defined.

(** X14.  Allocate, free, allocate: when [mm_malloc(size)] on a quiescent heap
    returns a block, freeing that block and asking for [size] bytes again
    returns the same address, and the second call does not grow the heap. *)
Theorem malloc_free_malloc_same_block (fuel : nat) (s : state) (M : bmap) (fl : list Z)
        (size p : Z) (s1 : state) :
  heap_rep s M fl -> 0 < size <= WORD - 16 -> m_freecount s < Z.of_nat fuel ->
  mm_malloc fuel s size = Some (p, s1) -> p <> NULL ->
  exists s3,
    mm_malloc fuel (mm_free s1 p) size = Some (p, s3) /\
    mem_brk s3 = mem_brk s1 /\
    heap_ok s3.
Proof.
  intros HR Hsz Hfuel E Hp.
  pose proof (fuel_covers_list _ _ _ _ (hr_flist _ _ _ HR) Hfuel) as Hlen.
  destruct (mm_malloc_spec fuel s M fl size HR Hsz Hlen) as (p' & s' & E' & Hcase).
  rewrite E in E'. injection E' as <- <-.
  destruct Hcase as [(X & _) | (_ & Hpost & _)]; [contradiction|].
  destruct Hpost as (M1 & fl1 & bsz & HR1 & Hb1 & Hb & _ & _ & _ & Hpa & _).
  destruct (mm_free_spec s1 M1 fl1 p bsz HR1 Hb1)
    as (M2 & fl2 & r & total & HR2 & Hr & Htot & Hrp & (R1 & R2 & R3) & _).
  rewrite (Hrp Hpa) in *.
  assert (Hle : adjust_size size <= total) by lia.
  assert (Hf : (0 < fuel)%nat) by lia.
  destruct (malloc_takes_head fuel _ M2 fl2 p total size HR2 Hr Hsz Hle Hf)
    as (E2 & Hbrk & Hok).
  exists (place (mm_free s1 p) p (adjust_size size)).
  split; [exact E2|]. split; [rewrite Hbrk; exact R1 | exact Hok].
Qed.

Lemma malloc_free_malloc_same_block_witness :
  heap_rep lab_heap (initial_map lab_base) [lab_base + 16] /\
  0 < 100 <= WORD - 16 /\ m_freecount lab_heap < Z.of_nat 2 /\
  mm_malloc 2 lab_heap 100 = Some (lab_base + 16, lab_one) /\
  lab_base + 16 <> NULL /\
  exists s3,
    mm_malloc 2 (mm_free lab_one (lab_base + 16)) 100 = Some (lab_base + 16, s3) /\
    mem_brk s3 = mem_brk lab_one /\
    heap_ok s3.
Proof.
  destruct lab_heap_rep as (HR & _).
  assert (H2 : 0 < 100 <= WORD - 16) by (unfold WORD; lia).
  assert (H3 : m_freecount lab_heap < Z.of_nat 2) by (vm_compute; reflexivity).
  pose proof lab_one_malloc as H4.
  assert (H5 : lab_base + 16 <> NULL) by (vm_compute; discriminate).
  split; [exact HR|]. split; [exact H2|]. split; [exact H3|]. split; [exact H4|].
  split; [exact H5|].
  exact (malloc_free_malloc_same_block 2 lab_heap _ _ 100 _ _ HR H2 H3 H4 H5).
Defined.

(** ** Writes into a payload, and [mm_realloc] *)

Lemma load_eq_bytes (m m' : memory) (q : Z) :
  (forall y, q <= y < q + 4 -> m' y = m y) -> load m' q = load m q.
Proof.
  intros H. unfold load. rewrite !H by lia. reflexivity.
Qed.

(** Whatever is written into the payload of an allocated block, the heap
    stays quiescent. *)
Lemma payload_write_keeps_heap (s s' : state) (M : bmap) (fl : list Z) (x szx : Z) :
  heap_rep s M fl -> M x = Some (szx, true) ->
  same_regs s s' ->
  mp_firstfreeblock s' = mp_firstfreeblock s -> m_freecount s' = m_freecount s ->
  (forall y, y < x \/ x + szx - 8 <= y -> mem s' y = mem s y) ->
  heap_rep s' M fl.
Proof.
  intros [L F Hl Hc] Hx R Hh Hn Hm.
  pose proof (lay_tiling _ _ L) as T.
  destruct (layout_block _ _ _ _ _ L Hx) as (A1 & A2 & A3 & A4 & A5 & A6 & A7 & _).
  constructor; auto.
  - apply (layout_frame s s' M L R).
    intros q Hq [Hc' | [Hc' | [Hc' | (b & sz & a & Hb & Hc')]]];
      apply load_eq_bytes; intros y Hy; apply Hm; try lia.
    destruct (layout_block _ _ _ _ _ L Hb) as (B1 & B2 & B3 & B4 & B5 & _).
    destruct (layout_apart _ _ _ _ _ _ _ _ L Hx Hb) as [X | [X | X]];
      [subst b; rewrite Hx in Hb; injection Hb as <- <- | |]; lia.
  - apply (flist_frame s s' M fl F Hh Hn).
    intros f Hf. destruct (fl_free _ _ _ F f Hf) as [szf Hszf].
    assert (f <> x) by (intros ->; rewrite Hx in Hszf; discriminate).
    destruct (layout_block _ _ _ _ _ L Hszf) as (B1 & B2 & B3 & B4 & B5 & _).
    destruct (layout_apart _ _ _ _ _ _ _ _ L Hx Hszf) as [X | [X | X]];
      [congruence | |];
      (split; apply load_eq_bytes; intros y Hy; apply Hm; lia).
Qed.

Lemma mm_realloc_spec (fuel : nat) (s : state) (M : bmap) (fl : list Z)
        (ptr osz size : Z) :
  heap_rep s M fl -> M ptr = Some (osz, true) ->
  0 < size <= WORD - 16 -> m_freecount s < Z.of_nat fuel ->
  (exists s', mm_realloc fuel s ptr size = Exited 1 s' /\ mem s' = mem s /\
              mem_brk s' = mem_brk s) \/
  (exists newp s',
     mm_realloc fuel s ptr size = Returned newp s' /\
     newp <> NULL /\ newp <> ptr /\ newp mod 8 = 0 /\
     (exists M' fl',
        heap_rep s' M' fl' /\
        (exists bsz, M' newp = Some (bsz, true)) /\
        (forall szx, M newp <> Some (szx, true)) /\
        (forall szx, M' ptr <> Some (szx, true)) /\
        (forall x szx, x <> ptr -> x <> newp ->
           (M x = Some (szx, true) <-> M' x = Some (szx, true)))) /\
     GET_ALLOC s' (HDRP newp) = 1 /\ size + 8 <= GET_SIZE s' (HDRP newp) /\
     (forall i, 0 <= i < Z.min size (osz - 8) -> mem s' (newp + i) = mem s (ptr + i)) /\
     (let r := mp_firstfreeblock s' in
      GET_ALLOC s' (HDRP r) = 0 /\ r <= ptr /\ ptr + osz <= r + GET_SIZE s' (HDRP r)) /\
     (forall x szx, M x = Some (szx, true) -> x <> ptr ->
        GET_ALLOC s' (HDRP x) = 1 /\ GET_SIZE s' (HDRP x) = szx /\
        forall y, x <= y < x + szx - 8 -> mem s' y = mem s y)).
Proof.
  intros HR Hptr Hsz Hfuel.
  pose proof (fuel_covers_list _ _ _ _ (hr_flist _ _ _ HR) Hfuel) as Hlen.
  destruct (mm_malloc_spec fuel s M fl size HR Hsz Hlen) as (newp & s1 & E & Hcase).
  destruct (adjust_size_ok size Hsz) as (A1 & A2 & A3 & A4).
  unfold mm_realloc. rewrite E.
  destruct Hcase as [(Hp & _ & _ & Hs1) | (Hp & Hpost & _)].
  - left. exists s1. rewrite Hp. cbn [Z.eqb NULL]. subst s1. repeat split.
  - right.
    destruct Hpost as (M1 & fl1 & bsz & HR1 & Hb1 & Hbsz & _ & _ & _ & _ & Hnew & Hkeep & Hfr1).
    replace (newp =? NULL) with false by (symmetry; apply Z.eqb_neq; exact Hp).
    pose proof (hr_layout _ _ _ HR1) as L1. pose proof (lay_tiling _ _ L1) as T1.
    assert (Hne : ptr <> newp) by (intros <-; exact (Hnew _ Hptr)).
    assert (Hptr1 : M1 ptr = Some (osz, true)) by (apply Hkeep; assumption).
    rewrite (read_hdr_size _ _ L1 _ _ _ Hptr1).
    set (n := if size <? osz then size else osz).
    assert (Hn : Z.min size (osz - 8) <= n <= size /\ n <= osz).
    { unfold n. destruct (Z.ltb_spec size osz); lia. }
    set (s2 := memcpy s1 newp ptr n).
    destruct (layout_block _ _ _ _ _ L1 Hb1) as (B1 & B2 & B3 & B4 & B5 & B6 & B7 & _).
    destruct (layout_block _ _ _ _ _ L1 Hptr1) as (C1 & C2 & C3 & C4 & C5 & _).
    pose proof (layout_apart _ _ _ _ _ _ _ _ L1 Hb1 Hptr1) as Hap.
    assert (Hout : forall y, y < newp \/ newp + bsz - 8 <= y -> mem s2 y = mem s1 y).
    { intros y Hy. unfold s2, memcpy. st_simpl. apply copy_bytes_out. lia. }
    assert (HR2 : heap_rep s2 M1 fl1).
    { apply (payload_write_keeps_heap s1 s2 M1 fl1 newp bsz HR1 Hb1); auto.
      repeat split. }
    destruct (mm_free_spec s2 M1 fl1 ptr osz HR2 Hptr1)
      as (M3 & fl3 & r3 & total3 & HR3 & _ & _ & _ & _ & Hkeep3 & Hgone & Hfr3).
    destruct (mm_free_covers s2 M1 fl1 ptr osz HR2 Hptr1)
      as (M4 & fl4 & r4 & total4 & HR4 & Hr4 & D1 & D2 & _).
    set (s3 := mm_free s2 ptr) in *.
    pose proof (hr_layout _ _ _ HR3) as L3.
    assert (Hb3 : M3 newp = Some (bsz, true)) by (apply Hkeep3; auto).
    exists newp, s3.
    split; [reflexivity|]. split; [exact Hp|]. split; [auto|]. split; [exact B5|].
    split.
    { exists M3, (r3 :: fl3). split; [exact HR3|]. split; [exists bsz; exact Hb3|].
      split; [exact Hnew|]. split; [exact Hgone|].
      intros x szx Hxp Hxn. rewrite <- (Hkeep3 x szx Hxp). apply Hkeep. exact Hxn. }
    rewrite (read_hdr_alloc _ _ L3 _ _ _ Hb3), (read_hdr_size _ _ L3 _ _ _ Hb3).
    split; [reflexivity|]. split; [lia|].
    split.
    { intros i Hi.
      rewrite (Hfr3 newp bsz (newp + i) Hb1) by (auto; lia).
      unfold s2, memcpy. st_simpl.
      rewrite copy_bytes_in by lia.
      replace (ptr + (newp + i - newp)) with (ptr + i) by lia.
      apply (Hfr1 ptr osz). { exact Hptr. } lia. }
    split.
    { pose proof (hr_layout _ _ _ HR4) as L4.
      rewrite (fl_head _ _ _ (hr_flist _ _ _ HR4)). cbn [hd].
      rewrite (read_hdr_alloc _ _ L4 _ _ _ Hr4), (read_hdr_size _ _ L4 _ _ _ Hr4).
      split; [reflexivity|]. split; [exact D1 | exact D2]. }
    intros x szx Hx Hxp.
    assert (Hxn : x <> newp) by (intros ->; exact (Hnew _ Hx)).
    assert (Hx1 : M1 x = Some (szx, true)) by (apply Hkeep; assumption).
    assert (Hx3 : M3 x = Some (szx, true)) by (apply Hkeep3; assumption).
    rewrite (read_hdr_alloc _ _ L3 _ _ _ Hx3), (read_hdr_size _ _ L3 _ _ _ Hx3).
    split; [reflexivity|]. split; [reflexivity|].
    intros y Hy.
    rewrite (Hfr3 x szx y Hx1 Hxp Hy).
    rewrite Hout.
    + exact (Hfr1 x szx y Hx Hy).
    + destruct (layout_block _ _ _ _ _ L1 Hx1) as (X1 & X2 & X3 & _).
      destruct (layout_apart _ _ _ _ _ _ _ _ L1 Hb1 Hx1) as [X | [X | X]];
        [congruence | lia | lia].
Qed.




(** ** Every reachable heap is quiescent *)

(** The heaps a client can reach, with the addresses it holds: [mm_init]
    on a provider with room, then any sequence of [mm_malloc] and
    [mm_realloc] with sizes between 1 and 2^32 - 16, [mm_free] and
    [mm_realloc] of addresses it holds, and word stores into the payloads
    of blocks it holds. *)
Inductive reach : state -> list Z -> Prop :=
| reach_init m base limit :
    0 < base -> base mod 8 = 0 -> base + 16 + CHUNKSIZE <= limit -> limit < WORD ->
    reach (snd (mm_init (fresh m base limit))) []
| reach_malloc fuel s live size p s' :
    reach s live ->
    0 < size <= WORD - 16 -> m_freecount s < Z.of_nat fuel ->
    mm_malloc fuel s size = Some (p, s') ->
    reach s' (if p =? NULL then live else p :: live)
| reach_free s live p :
    reach s live -> In p live ->
    reach (mm_free s p) (filter (fun x => negb (x =? p)) live)
| reach_realloc fuel s live p size newp s' :
    reach s live -> In p live ->
    0 < size <= WORD - 16 -> m_freecount s < Z.of_nat fuel ->
    mm_realloc fuel s p size = Returned newp s' ->
    reach s' (newp :: filter (fun x => negb (x =? p)) live)
| reach_store s live p a v :
    reach s live -> In p live ->
    p <= a -> a + 4 <= p + GET_SIZE s (HDRP p) - 8 ->
    reach (client_store s a v) live.

(** The held addresses are the allocated blocks of the heap. *)
Definition holds (M : bmap) (live : list Z) : Prop :=
  NoDup live /\ forall p, In p live <-> exists sz, M p = Some (sz, true).

Lemma filter_neq_In (p x : Z) (l : list Z) :
  In x (filter (fun y => negb (y =? p)) l) <-> In x l /\ x <> p.
Proof.
  rewrite filter_In. split; intros [A B]; (split; [exact A|]).
  - intros ->. rewrite Z.eqb_refl in B. discriminate.
  - apply negb_true_iff. apply Z.eqb_neq. exact B.
Qed.

Lemma reach_heap_rep (s : state) (live : list Z) :
  reach s live -> exists M fl, heap_rep s M fl /\ holds M live.
Proof.
  induction 1 as [m base limit H1 H2 H3 H4
                 | fuel s live size p s' Hr IH Hsz Hfuel E
                 | s live p Hr IH Hp
                 | fuel s live p size newp s' Hr IH Hp Hsz Hfuel E
                 | s live p a v Hr IH Hp Ha1 Ha2].
  - destruct (mm_init_spec m base limit H1 H2 H3 H4) as (s0 & E & HR & _).
    rewrite E. cbn [snd]. exists (initial_map base), [base + 16].
    split; [exact HR|]. split; [constructor|].
    intros p. split; [intros [] | intros (sz & X)].
    unfold initial_map, bupd, empty_map in X.
    destruct (p =? base + 16); discriminate.
  - destruct IH as (M & fl & HR & Hnd & Hlive).
    pose proof (fuel_covers_list _ _ _ _ (hr_flist _ _ _ HR) Hfuel) as Hlen.
    destruct (mm_malloc_spec fuel s M fl size HR Hsz Hlen) as (p' & s'' & E' & Hcase).
    rewrite E in E'. injection E' as <- <-.
    destruct Hcase as [(Hp & _ & _ & Hs') | (Hp & Hpost & _)].
    + rewrite Hp. cbn [Z.eqb NULL]. exists M, fl.
      split; [subst s'; apply heap_rep_log; exact HR|]. split; assumption.
    + replace (p =? NULL) with false by (symmetry; apply Z.eqb_neq; exact Hp).
      destruct Hpost as (M' & fl' & bsz & HR' & Hb & _ & _ & _ & _ & _ & Hnew & Hkeep & _).
      exists M', fl'. split; [exact HR'|]. split.
      * constructor; [|exact Hnd].
        intros X. apply Hlive in X. destruct X as (sz & X). exact (Hnew _ X).
      * intros x. split.
        -- intros [<- | X]; [eauto|].
           assert (x <> p).
           { intros ->. apply Hlive in X. destruct X as (sz & X). exact (Hnew _ X). }
           apply Hlive in X. destruct X as (sz & X). exists sz. apply Hkeep; auto.
        -- intros (sz & X). destruct (Z.eq_dec x p) as [-> | N]; [left; reflexivity|].
           right. apply Hlive. exists sz. apply Hkeep; auto.
  - destruct IH as (M & fl & HR & Hnd & Hlive).
    destruct (proj1 (Hlive p) Hp) as (sz & Hb).
    destruct (mm_free_spec s M fl p sz HR Hb)
      as (M' & fl' & r & total & HR' & _ & _ & _ & _ & Hkeep & Hgone & _).
    exists M', (r :: fl'). split; [exact HR'|]. split.
    + apply NoDup_filter. exact Hnd.
    + intros x. rewrite filter_neq_In. split.
      * intros [X N]. apply Hlive in X. destruct X as (szx & X).
        exists szx. apply Hkeep; auto.
      * intros (szx & X).
        assert (N : x <> p) by (intros ->; exact (Hgone _ X)).
        split; [|exact N]. apply Hlive. exists szx. apply Hkeep; auto.
  - destruct IH as (M & fl & HR & Hnd & Hlive).
    destruct (proj1 (Hlive p) Hp) as (osz & Hb).
    destruct (mm_realloc_spec fuel s M fl p osz size HR Hb Hsz Hfuel)
      as [(s0 & E0 & _) | (newp' & s0 & E0 & _ & Hne & _ & (M' & fl' & HR' & (bsz & Hn) & Hnew & Hgone & Hkeep) & _)].
    + rewrite E in E0. discriminate.
    + rewrite E in E0. injection E0 as <- <-.
      exists M', fl'. split; [exact HR'|]. split.
      * constructor; [|apply NoDup_filter; exact Hnd].
        rewrite filter_neq_In. intros [X _].
        apply Hlive in X. destruct X as (sz & X). exact (Hnew _ X).
      * intros x. cbn [In]. rewrite filter_neq_In. split.
        -- intros [<- | [X N]]; [eauto|].
           assert (x <> newp).
           { intros ->. apply Hlive in X. destruct X as (sz & X). exact (Hnew _ X). }
           apply Hlive in X. destruct X as (sz & X). exists sz. apply Hkeep; auto.
        -- intros (sz & X). destruct (Z.eq_dec x newp) as [-> | N]; [left; reflexivity|].
           right.
           assert (Np : x <> p) by (intros ->; exact (Hgone _ X)).
           split; [|exact Np]. apply Hlive. exists sz. apply Hkeep; auto.
  - destruct IH as (M & fl & HR & Hnd & Hlive).
    destruct (proj1 (Hlive p) Hp) as (sz & Hb).
    exists M, fl. split; [|split; assumption].
    rewrite (read_hdr_size _ _ (hr_layout _ _ _ HR) _ _ _ Hb) in Ha2.
    apply (payload_write_keeps_heap s (client_store s a v) M fl p sz HR Hb);
      try reflexivity; [repeat split|].
    intros y Hy. unfold client_store. cbn [mem]. apply store_other. lia.
Qed.

(** X17.  In every reachable heap the addresses held by the client are
    distinct, 8-byte aligned payloads of allocated blocks inside the
    heap, and no two of these blocks overlap. *)
Theorem reachable_live_blocks_disjoint (s : state) (live : list Z) :
  reach s live ->
  heap_ok s /\ NoDup live /\
  (forall p, In p live ->
     p mod 8 = 0 /\ GET_ALLOC s (HDRP p) = 1 /\ 16 <= GET_SIZE s (HDRP p) /\
     p_heap_list s + 8 <= p /\ p + GET_SIZE s (HDRP p) <= mem_brk s) /\
  (forall p q, In p live -> In q live -> p < q -> p + GET_SIZE s (HDRP p) <= q).
Proof.
  intros Hr. destruct (reach_heap_rep s live Hr) as (M & fl & HR & Hnd & Hlive).
  pose proof (hr_layout _ _ _ HR) as L.
  split; [exists M, fl; exact HR|]. split; [exact Hnd|]. split.
  - intros p Hp. destruct (proj1 (Hlive p) Hp) as (sz & Hb).
    destruct (layout_block _ _ _ _ _ L Hb) as (B1 & B2 & B3 & B4 & B5 & _).
    rewrite (read_hdr_alloc _ _ L _ _ _ Hb), (read_hdr_size _ _ L _ _ _ Hb).
    repeat split; assumption.
  - intros p q Hp Hq Hlt.
    destruct (proj1 (Hlive p) Hp) as (sz & Hb). destruct (proj1 (Hlive q) Hq) as (sq & Hbq).
    rewrite (read_hdr_size _ _ L _ _ _ Hb).
    exact (til_disj _ _ _ (lay_tiling _ _ L) _ _ _ _ _ _ Hb Hbq Hlt).
Qed.

Lemma lab_reach_two : reach lab_two [lab_base + 128; lab_base + 16].
Proof.
  assert (R0 : reach lab_heap []).
  { apply reach_init; [reflexivity | reflexivity | vm_compute; discriminate | reflexivity]. }
  assert (R1 : reach lab_one [lab_base + 16]).
  { apply (reach_malloc 2 lab_heap [] 100 (lab_base + 16) lab_one R0).
    - unfold WORD; lia.
    - vm_compute; reflexivity.
    - exact lab_one_malloc. }
  apply (reach_malloc 2 lab_one [lab_base + 16] 24 (lab_base + 128) lab_two R1).
  - unfold WORD; lia.
  - vm_compute; reflexivity.
  - exact lab_two_malloc.
Qed.

Lemma reachable_live_blocks_disjoint_witness :
  reach lab_two [lab_base + 128; lab_base + 16] /\
  heap_ok lab_two /\ NoDup [lab_base + 128; lab_base + 16] /\
  (forall p, In p [lab_base + 128; lab_base + 16] ->
     p mod 8 = 0 /\ GET_ALLOC lab_two (HDRP p) = 1 /\ 16 <= GET_SIZE lab_two (HDRP p) /\
     p_heap_list lab_two + 8 <= p /\ p + GET_SIZE lab_two (HDRP p) <= mem_brk lab_two) /\
  (forall p q, In p [lab_base + 128; lab_base + 16] ->
               In q [lab_base + 128; lab_base + 16] -> p < q ->
               p + GET_SIZE lab_two (HDRP p) <= q).
Proof.
  pose proof lab_reach_two as R.
  split; [exact R|].
  exact (reachable_live_blocks_disjoint lab_two _ R).
Defined.

(** ** The heap checker on quiescent heaps *)

(** The blocks of [M] from [cur] up to the break, in address order. *)
Inductive walk (s : state) (M : bmap) : Z -> list (Z * Z * bool) -> Prop :=
| walk_end : walk s M (mem_brk s) []
| walk_step cur sz a bl :
    M cur = Some (sz, a) -> walk s M (cur + sz) bl ->
    walk s M cur ((cur, sz, a) :: bl).

Lemma walk_exists (s : state) (M : bmap) (n : nat) :
  layout s M ->
  forall cur,
    cur = mem_brk s \/ (exists sz a, M cur = Some (sz, a)) ->
    (Z.to_nat (mem_brk s - cur) < n)%nat ->
    exists bl, walk s M cur bl.
Proof.
  intros L. pose proof (lay_tiling _ _ L) as T.
  induction n as [|n IH]; intros cur Hcur Hn; [lia|].
  destruct Hcur as [-> | (sz & a & Hb)].
  - exists []. constructor.
  - pose proof (til_bounds _ _ _ T _ _ _ Hb) as B.
    destruct (IH (cur + sz)) as [bl W].
    + destruct (til_next _ _ _ T _ _ _ Hb) as [E | (sz' & a' & E)]; [left; exact E|].
      right. eauto.
    + lia.
    + exists ((cur, sz, a) :: bl). constructor; assumption.
Qed.

Lemma walk_blocks (s : state) (M : bmap) (cur : Z) (bl : list (Z * Z * bool)) :
  layout s M -> walk s M cur bl ->
  cur <= mem_brk s /\
  (forall b sz a, In (b, sz, a) bl <-> M b = Some (sz, a) /\ cur <= b) /\
  NoDup (map (fun e => fst (fst e)) bl).
Proof.
  intros L W. pose proof (lay_tiling _ _ L) as T.
  induction W as [| cur sz a bl Hb W IH].
  - split; [lia|]. split; [|constructor].
    intros b sz a. split; [intros [] | intros [Hb Hle]].
    pose proof (til_bounds _ _ _ T _ _ _ Hb). lia.
  - destruct IH as (I1 & I2 & I3).
    pose proof (til_bounds _ _ _ T _ _ _ Hb) as B.
    split; [lia|]. split.
    + intros b sz' a'. cbn [In]. rewrite I2. split.
      * intros [X | [X Y]]; [injection X as <- <- <-; split; [exact Hb | lia]|].
        split; [exact X | lia].
      * intros [X Y].
        destruct (blocks_apart _ _ _ _ _ _ _ _ _ T Hb X) as [E | [E | E]].
        -- left. subst b. rewrite Hb in X. injection X as <- <-. reflexivity.
        -- right. split; [exact X | lia].
        -- exfalso. pose proof (til_bounds _ _ _ T _ _ _ X). lia.
    + cbn [map fst]. constructor; [|exact I3].
      intros X. apply in_map_iff in X. destruct X as ([[b sz'] a'] & E & X).
      cbn [fst] in E. subst b. apply I2 in X. lia.
Qed.

Section CheckerReads.
Variable s : state.
Variable M : bmap.
Hypothesis L : layout s M.

Lemma prologue_reads :
  GET_SIZE s (HDRP (p_heap_list s)) = 8 /\ GET_ALLOC s (HDRP (p_heap_list s)) = 1 /\
  GET s (HDRP (p_heap_list s)) = 9 /\ FTRP s (p_heap_list s) = p_heap_list s /\
  GET s (p_heap_list s) = 9 /\ NEXT_BLKP s (p_heap_list s) = p_heap_list s + 8.
Proof.
  destruct (lay_base _ _ L) as [B1 B2]. destruct (lay_brk _ _ L) as (B3 & B4 & B5).
  destruct (lay_prologue _ _ L) as [P1 P2].
  assert (T1 : load (mem s) (p_heap_list s - 4) = tag 8 true) by exact P1.
  rewrite HDRP_small by lia.
  split; [apply (GET_SIZE_tag _ _ 8 true T1); lia|].
  split; [apply (GET_ALLOC_tag _ _ 8 true T1); reflexivity|].
  split; [exact P1|].
  split.
  { replace (p_heap_list s) with (p_heap_list s + 8 - 8) at 2 by lia.
    apply (FTRP_raw _ _ 8 true T1); lia. }
  split; [exact P2|].
  apply (NEXT_BLKP_raw _ _ 8 true T1); lia.
Qed.

Lemma epilogue_reads :
  GET_SIZE s (HDRP (mem_brk s)) = 0 /\ GET_ALLOC s (HDRP (mem_brk s)) = 1.
Proof.
  destruct (lay_base _ _ L) as [B1 B2]. destruct (lay_brk _ _ L) as (B3 & B4 & B5).
  assert (T1 : load (mem s) (mem_brk s - 4) = tag 0 true) by exact (lay_epilogue _ _ L).
  rewrite HDRP_small by lia.
  split; [apply (GET_SIZE_tag _ _ 0 true T1); lia|].
  apply (GET_ALLOC_tag _ _ 0 true T1); reflexivity.
Qed.

Lemma block_reads (b sz : Z) (a : bool) :
  M b = Some (sz, a) ->
  GET_SIZE s (HDRP b) = sz /\ GET_ALLOC s (HDRP b) = (if a then 1 else 0) /\
  GET_SIZE s (FTRP s b) = sz /\ GET_ALLOC s (FTRP s b) = (if a then 1 else 0) /\
  GET s (HDRP b) = GET s (FTRP s b) /\ NEXT_BLKP s b = b + sz /\
  b mod 8 = 0 /\ 0 < sz.
Proof.
  intros Hb.
  destruct (layout_block _ _ _ _ _ L Hb) as (B1 & B2 & B3 & B4 & B5 & B6 & B7 & T1 & T2).
  split; [exact (read_hdr_size _ _ L _ _ _ Hb)|].
  split; [exact (read_hdr_alloc _ _ L _ _ _ Hb)|].
  split; [exact (read_ftr_size _ _ L _ _ _ Hb)|].
  split; [exact (read_ftr_alloc _ _ L _ _ _ Hb)|].
  split.
  { rewrite (read_FTRP _ _ L _ _ _ Hb). rewrite HDRP_small by lia.
    unfold GET. congruence. }
  split; [exact (read_NEXT_BLKP _ _ L _ _ _ Hb)|].
  split; [exact B5 | lia].
Qed.

Lemma checkblock_silent (b sz : Z) (a : bool) :
  M b = Some (sz, a) -> checkblock s b = [].
Proof.
  intros Hb. destruct (block_reads b sz a Hb) as (_ & _ & _ & _ & E & _ & A & _).
  unfold checkblock. rewrite A, E, !Z.eqb_refl. reflexivity.
Qed.

(** The line [printblock] prints for a block of the heap. *)
Definition block_line (e : Z * Z * bool) : message :=
  let '(b, sz, a) := e in MsgBlock b sz a sz a.

Lemma printblock_block (b sz : Z) (a : bool) :
  M b = Some (sz, a) -> printblock s b = [block_line (b, sz, a)].
Proof.
  intros Hb. destruct (block_reads b sz a Hb) as (E1 & E2 & E3 & E4 & _ & _ & _ & Hpos).
  unfold printblock. rewrite E1, E2, E3, E4.
  replace (sz =? 0) with false by (symmetry; apply Z.eqb_neq; lia).
  destruct a; reflexivity.
Qed.

Lemma checkheap_loop_walk (verbose : Z) (cur : Z) (bl : list (Z * Z * bool)) :
  walk s M cur bl ->
  forall fuel, (length bl < fuel)%nat ->
  checkheap_loop fuel s verbose cur =
    Some (mem_brk s, if negb (verbose =? 0) then map block_line bl else []).
Proof.
  induction 1 as [| cur sz a bl Hb W IH]; intros fuel Hf.
  - destruct fuel as [|fuel]; [cbn [length] in Hf; lia|].
    cbn [checkheap_loop]. rewrite (proj1 epilogue_reads). cbn [Z.ltb Z.compare].
    destruct (negb (verbose =? 0)); reflexivity.
  - destruct fuel as [|fuel]; [lia|]. cbn [length] in Hf.
    destruct (block_reads cur sz a Hb) as (E1 & _ & _ & _ & _ & E6 & _ & Hpos).
    cbn [checkheap_loop]. rewrite E1.
    replace (0 <? sz) with true by (symmetry; apply Z.ltb_lt; lia).
    rewrite E6, (IH fuel) by lia.
    rewrite (checkblock_silent _ _ _ Hb), (printblock_block _ _ _ Hb).
    destruct (negb (verbose =? 0)); reflexivity.
Qed.

Lemma printfree_loop_walk (cur : Z) (bl : list (Z * Z * bool)) :
  walk s M cur bl ->
  forall fuel, (length bl < fuel)%nat ->
  printfree_loop fuel s cur =
    Some (map block_line (filter (fun e => negb (snd e)) bl)).
Proof.
  induction 1 as [| cur sz a bl Hb W IH]; intros fuel Hf.
  - destruct fuel as [|fuel]; [cbn [length] in Hf; lia|].
    cbn [printfree_loop]. rewrite (proj1 epilogue_reads). reflexivity.
  - destruct fuel as [|fuel]; [lia|]. cbn [length] in Hf.
    destruct (block_reads cur sz a Hb) as (E1 & E2 & _ & _ & _ & E6 & _ & Hpos).
    cbn [printfree_loop]. rewrite E1, E2.
    replace (0 <? sz) with true by (symmetry; apply Z.ltb_lt; lia).
    rewrite E6, (IH fuel) by lia.
    rewrite (printblock_block _ _ _ Hb).
    cbn [filter snd]. destruct a; reflexivity.
Qed.

End CheckerReads.

Lemma walk_length (s : state) (M : bmap) (cur : Z) (bl : list (Z * Z * bool)) :
  layout s M -> walk s M cur bl -> cur + 16 * Z.of_nat (length bl) <= mem_brk s.
Proof.
  intros L W. pose proof (lay_tiling _ _ L) as T.
  induction W as [| cur sz a bl Hb W IH]; cbn [length]; [lia|].
  pose proof (til_bounds _ _ _ T _ _ _ Hb). lia.
Qed.

Lemma walk_heap (s : state) (M : bmap) :
  layout s M ->
  exists bl, walk s M (p_heap_list s + 8) bl /\
             (forall b sz a, In (b, sz, a) bl <-> M b = Some (sz, a)) /\
             NoDup (map (fun e => fst (fst e)) bl) /\
             p_heap_list s + 8 + 16 * Z.of_nat (length bl) <= mem_brk s.
Proof.
  intros L. pose proof (lay_tiling _ _ L) as T.
  destruct (walk_exists s M (S (Z.to_nat (mem_brk s - (p_heap_list s + 8)))) L
              (p_heap_list s + 8)) as [bl W].
  - destruct (til_first _ _ _ T) as [E | (sz & a & E)]; [left; exact E | right; eauto].
  - lia.
  - exists bl. destruct (walk_blocks _ _ _ _ L W) as (_ & I2 & I3).
    split; [exact W|]. split; [|split; [exact I3 | exact (walk_length _ _ _ _ L W)]].
    intros b sz a. rewrite I2. split; [intros [X _]; exact X|].
    intros X. split; [exact X|]. pose proof (til_bounds _ _ _ T _ _ _ X). lia.
Qed.

Lemma checkheap_eval (fuel : nat) (s : state) (M : bmap) (verbose : Z)
      (bl : list (Z * Z * bool)) :
  layout s M -> walk s M (p_heap_list s + 8) bl -> (S (length bl) < fuel)%nat ->
  mm_checkheap fuel s verbose =
    Some (if negb (verbose =? 0)
          then MsgHeap (p_heap_list s) :: MsgBlock (p_heap_list s) 8 true 8 true ::
               map block_line bl ++ [MsgEOL (mem_brk s)]
          else []).
Proof.
  intros L W Hf.
  destruct (prologue_reads s M L) as (P1 & P2 & P3 & P4 & P5 & P6).
  destruct (epilogue_reads s M L) as (Q1 & Q2).
  destruct (lay_base _ _ L) as [B1 B2].
  assert (Hcb : checkblock s (p_heap_list s) = []).
  { unfold checkblock. rewrite B2, P3, P4, P5. reflexivity. }
  assert (Hpb : printblock s (p_heap_list s) = [MsgBlock (p_heap_list s) 8 true 8 true]).
  { unfold printblock. rewrite P1, P2, P4.
    unfold GET_SIZE, GET_ALLOC. rewrite P5. reflexivity. }
  assert (Hpe : printblock s (mem_brk s) = [MsgEOL (mem_brk s)]).
  { unfold printblock. rewrite Q1. reflexivity. }
  unfold mm_checkheap. rewrite Hcb, P1, P2.
  destruct fuel as [|fuel]; [lia|].
  cbn [checkheap_loop]. rewrite P1, P6, Hcb, Hpb.
  rewrite (checkheap_loop_walk s M L verbose _ bl W fuel) by lia.
  change (0 <? 8) with true. cbv iota beta.
  rewrite Q1, Q2, Hpe.
  change (negb (8 =? DSIZE) || (1 =? 0)) with false.
  change (negb (0 =? 0) || (1 =? 0)) with false.
  destruct (negb (verbose =? 0)); cbn [app]; [|reflexivity].
  rewrite app_nil_r. reflexivity.
Qed.

Lemma checker_fuel (fuel : nat) (s : state) (M : bmap) (bl : list (Z * Z * bool)) :
  layout s M -> walk s M (p_heap_list s + 8) bl ->
  (mem_brk s - p_heap_list s) / 8 < Z.of_nat fuel -> (S (length bl) < fuel)%nat.
Proof.
  intros L W H. pose proof (walk_length _ _ _ _ L W). lia.
Qed.

(** X27.  The checker accepts every quiescent heap: with [verbose] off,
    [mm_checkheap] runs through the heap and prints nothing, neither a
    bad prologue or epilogue, nor a misaligned block, nor a block whose
    header differs from its footer. *)
Theorem mm_checkheap_silent_on_quiescent_heap (fuel : nat) (s : state) :
  heap_ok s -> (mem_brk s - p_heap_list s) / 8 < Z.of_nat fuel ->
  mm_checkheap fuel s 0 = Some [].
Proof.
  intros (M & fl & HR) Hf. pose proof (hr_layout _ _ _ HR) as L.
  destruct (walk_heap s M L) as (bl & W & _).
  rewrite (checkheap_eval fuel s M 0 bl L W (checker_fuel _ _ _ _ L W Hf)).
  reflexivity.
Qed.

Lemma lab_two_ok : heap_ok lab_two.
Proof. exists lab_two_map, [lab_base + 128 + 32]. exact lab_two_rep. Qed.

Lemma mm_checkheap_silent_on_quiescent_heap_witness :
  heap_ok lab_two /\ (mem_brk lab_two - p_heap_list lab_two) / 8 < Z.of_nat 600 /\
  mm_checkheap 600 lab_two 0 = Some [].
Proof.
  pose proof lab_two_ok as H1.
  assert (H2 : (mem_brk lab_two - p_heap_list lab_two) / 8 < Z.of_nat 600)
    by (vm_compute; reflexivity).
  split; [exact H1|]. split; [exact H2|].
  exact (mm_checkheap_silent_on_quiescent_heap 600 lab_two H1 H2).
Defined.

(** X28.  With [verbose] on, [mm_checkheap] on a quiescent heap prints the heap
    line, the prologue, one line for each block of the heap in address
    order, and the end-of-list line for the epilogue, and no error; on
    every block line the footer shows the size and the flag of the
    header. *)
Theorem mm_checkheap_verbose_lists_blocks (fuel : nat) (s : state) (M : bmap)
        (fl : list Z) (verbose : Z) :
  heap_rep s M fl -> verbose <> 0 ->
  (mem_brk s - p_heap_list s) / 8 < Z.of_nat fuel ->
  exists bl,
    walk s M (p_heap_list s + 8) bl /\
    (forall b sz a, In (b, sz, a) bl <-> M b = Some (sz, a)) /\
    mm_checkheap fuel s verbose =
      Some (MsgHeap (p_heap_list s) :: MsgBlock (p_heap_list s) 8 true 8 true ::
            map block_line bl ++ [MsgEOL (mem_brk s)]).
Proof.
  intros HR Hv Hf. pose proof (hr_layout _ _ _ HR) as L.
  destruct (walk_heap s M L) as (bl & W & Hin & _).
  exists bl. split; [exact W|]. split; [exact Hin|].
  rewrite (checkheap_eval fuel s M verbose bl L W (checker_fuel _ _ _ _ L W Hf)).
  replace (verbose =? 0) with false by (symmetry; apply Z.eqb_neq; exact Hv).
  reflexivity.
Qed.

Lemma mm_checkheap_verbose_lists_blocks_witness :
  heap_rep lab_two lab_two_map [lab_base + 128 + 32] /\ 1 <> 0 /\
  (mem_brk lab_two - p_heap_list lab_two) / 8 < Z.of_nat 600 /\
  exists bl,
    walk lab_two lab_two_map (p_heap_list lab_two + 8) bl /\
    (forall b sz a, In (b, sz, a) bl <-> lab_two_map b = Some (sz, a)) /\
    mm_checkheap 600 lab_two 1 =
      Some (MsgHeap (p_heap_list lab_two) :: MsgBlock (p_heap_list lab_two) 8 true 8 true ::
            map block_line bl ++ [MsgEOL (mem_brk lab_two)]).
Proof.
  pose proof lab_two_rep as H1.
  assert (H2 : 1 <> 0) by discriminate.
  assert (H3 : (mem_brk lab_two - p_heap_list lab_two) / 8 < Z.of_nat 600)
    by (vm_compute; reflexivity).
  split; [exact H1|]. split; [exact H2|]. split; [exact H3|].
  exact (mm_checkheap_verbose_lists_blocks 600 lab_two _ _ 1 H1 H2 H3).
Defined.

(** The addresses of the free blocks of a walk are distinct. *)
Lemma free_addresses_nodup (bl : list (Z * Z * bool)) :
  NoDup (map (fun e => fst (fst e)) bl) ->
  NoDup (map (fun e => fst (fst e)) (filter (fun e => negb (snd e)) bl)).
Proof.
  intros Hnd. induction bl as [|[[b sz] a] bl IH]; [constructor|].
  cbn [map filter fst snd] in *.
  apply NoDup_cons_iff in Hnd. destruct Hnd as [Hb Hrest].
  destruct a; cbn [negb map fst]; [exact (IH Hrest)|].
  constructor; [|exact (IH Hrest)].
  intros X. apply Hb.
  apply in_map_iff in X. destruct X as (e & E & Y).
  apply filter_In in Y. apply in_map_iff. exists e. tauto.
Qed.

(** The line [printfree] prints for a free block. *)
Definition free_line (s : state) (b : Z) : message :=
  MsgBlock b (GET_SIZE s (HDRP b)) false (GET_SIZE s (HDRP b)) false.

(** X29.  The heap walk and the free list agree.  On a quiescent heap
    [printfree], which walks the heap block by block and prints the
    blocks whose header is tagged free, prints one line for each block
    of the free list and nothing else, no block twice. *)
Theorem printfree_prints_free_list (fuel : nat) (s : state) (M : bmap) (fl : list Z) :
  heap_rep s M fl -> (mem_brk s - p_heap_list s) / 8 < Z.of_nat fuel ->
  exists printed,
    printfree fuel s = Some (map (free_line s) printed) /\
    NoDup printed /\
    (forall b, In b printed <-> In b fl) /\
    length printed = length fl.
Proof.
  intros HR Hf. pose proof (hr_layout _ _ _ HR) as L. pose proof (hr_flist _ _ _ HR) as F.
  destruct (walk_heap s M L) as (bl & W & Hin & Hnd & _).
  pose proof (checker_fuel _ _ _ _ L W Hf) as Hfuel.
  destruct (prologue_reads s M L) as (P1 & P2 & _ & _ & _ & P6).
  set (printed := map (fun e => fst (fst e)) (filter (fun e => negb (snd e)) bl)).
  assert (Hnd' : NoDup printed) by (apply free_addresses_nodup; exact Hnd).
  assert (Hiff : forall b, In b printed <-> In b fl).
  { intros b. unfold printed. rewrite in_map_iff. split.
    - intros ([[b' sz] a] & E & X). cbn [fst] in E. subst b'.
      apply filter_In in X. destruct X as [X Y]. cbn [snd] in Y.
      destruct a; [discriminate|]. apply Hin in X.
      exact (hr_listed _ _ _ HR _ _ X).
    - intros X. destruct (fl_free _ _ _ F b X) as [sz Hb].
      exists (b, sz, false). split; [reflexivity|].
      apply filter_In. split; [apply Hin; exact Hb | reflexivity]. }
  exists printed. split; [|split; [exact Hnd' | split; [exact Hiff|]]].
  - unfold printfree. destruct fuel as [|fuel]; [lia|].
    cbn [printfree_loop]. rewrite P1, P2, P6. cbn [Z.ltb Z.compare Z.eqb app].
    rewrite (printfree_loop_walk s M L _ bl W fuel) by lia.
    unfold printed. rewrite map_map. f_equal. apply map_ext_in.
    intros [[b sz] a] X. apply filter_In in X. destruct X as [X Y]. cbn [snd] in Y.
    destruct a; [discriminate|]. apply Hin in X.
    unfold free_line, block_line. cbn [fst].
    rewrite (read_hdr_size _ _ L _ _ _ X). reflexivity.
  - apply Nat.le_antisymm; apply NoDup_incl_length; auto.
    + intros b X. apply Hiff. exact X.
    + exact (fl_nodup _ _ _ F).
    + intros b X. apply Hiff. exact X.
Qed.

Lemma printfree_prints_free_list_witness :
  heap_rep lab_two lab_two_map [lab_base + 128 + 32] /\
  (mem_brk lab_two - p_heap_list lab_two) / 8 < Z.of_nat 600 /\
  exists printed,
    printfree 600 lab_two = Some (map (free_line lab_two) printed) /\
    NoDup printed /\
    (forall b, In b printed <-> In b [lab_base + 128 + 32]) /\
    length printed = length [(lab_base + 128 + 32)%Z].
Proof.
  pose proof lab_two_rep as H1.
  assert (H2 : (mem_brk lab_two - p_heap_list lab_two) / 8 < Z.of_nat 600)
    by (vm_compute; reflexivity).
  split; [exact H1|]. split; [exact H2|].
  exact (printfree_prints_free_list 600 lab_two _ _ H1 H2).
Defined.

(** ** The free list and the boundary tags agree *)

(** The heap walk of [mm_checkheap] and [printfree]: from [bp] on, step
    with [NEXT_BLKP] until a header of size 0; [bl] are the blocks
    visited. *)
Inductive heap_walk (s : state) : Z -> list Z -> Prop :=
| hw_end bp : GET_SIZE s (HDRP bp) = 0 -> heap_walk s bp []
| hw_step bp bl :
    0 < GET_SIZE s (HDRP bp) -> heap_walk s (NEXT_BLKP s bp) bl ->
    heap_walk s bp (bp :: bl).

Lemma walk_heap_walk (s : state) (M : bmap) (cur : Z) (bl : list (Z * Z * bool)) :
  layout s M -> walk s M cur bl ->
  heap_walk s cur (map (fun e => fst (fst e)) bl).
Proof.
  intros L W. induction W as [| cur sz a bl Hb W IH]; cbn [map fst].
  - apply hw_end. exact (proj1 (epilogue_reads s M L)).
  - destruct (block_reads s M L cur sz a Hb) as (E1 & _ & _ & _ & _ & E2 & _ & Hpos).
    apply hw_step; [lia|]. rewrite E2. exact IH.
Qed.

Lemma heap_walk_next (s : state) (l1 l2 : list Z) (b b' : Z) :
  forall cur, heap_walk s cur (l1 ++ b :: b' :: l2) -> b' = NEXT_BLKP s b.
Proof.
  induction l1 as [|x l1 IH]; intros cur H; cbn [app] in H.
  - inversion H as [| ? ? _ H2]; subst.
    inversion H2; subst. reflexivity.
  - inversion H as [| ? ? _ H2]; subst. exact (IH _ H2).
Qed.

(** X18.  In every reachable heap the free list and the boundary tags agree.
    The successor links from the head run through distinct blocks, as
    many as [m_freecount] says, ending in NULL.  The heap walk from the
    prologue visits distinct blocks; of these, the ones whose header is
    tagged free are exactly the blocks of the free list, and the ones
    tagged allocated are exactly the addresses the client holds.  A block
    tagged free has allocated tags on both sides, and of any two blocks
    that follow one another in the walk at least one is tagged allocated:
    no two free blocks are adjacent. *)
Theorem reachable_free_list_agrees (s : state) (live : list Z) :
  reach s live ->
  exists fl bl,
    succ_chain s (mp_firstfreeblock s) fl /\ NoDup fl /\
    m_freecount s = Z.of_nat (length fl) /\
    heap_walk s (p_heap_list s) (p_heap_list s :: bl) /\ NoDup bl /\
    (forall b, In b fl <-> In b bl /\ GET_ALLOC s (HDRP b) = 0) /\
    (forall b, In b live <-> In b bl /\ GET_ALLOC s (HDRP b) = 1) /\
    (forall b, In b bl -> GET_ALLOC s (HDRP b) = 0 ->
       GET_ALLOC s (HDRP (NEXT_BLKP s b)) = 1 /\
       GET_ALLOC s (FTRP s (PREV_BLKP s b)) = 1) /\
    (forall l1 b b' l2, bl = l1 ++ b :: b' :: l2 ->
       b' = NEXT_BLKP s b /\
       (GET_ALLOC s (HDRP b) = 1 \/ GET_ALLOC s (HDRP b') = 1)).
Proof.
  intros Hr. destruct (reach_heap_rep s live Hr) as (M & fl & HR & Hnd & Hlive).
  pose proof (hr_layout _ _ _ HR) as L. pose proof (hr_flist _ _ _ HR) as F.
  destruct (flist_succ_chain _ _ _ L F) as (C1 & _).
  destruct (walk_heap s M L) as (blM & W & Hall & Hnd' & _).
  set (bl := map (fun e => fst (fst e)) blM).
  assert (Hbl : forall b, In b bl <-> exists sz a, M b = Some (sz, a)).
  { intros b. unfold bl. rewrite in_map_iff. split.
    - intros ([[b0 sz] a] & E & Hin). cbn [fst] in E. subst b0.
      exists sz, a. apply Hall. exact Hin.
    - intros (sz & a & Hb). exists (b, sz, a). split; [reflexivity|].
      apply Hall. exact Hb. }
  assert (Hflag : forall b sz a, M b = Some (sz, a) ->
                                 GET_ALLOC s (HDRP b) = if a then 1 else 0).
  { intros b sz a Hb. exact (proj1 (proj2 (block_reads s M L b sz a Hb))). }
  assert (Hwalk : heap_walk s (p_heap_list s) (p_heap_list s :: bl)).
  { destruct (prologue_reads s M L) as (P1 & _ & _ & _ & _ & P2).
    apply hw_step; [lia|]. rewrite P2. exact (walk_heap_walk s M _ _ L W). }
  assert (Hfree : forall b, In b bl -> GET_ALLOC s (HDRP b) = 0 ->
                            exists sz, M b = Some (sz, false)).
  { intros b Hb H0. apply Hbl in Hb. destruct Hb as (sz & a & Hb).
    pose proof (Hflag _ _ _ Hb) as X. destruct a; [lia|]. exists sz. exact Hb. }
  exists fl, bl. split; [exact C1|]. split; [exact (fl_nodup _ _ _ F)|].
  split; [exact (fl_count _ _ _ F)|]. split; [exact Hwalk|]. split; [exact Hnd'|].
  split; [|split; [|split]].
  - intros b. split.
    + intros Hf. destruct (fl_free _ _ _ F b Hf) as [sz Hb].
      split; [apply Hbl; eauto | exact (Hflag _ _ _ Hb)].
    + intros [Hb H0]. destruct (Hfree b Hb H0) as [sz X].
      exact (hr_listed _ _ _ HR _ _ X).
  - intros b. rewrite Hlive. split.
    + intros (sz & Hb). split; [apply Hbl; eauto | exact (Hflag _ _ _ Hb)].
    + intros [Hb H1]. apply Hbl in Hb. destruct Hb as (sz & a & Hb).
      pose proof (Hflag _ _ _ Hb) as X. destruct a; [eauto | lia].
  - intros b Hb H0. destruct (Hfree b Hb H0) as [sz X].
    destruct (free_neighbours_allocated _ _ _ _ _ HR X) as (_ & N2 & N3).
    split; assumption.
  - intros l1 b b' l2 E.
    assert (Hn : b' = NEXT_BLKP s b).
    { apply (heap_walk_next s (p_heap_list s :: l1) l2 b b' (p_heap_list s)).
      cbn [app]. rewrite <- E. exact Hwalk. }
    split; [exact Hn|].
    assert (Hb : In b bl) by (rewrite E; apply in_elt).
    apply Hbl in Hb. destruct Hb as (sz & a & Hb).
    pose proof (Hflag _ _ _ Hb) as X. destruct a; [left; exact X|].
    right. rewrite Hn.
    exact (proj1 (proj2 (free_neighbours_allocated _ _ _ _ _ HR Hb))).
Qed.

Lemma reachable_free_list_agrees_witness :
  reach lab_two [lab_base + 128; lab_base + 16] /\
  exists fl bl,
    succ_chain lab_two (mp_firstfreeblock lab_two) fl /\ NoDup fl /\
    m_freecount lab_two = Z.of_nat (length fl) /\
    heap_walk lab_two (p_heap_list lab_two) (p_heap_list lab_two :: bl) /\ NoDup bl /\
    (forall b, In b fl <-> In b bl /\ GET_ALLOC lab_two (HDRP b) = 0) /\
    (forall b, In b [lab_base + 128; lab_base + 16] <->
               In b bl /\ GET_ALLOC lab_two (HDRP b) = 1) /\
    (forall b, In b bl -> GET_ALLOC lab_two (HDRP b) = 0 ->
       GET_ALLOC lab_two (HDRP (NEXT_BLKP lab_two b)) = 1 /\
       GET_ALLOC lab_two (FTRP lab_two (PREV_BLKP lab_two b)) = 1) /\
    (forall l1 b b' l2, bl = l1 ++ b :: b' :: l2 ->
       b' = NEXT_BLKP lab_two b /\
       (GET_ALLOC lab_two (HDRP b) = 1 \/ GET_ALLOC lab_two (HDRP b') = 1)).
Proof.
  pose proof lab_reach_two as R.
  split; [exact R|].
  exact (reachable_free_list_agrees lab_two _ R).
Defined.

(** ** Traces of the list operations *)

Ltac trace_tac :=
  st_simpl; rewrite <- ?app_assoc; cbn [app];
  eexists; split; [reflexivity | reflexivity].

Lemma allocate_block_trace (s : state) (b : Z) :
  exists l, trace (allocate_block s b) = trace s ++ EvRemove b :: l /\
            forallb is_link l = true.
Proof.
  unfold allocate_block.
  repeat match goal with
         | |- context [if ?c then _ else _] => destruct c
         end; trace_tac.
Qed.

Lemma free_block_trace (s : state) (b : Z) :
  exists l, trace (free_block s b) = trace s ++ EvInsert b :: l /\
            forallb is_link l = true.
Proof.
  unfold free_block.
  repeat match goal with
         | |- context [if ?c then _ else _] => destruct c
         end; trace_tac.
Qed.

Lemma coalesce_trace_extends (s : state) (bp : Z) :
  exists l, trace (snd (coalesce s bp)) = trace s ++ l.
Proof.
  unfold coalesce.
  destruct (GET_ALLOC s (FTRP s (PREV_BLKP s bp)) =? 0);
    destruct (GET_ALLOC s (HDRP (NEXT_BLKP s bp)) =? 0); cbn [negb andb fst snd];
    match goal with
    | |- context [free_block ?s0 ?b0] => destruct (free_block_trace s0 b0) as (l3 & E3 & _)
    end; rewrite E3; st_simpl;
    repeat match goal with
           | |- context [trace (allocate_block ?s0 ?b0)] =>
               let l := fresh "l" in
               let E := fresh "E" in
               destruct (allocate_block_trace s0 b0) as (l & E & _); rewrite E
           end;
    rewrite <- ?app_assoc; eexists; reflexivity.
Qed.

Lemma mm_free_trace (s : state) (b : Z) :
  exists l, trace (mm_free s b) = trace s ++ l.
Proof.
  unfold mm_free.
  match goal with
  | |- context [coalesce ?s0 ?b0] =>
      destruct (coalesce_trace_extends s0 b0) as (l1 & E)
  end.
  rewrite E. st_simpl. rewrite <- !app_assoc. eexists. reflexivity.
Qed.

(** X16.  The number of bytes [mm_realloc] copies is the smaller of the new
    size and the size of the old block, header and footer included, not
    the size of the old payload: when the new size exceeds the old
    payload, the copy reads up to 8 bytes past it, the old footer and the
    header of the next block. *)
Theorem mm_realloc_copies_block_size (fuel : nat) (s : state) (M : bmap) (fl : list Z)
        (ptr osz size newp : Z) (s' : state) :
  heap_rep s M fl -> M ptr = Some (osz, true) ->
  0 < size <= WORD - 16 -> m_freecount s < Z.of_nat fuel ->
  mm_realloc fuel s ptr size = Returned newp s' ->
  In (EvMemcpy newp ptr (Z.min size osz)) (trace s') /\
  osz = GET_SIZE s (HDRP ptr).
Proof.
  intros HR Hptr Hsz Hfuel E.
  pose proof (fuel_covers_list _ _ _ _ (hr_flist _ _ _ HR) Hfuel) as Hlen.
  split; [|symmetry; exact (read_hdr_size _ _ (hr_layout _ _ _ HR) _ _ _ Hptr)].
  destruct (mm_malloc_spec fuel s M fl size HR Hsz Hlen) as (p & s1 & Em & Hcase).
  unfold mm_realloc in E. rewrite Em in E.
  destruct Hcase as [(Hp & _) | (Hp & Hpost & _)].
  - rewrite Hp in E. cbn [Z.eqb NULL] in E. discriminate.
  - replace (p =? NULL) with false in E by (symmetry; apply Z.eqb_neq; exact Hp).
    destruct Hpost as (M1 & fl1 & bsz & HR1 & Hb1 & _ & _ & _ & _ & _ & Hnew & Hkeep & _).
    assert (Hne : ptr <> p) by (intros <-; exact (Hnew _ Hptr)).
    assert (Hptr1 : M1 ptr = Some (osz, true)) by (apply Hkeep; assumption).
    rewrite (read_hdr_size _ _ (hr_layout _ _ _ HR1) _ _ _ Hptr1) in E.
    injection E as <- <-.
    match goal with
    | |- In _ (trace (mm_free ?s0 ?b0)) => destruct (mm_free_trace s0 b0) as (l & El)
    end.
    rewrite El. apply in_or_app. left.
    unfold memcpy. st_simpl. apply in_or_app. right. left.
    f_equal. destruct (Z.ltb_spec size osz); lia.
Qed.

Lemma mm_realloc_copies_block_size_witness :
  heap_rep lab_two lab_two_map [lab_base + 128 + 32] /\
  lab_two_map (lab_base + 16) = Some (112, true) /\
  0 < 200 <= WORD - 16 /\ m_freecount lab_two < Z.of_nat 2 /\
  mm_realloc 2 lab_two (lab_base + 16) 200 =
    Returned (lab_base + 160)
      (mm_free (memcpy (place lab_two (lab_base + 160) 208) (lab_base + 160)
                       (lab_base + 16) 112) (lab_base + 16)) /\
  In (EvMemcpy (lab_base + 160) (lab_base + 16) (Z.min 200 112))
     (trace (mm_free (memcpy (place lab_two (lab_base + 160) 208) (lab_base + 160)
                             (lab_base + 16) 112) (lab_base + 16))) /\
  112 = GET_SIZE lab_two (HDRP (lab_base + 16)).
Proof.
  pose proof lab_two_rep as HR.
  assert (H2 : lab_two_map (lab_base + 16) = Some (112, true)) by reflexivity.
  assert (H3 : 0 < 200 <= WORD - 16) by (unfold WORD; lia).
  assert (H4 : m_freecount lab_two < Z.of_nat 2) by (vm_compute; reflexivity).
  assert (H5 : mm_realloc 2 lab_two (lab_base + 16) 200 =
               Returned (lab_base + 160)
                 (mm_free (memcpy (place lab_two (lab_base + 160) 208) (lab_base + 160)
                                  (lab_base + 16) 112) (lab_base + 16))).
  { unfold mm_realloc.
    rewrite (mm_malloc_eval 2 lab_two _ _ 200 HR); [|lia|cbn [length]; lia].
    cbv zeta.
    replace (adjust_size 200) with 208 by (vm_compute; reflexivity).
    replace (first_fit lab_two [lab_base + 128 + 32] 208) with (lab_base + 160)
      by (vm_compute; reflexivity).
    replace (negb (lab_base + 160 =? NULL)) with true by (vm_compute; reflexivity).
    cbv iota.
    replace (lab_base + 160 =? NULL) with false by (vm_compute; reflexivity).
    replace (GET_SIZE (place lab_two (lab_base + 160) 208) (HDRP (lab_base + 16)))
      with 112 by (vm_compute; reflexivity).
    reflexivity. }
  split; [exact HR|]. split; [exact H2|]. split; [exact H3|]. split; [exact H4|].
  split; [exact H5|].
  exact (mm_realloc_copies_block_size 2 lab_two _ _ (lab_base + 16) 112 200 _ _
           HR H2 H3 H4 H5).
Defined.

(** ** The earlier [find_fit] scans the heap, not the list *)

(** The first block of [bl] that is free and has at least [asize] bytes,
    or NULL. *)
Definition first_free_fit (asize : Z) (bl : list (Z * Z * bool)) : Z :=
  match find (fun e => negb (snd e) && (asize <=? snd (fst e))) bl with
  | Some e => fst (fst e)
  | None => NULL
  end.

Lemma old_find_fit_loop_end (s : state) (M : bmap) (freecount asize : Z) :
  layout s M ->
  forall n i, old_find_fit_loop n s freecount asize (mem_brk s) i = NULL.
Proof.
  intros L. destruct (epilogue_reads s M L) as (Q1 & Q2).
  destruct (lay_base _ _ L) as [B1 B2]. destruct (lay_brk _ _ L) as (B3 & B4 & B5).
  assert (Hn : NEXT_BLKP s (mem_brk s) = mem_brk s).
  { replace (mem_brk s) with (mem_brk s + 0) at 2 by lia.
    apply (NEXT_BLKP_raw s (mem_brk s) 0 true); try lia.
    exact (lay_epilogue _ _ L). }
  induction n as [|n IH]; intros i; [reflexivity|].
  cbn [old_find_fit_loop]. rewrite Q2. cbn [Z.eqb andb]. rewrite Hn.
  destruct (i <? freecount - 1); apply IH.
Qed.

Lemma old_find_fit_loop_walk (s : state) (M : bmap) (freecount asize : Z)
      (cur : Z) (bl : list (Z * Z * bool)) :
  layout s M -> walk s M cur bl ->
  forall n i, Z.of_nat n = freecount - i ->
  old_find_fit_loop n s freecount asize cur i = first_free_fit asize (firstn n bl).
Proof.
  intros L W. induction W as [| cur sz a bl Hb W IH]; intros n i Hn.
  - rewrite firstn_nil. apply (old_find_fit_loop_end s M _ _ L).
  - destruct n as [|n]; [reflexivity|].
    destruct (block_reads s M L cur sz a Hb) as (E1 & E2 & _ & _ & _ & E6 & _).
    cbn [old_find_fit_loop firstn]. rewrite E1, E2, E6.
    unfold first_free_fit. cbn [find snd fst].
    destruct a; cbn [negb andb Z.eqb].
    + fold (first_free_fit asize (firstn n bl)).
      destruct (Z.ltb_spec i (freecount - 1)).
      * apply IH. lia.
      * assert (n = 0%nat) by lia. subst n. reflexivity.
    + destruct (asize <=? sz); [reflexivity|].
      fold (first_free_fit asize (firstn n bl)).
      destruct (Z.ltb_spec i (freecount - 1)).
      * apply IH. lia.
      * assert (n = 0%nat) by lia. subst n. reflexivity.
Qed.

(** X30.  The [find_fit] of the first draft is a first fit in address order: it
    looks at the [freecount] blocks that follow [freelist] physically in
    the heap, ignoring the links of the free list, and returns the
    first of them that is free and large enough, or NULL. *)
Theorem old_find_fit_scans_heap (s : state) (M : bmap) (freelist freecount asize : Z)
        (bl : list (Z * Z * bool)) :
  layout s M -> walk s M freelist bl ->
  old_find_fit s freelist freecount asize =
    first_free_fit asize (firstn (Z.to_nat freecount) bl).
Proof.
  intros L W. unfold old_find_fit.
  destruct (Z.le_gt_cases 0 freecount) as [H | H].
  - apply (old_find_fit_loop_walk s M freecount asize freelist bl L W). lia.
  - replace (Z.to_nat freecount) with 0%nat by lia. reflexivity.
Qed.

Lemma old_find_fit_scans_heap_witness :
  layout lab_two lab_two_map /\
  walk lab_two lab_two_map (lab_base + 16)
       [(lab_base + 16, 112, true); (lab_base + 128, 32, true);
        (lab_base + 160, 3952, false)] /\
  old_find_fit lab_two (lab_base + 16) 3 100 =
    first_free_fit 100
      (firstn (Z.to_nat 3)
         [(lab_base + 16, 112, true); (lab_base + 128, 32, true);
          (lab_base + 160, 3952, false)]).
Proof.
  pose proof (hr_layout _ _ _ lab_two_rep) as L.
  assert (W : walk lab_two lab_two_map (lab_base + 16)
                [(lab_base + 16, 112, true); (lab_base + 128, 32, true);
                 (lab_base + 160, 3952, false)]).
  { apply walk_step; [reflexivity|].
    change (lab_base + 16 + 112) with (lab_base + 128).
    apply walk_step; [reflexivity|].
    change (lab_base + 128 + 32) with (lab_base + 160).
    apply walk_step; [reflexivity|].
    replace (lab_base + 160 + 3952) with (mem_brk lab_two) by (vm_compute; reflexivity).
    apply walk_end. }
  split; [exact L|]. split; [exact W|].
  exact (old_find_fit_scans_heap lab_two _ (lab_base + 16) 3 100 _ L W).
Defined.
(** ** The order of the writes of [coalesce] *)

(** The merge cases, evaluated. *)




(** ** Which words the list operations write *)






(** ** C6: the neighbours leave the list before the tags are rewritten *)





(** A heap with work for every part of [coalesce]: of the three blocks of
    [lab_two] the first has been freed; the second is being freed, tagged
    free but not yet listed, between two free blocks. *)
Definition lab_gap : state :=
  free_block (PUT (PUT lab_two (lab_base + 16 - 4) 112) (lab_base + 16 + 112 - 8) 112)
             (lab_base + 16).



Definition lab_both : state :=
  PUT (PUT lab_gap (lab_base + 128 - 4) 32) (lab_base + 128 + 32 - 8) 32.




(** On that heap both neighbours are free: the block at [lab_base + 160]
    and then the block at [lab_base + 16] are removed, the tags of the
    merged block of 4096 bytes are written, and the block at
    [lab_base + 16] is inserted. *)
Lemma lab_both_merge :
  fst (coalesce lab_both (lab_base + 128)) = lab_base + 16 /\
  filter (fun e => negb (is_link e))
         (skipn (length (trace lab_both)) (trace (snd (coalesce lab_both (lab_base + 128))))) =
    [EvRemove (lab_base + 160); EvRemove (lab_base + 16);
     EvPut (lab_base + 12) 4096; EvPut (lab_base + 16 + 4096 - 8) 4096;
     EvInsert (lab_base + 16)].
Proof. vm_compute. split; reflexivity. Qed.

(** * The claims that the unchecked size adjustment breaks

    [mm_malloc] computes the adjusted size in 32-bit arithmetic and does
    not check for overflow: for a request above 2^32 - 16 bytes the
    adjusted size is 0 or 8, and [place] is called with it. *)

(** ** [place] with an adjusted size of 0 *)

Lemma place_zero_eval (s : state) (M : bmap) (b : Z) (fl : list Z) (csz : Z) :
  heap_rep s M (b :: fl) -> M b = Some (csz, false) ->
  place s b 0 =
    free_block (PUT (PUT (PUT (PUT (allocate_block s b) (b - 4) 1) (b - 8) 1)
                         (b - 4) csz) (b + csz - 8) csz) b.
Proof.
  intros HR Hb. pose proof (hr_layout _ _ _ HR) as L. pose proof (hr_flist _ _ _ HR) as F.
  destruct (layout_block _ _ _ _ _ L Hb) as (B1 & B2 & B3 & B4 & B5 & B6 & B7 & T1 & T2).
  unfold place. rewrite (read_hdr_size _ _ L _ _ _ Hb).
  rewrite (wsub_small csz 0) by lia. rewrite Z.sub_0_r.
  replace (DSIZE + OVERHEAD <=? csz) with true
    by (symmetry; apply Z.leb_le; unfold DSIZE, OVERHEAD; lia).
  set (s1 := allocate_block s b) in *.
  rewrite HDRP_small by lia.
  change (PACK 0 1) with 1. rewrite PACK_free.
  set (s2 := PUT s1 (b - 4) 1).
  assert (E2 : FTRP s2 b = b - 8).
  { unfold FTRP. rewrite HDRP_small by lia.
    rewrite (GET_SIZE_tag s2 (b - 4) 0 true); try lia.
    - unfold DSIZE. rewrite wadd_small by lia. rewrite Z.add_0_r.
      apply wsub_small. lia.
    - unfold s2. st_simpl. rewrite load_store_same. reflexivity. }
  rewrite E2. set (s3 := PUT s2 (b - 8) 1).
  assert (E3 : NEXT_BLKP s3 b = b).
  { assert (X : NEXT_BLKP s3 b = b + 0); [|rewrite X; lia].
    apply (NEXT_BLKP_raw s3 b 0 true); try lia.
    unfold s3, s2. st_simpl. ld. }
  rewrite E3. rewrite HDRP_small by lia.
  set (s4 := PUT s3 (b - 4) csz).
  assert (E4 : FTRP s4 b = b + csz - 8).
  { apply (FTRP_raw s4 b csz false); try lia.
    unfold s4. st_simpl. rewrite load_store_same. unfold tag. apply wrap_small. lia. }
  rewrite E4. reflexivity.
Qed.

Lemma free_block_below_kept (s : state) (b q : Z) :
  8 <= b -> b + 8 < WORD -> q + 4 <= b ->
  mp_firstfreeblock s + 4 <= q \/ q + 4 <= mp_firstfreeblock s ->
  load (mem (free_block s b)) q = load (mem s) q.
Proof.
  intros Hb Hw Hq Hh.
  assert (Hsuc : SUC_PTR b = b + 4) by (apply SUC_PTR_small; lia).
  unfold free_block. cbn [mp_firstfreeblock p_heap_list m_freecount set_freecount log].
  destruct ((mp_firstfreeblock s =? p_heap_list s) || (mp_firstfreeblock s =? NULL));
    st_simpl; rewrite Hsuc; ld.
Qed.

(** What the word below the header of a block is: the footer of the
    block before it, or of the prologue. *)
Lemma word_below_header (s : state) (M : bmap) (b sz : Z) (a : bool) :
  layout s M -> M b = Some (sz, a) ->
  (b = p_heap_list s + 8 /\ load (mem s) (b - 8) = 9) \/
  (exists b' sz' a', M b' = Some (sz', a') /\ b' + sz' = b /\
                     load (mem s) (b - 8) = tag sz' a' /\ 16 <= sz').
Proof.
  intros L Hb. pose proof (lay_tiling _ _ L) as T.
  destruct (til_prev _ _ _ T _ _ _ Hb) as [E | (b' & sz' & a' & E1 & E2)].
  - left. split; [exact E|]. rewrite E.
    replace (p_heap_list s + 8 - 8) with (p_heap_list s) by lia.
    exact (proj2 (lay_prologue _ _ L)).
  - right. exists b', sz', a'.
    destruct (layout_block _ _ _ _ _ L E1) as (C1 & C2 & C3 & C4 & C5 & C6 & C7 & T1 & T2).
    split; [exact E1|]. split; [exact E2|]. split; [|lia].
    rewrite <- E2. exact T2.
Qed.

Lemma place_zero_effect (s : state) (M : bmap) (b : Z) (fl : list Z) (csz : Z) :
  heap_rep s M (b :: fl) -> M b = Some (csz, false) ->
  mp_firstfreeblock (place s b 0) = b /\
  m_freecount (place s b 0) = m_freecount s /\
  load (mem (place s b 0)) (b - 4) = csz /\
  load (mem (place s b 0)) (b - 8) = 1 /\
  8 <= load (mem s) (b - 8) /\
  mem_brk (place s b 0) = mem_brk s.
Proof.
  intros HR Hb. pose proof (hr_layout _ _ _ HR) as L. pose proof (hr_flist _ _ _ HR) as F.
  destruct (layout_block _ _ _ _ _ L Hb) as (B1 & B2 & B3 & B4 & B5 & B6 & B7 & T1 & T2).
  destruct (allocate_block_spec s M [] fl b L F) as (L1 & F1 & (R1 & R2 & R3) & _).
  cbn [app] in F1.
  rewrite (place_zero_eval s M b fl csz HR Hb).
  set (s1 := allocate_block s b) in *.
  set (s5 := PUT (PUT (PUT (PUT s1 (b - 4) 1) (b - 8) 1) (b - 4) csz) (b + csz - 8) csz).
  assert (Hh : mp_firstfreeblock s5 + 4 <= b - 8 \/ b <= mp_firstfreeblock s5).
  { change (mp_firstfreeblock s5) with (mp_firstfreeblock s1).
    rewrite (fl_head _ _ _ F1).
    destruct fl as [|h r]; cbn [hd]; [unfold NULL; lia|].
    destruct (fl_free _ _ _ F1 h (or_introl eq_refl)) as [hsz Hh].
    assert (h <> b).
    { intros ->. pose proof (fl_nodup _ _ _ F) as N.
      apply NoDup_cons_iff in N. apply (proj1 N). left. reflexivity. }
    destruct (layout_block _ _ _ _ _ L Hh) as (C1 & C2 & C3 & _).
    destruct (layout_apart _ _ _ _ _ _ _ _ L Hb Hh) as [X | [X | X]]; lia. }
  destruct (free_block_header_kept s5 b) as (X1 & X2 & X3); try lia.
  split; [exact X1|]. split; [|split; [|split; [|split]]].
  - rewrite X2. change (m_freecount s5) with (m_freecount s1).
    rewrite (fl_count _ _ _ F1), (fl_count _ _ _ F). cbn [length]. lia.
  - rewrite X3. unfold s5. st_simpl. ld. apply wrap_small. lia.
  - rewrite (free_block_below_kept s5 b (b - 8)) by lia.
    unfold s5. st_simpl. ld.
  - destruct (word_below_header s M b csz false L Hb)
      as [(_ & E) | (b' & sz' & a' & _ & _ & E & Hsz)]; rewrite E; [lia|].
    destruct a'; unfold tag; lia.
  - destruct (free_block_regs s5 b) as (Q1 & _). rewrite Q1.
    change (mem_brk s5) with (mem_brk s1). exact R1.
Qed.

Lemma oversized_request_eval (fuel : nat) (s : state) (M : bmap) (b : Z) (fl : list Z)
      (csz size : Z) :
  heap_rep s M (b :: fl) -> M b = Some (csz, false) ->
  WORD - 16 < size <= WORD - 8 -> (0 < fuel)%nat ->
  adjust_size size = 0 /\ b <> NULL /\
  find_fit fuel s 0 = Some b /\
  mm_malloc fuel s size = Some (b, place s b 0).
Proof.
  intros HR Hb Hsz Hfuel. destruct fuel as [|fuel]; [lia|].
  pose proof (hr_layout _ _ _ HR) as L.
  destruct (layout_block _ _ _ _ _ L Hb) as (B1 & B2 & B3 & B4 & B5 & B6 & B7 & _).
  assert (Hsz' : WORD - 16 < size < WORD) by lia.
  destruct (adjust_size_wrap_values size Hsz') as (A0 & _).
  assert (Ha : adjust_size size = 0) by (apply A0; lia).
  assert (Hle : 0 <= csz) by lia.
  pose proof (find_fit_head fuel _ _ _ _ _ _ HR Hb Hle) as Hff.
  assert (Hnull : b <> NULL) by (unfold NULL; lia).
  split; [exact Ha|]. split; [exact Hnull|]. split; [exact Hff|].
  unfold mm_malloc.
  replace (size <=? 0) with false by (symmetry; apply Z.leb_gt; unfold WORD in *; lia).
  rewrite Ha, Hff.
  replace (b =? NULL) with false by (symmetry; apply Z.eqb_neq; exact Hnull).
  reflexivity.
Qed.

(** ** C3: [place] is reached with an adjusted size of 0 *)

(** C3.  For a request between 2^32 - 15 and 2^32 - 8 bytes the adjusted
    size wraps to 0 and [mm_malloc] calls [place] with it on the head [b]
    of the free list.  The leftover is the whole block, so [place]
    splits: the remainder it formats and inserts starts at [b] itself.
    After the call [b], the address returned to the caller, is tagged
    free at its old size and heads the free list, whose counter is what
    it was; the footer tag of the part of size 0, [PACK 0 1], has been
    written at [b - 8], below the block, over the footer of the block
    before it or of the prologue. *)
Theorem C3_place_zero_size_relists (fuel : nat) (s : state) (M : bmap) (b : Z)
        (fl : list Z) (csz size : Z) :
  heap_rep s M (b :: fl) -> M b = Some (csz, false) ->
  WORD - 16 < size <= WORD - 8 -> (0 < fuel)%nat ->
  adjust_size size = 0 /\
  mm_malloc fuel s size = Some (b, place s b (adjust_size size)) /\
  GET_ALLOC (place s b (adjust_size size)) (HDRP b) = 0 /\
  GET_SIZE (place s b (adjust_size size)) (HDRP b) = csz /\
  mp_firstfreeblock (place s b (adjust_size size)) = b /\
  m_freecount (place s b (adjust_size size)) = m_freecount s /\
  GET (place s b (adjust_size size)) (b - 8) = PACK 0 1 /\
  GET s (b - 8) <> PACK 0 1.
Proof.
  intros HR Hb Hsz Hfuel.
  destruct (oversized_request_eval fuel s M b fl csz size HR Hb Hsz Hfuel)
    as (Ha & _ & _ & Em).
  rewrite Ha. split; [reflexivity|]. split; [exact Em|].
  pose proof (hr_layout _ _ _ HR) as L.
  destruct (layout_block _ _ _ _ _ L Hb) as (B1 & B2 & B3 & B4 & B5 & B6 & B7 & _).
  destruct (place_zero_effect s M b fl csz HR Hb) as (P1 & P2 & P3 & P4 & P5 & _).
  assert (Hh : load (mem (place s b 0)) (b - 4) = tag csz false) by exact P3.
  rewrite HDRP_small by lia.
  split; [exact (GET_ALLOC_tag _ _ csz false Hh B4)|].
  split; [apply (GET_SIZE_tag _ _ csz false Hh); lia|].
  split; [exact P1|]. split; [exact P2|].
  unfold GET. change (PACK 0 1) with 1. split; [exact P4 | lia].
Qed.

Lemma C3_witness :
  heap_rep lab_heap (initial_map lab_base) [lab_base + 16] /\
  initial_map lab_base (lab_base + 16) = Some (4096, false) /\
  WORD - 16 < 4294967281 <= WORD - 8 /\ (0 < 1)%nat /\
  adjust_size 4294967281 = 0 /\
  mm_malloc 1 lab_heap 4294967281 =
    Some (lab_base + 16, place lab_heap (lab_base + 16) (adjust_size 4294967281)) /\
  GET_ALLOC (place lab_heap (lab_base + 16) (adjust_size 4294967281))
            (HDRP (lab_base + 16)) = 0 /\
  GET_SIZE (place lab_heap (lab_base + 16) (adjust_size 4294967281))
           (HDRP (lab_base + 16)) = 4096 /\
  mp_firstfreeblock (place lab_heap (lab_base + 16) (adjust_size 4294967281)) =
    lab_base + 16 /\
  m_freecount (place lab_heap (lab_base + 16) (adjust_size 4294967281)) =
    m_freecount lab_heap /\
  GET (place lab_heap (lab_base + 16) (adjust_size 4294967281)) (lab_base + 16 - 8) =
    PACK 0 1 /\
  GET lab_heap (lab_base + 16 - 8) <> PACK 0 1.
Proof.
  destruct lab_heap_rep as (HR & _).
  assert (H2 : initial_map lab_base (lab_base + 16) = Some (4096, false)) by reflexivity.
  assert (H3 : WORD - 16 < 4294967281 <= WORD - 8) by (unfold WORD; lia).
  assert (H4 : (0 < 1)%nat) by lia.
  split; [exact HR|]. split; [exact H2|]. split; [exact H3|]. split; [exact H4|].
  exact (C3_place_zero_size_relists 1 lab_heap _ _ _ 4096 4294967281 HR H2 H3 H4).
Defined.

(** ** C10: a fit from the list, and a write outside the chosen block *)

(** C10.  For a request between 2^32 - 15 and 2^32 - 8 bytes [find_fit]
    returns the head [b] of the free list as a fit for the wrapped
    adjusted size, and [mm_malloc] completes without growing the heap:
    the break is unchanged.  But the word at [b - 8] is not part of the
    chosen block, whose first word is its header at [b - 4]: it is the
    footer of the prologue, when [b] is the first block, or else of the
    block that ends where [b] begins.  That footer is overwritten: it
    held a size of at least 8 and holds [PACK 0 1] after the call. *)
Theorem C10_fit_from_list_writes_outside (fuel : nat) (s : state) (M : bmap) (b : Z)
        (fl : list Z) (csz size : Z) :
  heap_rep s M (b :: fl) -> M b = Some (csz, false) ->
  WORD - 16 < size <= WORD - 8 -> (0 < fuel)%nat ->
  find_fit fuel s (adjust_size size) = Some b /\ b <> NULL /\
  exists s',
    mm_malloc fuel s size = Some (b, s') /\
    mem_brk s' = mem_brk s /\
    (b = p_heap_list s + 8 \/
     exists b' sz' a', M b' = Some (sz', a') /\ b' + sz' = b) /\
    8 <= GET_SIZE s (b - 8) /\
    GET s' (b - 8) = PACK 0 1 /\ GET_SIZE s' (b - 8) = 0.
Proof.
  intros HR Hb Hsz Hfuel.
  destruct (oversized_request_eval fuel s M b fl csz size HR Hb Hsz Hfuel)
    as (Ha & Hn & Hff & Em).
  rewrite Ha. split; [exact Hff|]. split; [exact Hn|].
  pose proof (hr_layout _ _ _ HR) as L.
  destruct (layout_block _ _ _ _ _ L Hb) as (B1 & B2 & B3 & B4 & B5 & B6 & B7 & _).
  destruct (place_zero_effect s M b fl csz HR Hb) as (_ & _ & _ & P4 & _ & P6).
  exists (place s b 0). split; [exact Em|]. split; [exact P6|].
  assert (Hz : load (mem (place s b 0)) (b - 8) = tag 0 true) by exact P4.
  split; [|split; [|split]].
  - destruct (word_below_header s M b csz false L Hb)
      as [(E & _) | (b' & sz' & a' & E1 & E2 & _)]; [left; exact E|].
    right. exists b', sz', a'. split; assumption.
  - destruct (word_below_header s M b csz false L Hb)
      as [(_ & E) | (b' & sz' & a' & E1 & _ & E & Hsz')].
    + assert (E' : load (mem s) (b - 8) = tag 8 true) by exact E.
      rewrite (GET_SIZE_tag _ _ 8 true E'); lia.
    + destruct (layout_block _ _ _ _ _ L E1) as (C1 & C2 & C3 & C4 & _).
      rewrite (GET_SIZE_tag _ _ sz' a' E); lia.
  - unfold GET. exact P4.
  - apply (GET_SIZE_tag _ _ 0 true Hz); lia.
Qed.

Lemma C10_witness :
  heap_rep lab_heap (initial_map lab_base) [lab_base + 16] /\
  initial_map lab_base (lab_base + 16) = Some (4096, false) /\
  WORD - 16 < 4294967281 <= WORD - 8 /\ (0 < 1)%nat /\
  find_fit 1 lab_heap (adjust_size 4294967281) = Some (lab_base + 16) /\
  lab_base + 16 <> NULL /\
  exists s',
    mm_malloc 1 lab_heap 4294967281 = Some (lab_base + 16, s') /\
    mem_brk s' = mem_brk lab_heap /\
    (lab_base + 16 = p_heap_list lab_heap + 8 \/
     exists b' sz' a', initial_map lab_base b' = Some (sz', a') /\
                       b' + sz' = lab_base + 16) /\
    8 <= GET_SIZE lab_heap (lab_base + 16 - 8) /\
    GET s' (lab_base + 16 - 8) = PACK 0 1 /\ GET_SIZE s' (lab_base + 16 - 8) = 0.
Proof.
  destruct lab_heap_rep as (HR & _).
  assert (H2 : initial_map lab_base (lab_base + 16) = Some (4096, false)) by reflexivity.
  assert (H3 : WORD - 16 < 4294967281 <= WORD - 8) by (unfold WORD; lia).
  assert (H4 : (0 < 1)%nat) by lia.
  split; [exact HR|]. split; [exact H2|]. split; [exact H3|]. split; [exact H4|].
  exact (C10_fit_from_list_writes_outside 1 lab_heap _ _ _ 4096 4294967281 HR H2 H3 H4).
Defined.

(** ** C1, C5, C8: clients that reach a broken heap *)

(** A request of 2^32 - 1 bytes (adjusted size 8) is served with a block
    of 8 bytes, whose footer and link slots lie in the words that follow
    its header. *)
Definition c1_calls : list call :=
  [Malloc 4294967295; Malloc 4080; Free (lab_base + 16)].

Definition c1_heap : state := state_of (run 8 c1_calls lab_heap) lab_heap.

(** C1.  The client asks for 2^32 - 1 bytes, then for 4080 bytes, and
    frees the first block.  Both requests succeed, with the addresses
    [lab_base + 16] and [lab_base + 24].  After the [mm_free] the first
    block is tagged free, the block that follows it physically is the
    second one, still held by the client, and its header is tagged free
    as well (the link write of [free_block] went over it): two adjacent
    blocks with allocated flag 0. *)
Theorem C1_adjacent_free_after_oversized_request :
  run 8 c1_calls lab_heap = Some ([lab_base + 16; lab_base + 24], c1_heap) /\
  GET_ALLOC c1_heap (HDRP (lab_base + 16)) = 0 /\
  NEXT_BLKP c1_heap (lab_base + 16) = lab_base + 24 /\
  GET_ALLOC c1_heap (HDRP (lab_base + 24)) = 0.
Proof.
  assert (H : is_some (run 8 c1_calls lab_heap) = true) by (vm_compute; reflexivity).
  assert (P : ptrs_of (run 8 c1_calls lab_heap) = [lab_base + 16; lab_base + 24])
    by (vm_compute; reflexivity).
  pose proof (run_some _ lab_heap H) as X. rewrite P in X.
  split; [unfold c1_heap; exact X|].
  split; [vm_compute; reflexivity|]. split; vm_compute; reflexivity.
Qed.

Definition c5_calls : list call :=
  [Malloc 4294967295; Malloc 24; Free (lab_base + 16)].

Definition c5_heap : state := state_of (run 8 c5_calls lab_heap) lab_heap.

(** C5.  The client asks for 2^32 - 1 bytes, then for 24 bytes, and frees
    the first block.  The free list then holds the two blocks at
    [lab_base + 16] and [lab_base + 56], and the counter says 2; but the
    block at [lab_base + 24], which follows the first one in the heap
    and is still held by the client, has a header with allocated flag 0
    and is not on the list. *)
Theorem C5_unlisted_block_tagged_free :
  run 8 c5_calls lab_heap = Some ([lab_base + 16; lab_base + 24], c5_heap) /\
  succ_chain c5_heap (mp_firstfreeblock c5_heap) [lab_base + 16; lab_base + 56] /\
  m_freecount c5_heap = 2 /\
  NEXT_BLKP c5_heap (lab_base + 16) = lab_base + 24 /\
  GET_ALLOC c5_heap (HDRP (lab_base + 24)) = 0 /\
  ~ In (lab_base + 24) [lab_base + 16; lab_base + 56].
Proof.
  assert (H : is_some (run 8 c5_calls lab_heap) = true) by (vm_compute; reflexivity).
  assert (P : ptrs_of (run 8 c5_calls lab_heap) = [lab_base + 16; lab_base + 24])
    by (vm_compute; reflexivity).
  pose proof (run_some _ lab_heap H) as X. rewrite P in X.
  split; [unfold c5_heap; exact X|].
  split.
  { cbn [succ_chain].
    repeat split; try (vm_compute; reflexivity); vm_compute; discriminate. }
  split; [vm_compute; reflexivity|]. split; [vm_compute; reflexivity|].
  split; [vm_compute; reflexivity|].
  intros [X1 | [X1 | []]]; lia.
Qed.

(** The client writes only into memory it was granted: the first word of
    its first block, and the second word of the block it got for
    2^32 - 15 bytes. *)
Definition c8_calls : list call :=
  [Malloc 4064; Malloc 4294967281;
   Store (lab_base + 16) 32; Store (lab_base + 4088 + 4) (lab_base + 20);
   Malloc 24].

(** C8.  The client asks for 4064 bytes and for 2^32 - 15 bytes (adjusted
    size 0), and gets [lab_base + 16] and [lab_base + 4088]; the second
    block is still on the free list.  It stores two words into the
    payloads of its blocks; the second store lands in the successor slot
    of the listed block.  The next [mm_malloc(24)] follows that link and
    returns [lab_base + 20], which is not a multiple of 8. *)
Theorem C8_unaligned_after_oversized_request :
  exists s,
    run 8 c8_calls lab_heap =
      Some ([lab_base + 16; lab_base + 4088; lab_base + 20], s) /\
    (lab_base + 20) mod 8 = 4 /\
    lab_base + 16 <= lab_base + 16 < lab_base + 16 + 4064 /\
    lab_base + 4088 <= lab_base + 4088 + 4 < lab_base + 4088 + 4294967281.
Proof.
  assert (H : is_some (run 8 c8_calls lab_heap) = true) by (vm_compute; reflexivity).
  assert (P : ptrs_of (run 8 c8_calls lab_heap) =
              [lab_base + 16; lab_base + 4088; lab_base + 20])
    by (vm_compute; reflexivity).
  pose proof (run_some _ lab_heap H) as X. rewrite P in X.
  exists (state_of (run 8 c8_calls lab_heap) lab_heap).
  split; [exact X|]. split; [reflexivity | lia].
Qed.

(** * C4: what [mm_realloc] copies *)

Definition is_copy (e : event) : bool :=
  match e with
  | EvMemcpy _ _ _ => true
  | _ => false
  end.

(** [s'] is [s] after some steps none of which is a [memcpy]. *)
Definition no_copy (s s' : state) : Prop :=
  exists l, trace s' = trace s ++ l /\ forallb (fun e => negb (is_copy e)) l = true.

Lemma no_copy_refl (s : state) : no_copy s s.
Proof. exists []. rewrite app_nil_r. split; reflexivity. Qed.

Lemma no_copy_trans (s1 s2 s3 : state) : no_copy s1 s2 -> no_copy s2 s3 -> no_copy s1 s3.
Proof.
  intros (l1 & E1 & F1) (l2 & E2 & F2). exists (l1 ++ l2).
  rewrite E2, E1, app_assoc. split; [reflexivity|].
  rewrite forallb_app, F1, F2. reflexivity.
Qed.

Lemma no_copy_PUT (s : state) (p v : Z) : no_copy s (PUT s p v).
Proof. exists [EvPut p v]. split; reflexivity. Qed.

Lemma no_copy_links (s s' : state) (e : event) (l : list event) :
  trace s' = trace s ++ e :: l -> is_copy e = false -> forallb is_link l = true ->
  no_copy s s'.
Proof.
  intros E He Hl. exists (e :: l). split; [exact E|].
  cbn [forallb]. rewrite He. cbn [negb andb].
  rewrite forallb_forall in *. intros x Hx. pose proof (Hl x Hx) as X.
  destruct x; try discriminate. reflexivity.
Qed.

Lemma allocate_block_no_copy (s : state) (b : Z) : no_copy s (allocate_block s b).
Proof.
  destruct (allocate_block_trace s b) as (l & E & Hl).
  exact (no_copy_links _ _ _ _ E eq_refl Hl).
Qed.

Lemma free_block_no_copy (s : state) (b : Z) : no_copy s (free_block s b).
Proof.
  destruct (free_block_trace s b) as (l & E & Hl).
  exact (no_copy_links _ _ _ _ E eq_refl Hl).
Qed.

Ltac no_copy_tac :=
  repeat first [ apply no_copy_refl
               | (eapply no_copy_trans; [|apply free_block_no_copy])
               | (eapply no_copy_trans; [|apply no_copy_PUT])
               | (eapply no_copy_trans; [|apply allocate_block_no_copy]) ].

Lemma coalesce_no_copy (s : state) (bp : Z) : no_copy s (snd (coalesce s bp)).
Proof.
  unfold coalesce.
  destruct (GET_ALLOC s (FTRP s (PREV_BLKP s bp)) =? 0);
    destruct (GET_ALLOC s (HDRP (NEXT_BLKP s bp)) =? 0); cbn [negb andb fst snd];
    no_copy_tac.
Qed.

Lemma place_no_copy (s : state) (b asize : Z) : no_copy s (place s b asize).
Proof.
  unfold place.
  destruct (DSIZE + OVERHEAD <=? wsub (GET_SIZE s (HDRP b)) asize); no_copy_tac.
Qed.

Lemma extend_heap_no_copy (s : state) (words : Z) : no_copy s (snd (extend_heap s words)).
Proof.
  unfold extend_heap, mem_sbrk.
  match goal with
  | |- context [if ?c <=? ?d then _ else _] => destruct (c <=? d)
  end.
  - match goal with
    | |- context [if ?c then _ else _] => destruct c
    end; cbn [snd].
    + exists [EvSbrk (if negb (words mod 2 =? 0) then wmul (wadd words 1) WSIZE
                      else wmul words WSIZE)].
      split; reflexivity.
    + eapply no_copy_trans; [|apply coalesce_no_copy].
      eapply no_copy_trans; [|apply no_copy_PUT].
      eapply no_copy_trans; [|apply no_copy_PUT].
      eapply no_copy_trans; [|apply no_copy_PUT].
      exists [EvSbrk (if negb (words mod 2 =? 0) then wmul (wadd words 1) WSIZE
                      else wmul words WSIZE)].
      split; reflexivity.
  - change (MINUS1 =? MINUS1) with true. cbn [snd].
    exists [EvSbrk (if negb (words mod 2 =? 0) then wmul (wadd words 1) WSIZE
                    else wmul words WSIZE)].
    split; reflexivity.
Qed.

Lemma mm_malloc_no_copy (fuel : nat) (s : state) (size p : Z) (s1 : state) :
  mm_malloc fuel s size = Some (p, s1) -> no_copy s s1.
Proof.
  unfold mm_malloc. destruct (size <=? 0).
  - intros E. injection E as _ <-. apply no_copy_refl.
  - destruct (find_fit fuel s (adjust_size size)) as [bp|]; [|discriminate].
    destruct (negb (bp =? NULL)).
    + intros E. injection E as _ <-. apply place_no_copy.
    + pose proof (extend_heap_no_copy s (Z.max (adjust_size size) CHUNKSIZE / WSIZE)) as X.
      destruct (extend_heap s (Z.max (adjust_size size) CHUNKSIZE / WSIZE)) as [bp' s'].
      cbn [snd] in X. destruct (bp' =? NULL).
      * intros E. injection E as _ <-. exact X.
      * intros E. injection E as _ <-.
        eapply no_copy_trans; [exact X | apply place_no_copy].
Qed.

Lemma mm_free_no_copy (s : state) (b : Z) : no_copy s (mm_free s b).
Proof.
  unfold mm_free.
  eapply no_copy_trans; [|apply coalesce_no_copy].
  eapply no_copy_trans; [|apply no_copy_PUT]. apply no_copy_PUT.
Qed.

(** C4.  C4, as amended.  On a quiescent heap, for a live block [ptr] of
    [osz] bytes (header and footer included, so that its payload has
    [osz - 8] bytes) and a new size between 1 and 2^32 - 16:
    when the inner [mm_malloc] returns NULL, [mm_realloc] does not return
    but exits with status 1, memory and break as they were.  Otherwise it
    returns the fresh block [newp] that [mm_malloc] gave, different from
    [ptr], allocated and with room for [size] bytes, after exactly one
    [memcpy], from [ptr] to [newp], of [min(size, osz)] bytes: the
    smaller of the new size and the size of the old block, not of the old
    payload.  The first [min(size, osz - 8)] bytes of the new payload
    are those of the old one.  The old block has then been freed: it
    lies inside the free block that heads the free list, and the heap is
    quiescent. *)
Theorem C4_realloc_copies_up_to_block_size (fuel : nat) (s : state) (M : bmap)
        (fl : list Z) (ptr osz size : Z) :
  heap_rep s M fl -> M ptr = Some (osz, true) ->
  0 < size <= WORD - 16 -> m_freecount s < Z.of_nat fuel ->
  GET_SIZE s (HDRP ptr) = osz /\
  ((exists s',
      mm_malloc fuel s size = Some (NULL, s') /\
      mm_realloc fuel s ptr size = Exited 1 s' /\
      mem s' = mem s /\ mem_brk s' = mem_brk s) \/
   (exists newp s1 s' pre post,
      mm_malloc fuel s size = Some (newp, s1) /\ newp <> NULL /\ newp <> ptr /\
      mm_realloc fuel s ptr size = Returned newp s' /\
      s' = mm_free (memcpy s1 newp ptr (Z.min size osz)) ptr /\
      trace s' = trace s ++ pre ++ EvMemcpy newp ptr (Z.min size osz) :: post /\
      forallb (fun e => negb (is_copy e)) (pre ++ post) = true /\
      heap_ok s' /\
      GET_ALLOC s' (HDRP newp) = 1 /\ size + 8 <= GET_SIZE s' (HDRP newp) /\
      (forall i, 0 <= i < Z.min size (osz - 8) ->
                 mem s' (newp + i) = mem s (ptr + i)) /\
      (let r := mp_firstfreeblock s' in
       GET_ALLOC s' (HDRP r) = 0 /\ r <= ptr /\
       ptr + osz <= r + GET_SIZE s' (HDRP r)))).
Proof.
  intros HR Hptr Hsz Hfuel.
  split; [exact (read_hdr_size _ _ (hr_layout _ _ _ HR) _ _ _ Hptr)|].
  pose proof (fuel_covers_list _ _ _ _ (hr_flist _ _ _ HR) Hfuel) as Hlen.
  destruct (mm_malloc_spec fuel s M fl size HR Hsz Hlen) as (p & s1 & Em & Hcase).
  assert (Er : mm_realloc fuel s ptr size =
               if p =? NULL then Exited 1 s1
               else Returned p
                      (mm_free (memcpy s1 p ptr
                                  (if size <? GET_SIZE s1 (HDRP ptr) then size
                                   else GET_SIZE s1 (HDRP ptr))) ptr)).
  { unfold mm_realloc. rewrite Em. reflexivity. }
  destruct (mm_realloc_spec fuel s M fl ptr osz size HR Hptr Hsz Hfuel)
    as [(s' & E & Hm & Hb)
       | (newp & s' & E & H1 & H2 & H3 & (M' & fl' & HR' & _) & H5 & H6 & H7 & H8 & _)].
  - left. destruct Hcase as [(Hp & _) | (Hp & _)].
    + subst p. cbn [Z.eqb NULL] in Er. rewrite Er in E. injection E as <-.
      exists s1. repeat split; assumption.
    + replace (p =? NULL) with false in Er by (symmetry; apply Z.eqb_neq; exact Hp).
      rewrite Er in E. discriminate.
  - right. destruct Hcase as [(Hp & _) | (Hp & Hpost & _)].
    + subst p. cbn [Z.eqb NULL] in Er. rewrite Er in E. discriminate.
    + replace (p =? NULL) with false in Er by (symmetry; apply Z.eqb_neq; exact Hp).
      destruct Hpost as (M1 & fl1 & bsz & HR1 & Hb1 & _ & _ & _ & _ & _ & Hnew & Hkeep & _).
      assert (Hne : ptr <> p) by (intros <-; exact (Hnew _ Hptr)).
      assert (Hptr1 : M1 ptr = Some (osz, true)) by (apply Hkeep; assumption).
      rewrite (read_hdr_size _ _ (hr_layout _ _ _ HR1) _ _ _ Hptr1) in Er.
      replace (if size <? osz then size else osz) with (Z.min size osz) in Er
        by (destruct (Z.ltb_spec size osz); lia).
      rewrite Er in E. injection E as <- <-.
      destruct (mm_malloc_no_copy _ _ _ _ _ Em) as (pre & Epre & Fpre).
      destruct (mm_free_no_copy (memcpy s1 p ptr (Z.min size osz)) ptr)
        as (post & Epost & Fpost).
      exists p, s1, (mm_free (memcpy s1 p ptr (Z.min size osz)) ptr), pre, post.
      split; [exact Em|]. split; [exact H1|]. split; [exact H2|].
      split; [exact Er|]. split; [reflexivity|].
      split.
      { rewrite Epost. unfold memcpy. st_simpl. rewrite Epre.
        rewrite <- !app_assoc. reflexivity. }
      split; [rewrite forallb_app, Fpre, Fpost; reflexivity|].
      split; [exists M', fl'; exact HR'|].
      split; [exact H5|]. split; [exact H6|]. split; [exact H7 | exact H8].
Qed.

Lemma C4_witness :
  heap_rep lab_two lab_two_map [lab_base + 128 + 32] /\
  lab_two_map (lab_base + 16) = Some (112, true) /\
  0 < 200 <= WORD - 16 /\ m_freecount lab_two < Z.of_nat 2 /\
  GET_SIZE lab_two (HDRP (lab_base + 16)) = 112 /\
  ((exists s',
      mm_malloc 2 lab_two 200 = Some (NULL, s') /\
      mm_realloc 2 lab_two (lab_base + 16) 200 = Exited 1 s' /\
      mem s' = mem lab_two /\ mem_brk s' = mem_brk lab_two) \/
   (exists newp s1 s' pre post,
      mm_malloc 2 lab_two 200 = Some (newp, s1) /\ newp <> NULL /\
      newp <> lab_base + 16 /\
      mm_realloc 2 lab_two (lab_base + 16) 200 = Returned newp s' /\
      s' = mm_free (memcpy s1 newp (lab_base + 16) (Z.min 200 112)) (lab_base + 16) /\
      trace s' = trace lab_two ++ pre ++
                 EvMemcpy newp (lab_base + 16) (Z.min 200 112) :: post /\
      forallb (fun e => negb (is_copy e)) (pre ++ post) = true /\
      heap_ok s' /\
      GET_ALLOC s' (HDRP newp) = 1 /\ 200 + 8 <= GET_SIZE s' (HDRP newp) /\
      (forall i, 0 <= i < Z.min 200 (112 - 8) ->
                 mem s' (newp + i) = mem lab_two (lab_base + 16 + i)) /\
      (let r := mp_firstfreeblock s' in
       GET_ALLOC s' (HDRP r) = 0 /\ r <= lab_base + 16 /\
       lab_base + 16 + 112 <= r + GET_SIZE s' (HDRP r)))).
Proof.
  pose proof lab_two_rep as HR.
  assert (H2 : lab_two_map (lab_base + 16) = Some (112, true)) by reflexivity.
  assert (H3 : 0 < 200 <= WORD - 16) by (unfold WORD; lia).
  assert (H4 : m_freecount lab_two < Z.of_nat 2) by (vm_compute; reflexivity).
  split; [exact HR|]. split; [exact H2|]. split; [exact H3|]. split; [exact H4|].
  exact (C4_realloc_copies_up_to_block_size 2 lab_two _ _ (lab_base + 16) 112 200
           HR H2 H3 H4).
Defined.

(** The state in which [mm_realloc] of the first block of [lab_two] to
    200 bytes returns. *)
Definition c4_heap : state :=
  mm_free (memcpy (place lab_two (lab_base + 160) 208) (lab_base + 160)
                  (lab_base + 16) 112) (lab_base + 16).

(** C4 as stated fails.  The first block of [lab_two] has 112 bytes, a
    payload of 104.  Reallocated to 200 bytes it is copied with a length
    of 112, not min(200, 104) = 104: the last two words copied are the
    footer of the old block and the header of the block after it, which
    are found in the new payload.  And a call that cannot allocate, here
    with a new size of 0, does not return an address: the program
    exits. *)
Lemma C4_counterexample :
  lab_two_map (lab_base + 16) = Some (112, true) /\
  mm_realloc 2 lab_two (lab_base + 16) 200 = Returned (lab_base + 160) c4_heap /\
  In (EvMemcpy (lab_base + 160) (lab_base + 16) 112) (trace c4_heap) /\
  Z.min 200 (112 - 8) = 104 /\ 104 <> 112 /\
  load (mem c4_heap) (lab_base + 160 + 104) = PACK 112 1 /\
  load (mem c4_heap) (lab_base + 160 + 108) = PACK 32 1 /\
  mm_realloc 2 lab_two (lab_base + 16) 0 = Exited 1 lab_two.
Proof.
  split; [reflexivity|].
  split.
  { unfold mm_realloc.
    rewrite (mm_malloc_eval 2 lab_two _ _ 200 lab_two_rep); [|lia|cbn [length]; lia].
    cbv zeta.
    replace (adjust_size 200) with 208 by (vm_compute; reflexivity).
    replace (first_fit lab_two [lab_base + 128 + 32] 208) with (lab_base + 160)
      by (vm_compute; reflexivity).
    replace (negb (lab_base + 160 =? NULL)) with true by (vm_compute; reflexivity).
    cbv iota.
    replace (lab_base + 160 =? NULL) with false by (vm_compute; reflexivity).
    replace (GET_SIZE (place lab_two (lab_base + 160) 208) (HDRP (lab_base + 16)))
      with 112 by (vm_compute; reflexivity).
    change (200 <? 112) with false. cbv iota. unfold c4_heap. reflexivity. }
  split.
  { unfold c4_heap.
    match goal with
    | |- In _ (trace (mm_free ?s0 ?b0)) => destruct (mm_free_trace s0 b0) as (l & El)
    end.
    rewrite El. apply in_or_app. left.
    unfold memcpy. st_simpl. apply in_or_app. right. left. reflexivity. }
  split; [reflexivity|]. split; [lia|].
  split; [vm_compute; reflexivity|]. split; [vm_compute; reflexivity|].
  reflexivity.
Qed.

(** * C9: allocate, free, allocate again *)

(** The pointer and the state of a completed [mm_malloc]. *)
Definition result (o : option (Z * state)) (dflt : state) : Z * state :=
  match o with
  | Some r => r
  | None => (NULL, dflt)
  end.

(** A quiescent heap whose only free block (88 bytes) is too small for a
    request of 100 bytes. *)
Definition small_rest_heap : state := snd (result (mm_malloc 2 lab_heap 4000) lab_heap).

(** C9.  C9, as amended.  On a quiescent heap, when [mm_malloc(100)] returns a
    block, freeing it and calling [mm_malloc(100)] again returns the same
    address, and the second call does not grow the heap: the break after
    the sequence is the break after the first call.  It is the break from
    before the first call whenever the first call was served from the
    free list. *)
Theorem C9_alloc_free_alloc (fuel : nat) (s : state) (M : bmap) (fl : list Z)
        (p : Z) (s1 : state) :
  heap_rep s M fl -> (length fl < fuel)%nat ->
  mm_malloc fuel s 100 = Some (p, s1) -> p <> NULL ->
  exists s3,
    mm_malloc fuel (mm_free s1 p) 100 = Some (p, s3) /\
    mem_brk s3 = mem_brk s1 /\
    (find_fit fuel s (adjust_size 100) <> Some NULL -> mem_brk s3 = mem_brk s).
Proof.
  intros HR Hfuel E Hp.
  assert (Hsz : 0 < 100 <= WORD - 16) by (unfold WORD; lia).
  destruct (mm_malloc_spec fuel s M fl 100 HR Hsz Hfuel) as (p' & s' & E' & Hcase).
  rewrite E in E'. injection E' as <- <-.
  destruct Hcase as [(X & _) | (_ & Hpost & Hfit & _)]; [contradiction|].
  destruct Hpost as (M1 & fl1 & bsz & HR1 & Hb1 & Hb & _ & _ & _ & Hpa & _).
  destruct (mm_free_spec s1 M1 fl1 p bsz HR1 Hb1)
    as (M2 & fl2 & r & total & HR2 & Hr & Htot & Hrp & (R1 & R2 & R3) & _).
  rewrite (Hrp Hpa) in *.
  destruct fuel as [|fuel]; [lia|].
  assert (Hle : adjust_size 100 <= total) by lia.
  pose proof (find_fit_head fuel _ _ _ _ _ _ HR2 Hr Hle) as Hff.
  set (s2 := mm_free s1 p) in *.
  assert (Hin : M2 p = Some (total, false)) by exact Hr.
  destruct (adjust_size_ok 100 Hsz) as (A1 & A2 & _).
  destruct (place_spec s2 M2 [] fl2 p total (adjust_size 100) HR2 Hr A1 A2 Hle)
    as (_ & _ & _ & _ & _ & _ & (P1 & P2 & P3) & _).
  exists (place s2 p (adjust_size 100)).
  split; [|split].
  - unfold mm_malloc. cbn [Z.leb Z.compare]. rewrite Hff.
    replace (p =? NULL) with false by (symmetry; apply Z.eqb_neq; exact Hp).
    reflexivity.
  - rewrite P1. exact R1.
  - intros Hne. rewrite P1, R1.
    assert (Hfirst : first_fit s fl (adjust_size 100) <> NULL).
    { intros X. apply Hne.
      destruct HR as [L F _ _].
      destruct (flist_succ_chain _ _ _ L F) as (C1 & C2 & C3 & C4).
      unfold find_fit. rewrite (find_fit_loop_spec s _ fl C4 _ _ C1 C2 Hfuel).
      rewrite X. reflexivity. }
    destruct (Hfit Hfirst) as (_ & _ & Hbrk). exact Hbrk.
Qed.

Lemma C9_witness :
  heap_rep lab_heap (initial_map lab_base) [lab_base + 16] /\
  (length [(lab_base + 16)%Z] < 2)%nat /\
  exists s1,
    mm_malloc 2 lab_heap 100 = Some (lab_base + 16, s1) /\
    lab_base + 16 <> NULL /\
    exists s3,
      mm_malloc 2 (mm_free s1 (lab_base + 16)) 100 = Some (lab_base + 16, s3) /\
      mem_brk s3 = mem_brk s1 /\
      (find_fit 2 lab_heap (adjust_size 100) <> Some NULL -> mem_brk s3 = mem_brk lab_heap).
Proof.
  destruct lab_heap_rep as (HR & _).
  assert (H2 : (length [(lab_base + 16)%Z] < 2)%nat) by (cbn [length]; lia).
  assert (H3 : mm_malloc 2 lab_heap 100 =
               Some (lab_base + 16, snd (result (mm_malloc 2 lab_heap 100) lab_heap))).
  { assert (X : fst (result (mm_malloc 2 lab_heap 100) lab_heap) = lab_base + 16)
      by (vm_compute; reflexivity).
    assert (Y : negb (fst (result (mm_malloc 2 lab_heap 100) lab_heap) =? NULL) = true)
      by (vm_compute; reflexivity).
    destruct (mm_malloc 2 lab_heap 100) as [[q t]|]; cbn [result fst snd] in *.
    - rewrite X. reflexivity.
    - discriminate Y. }
  assert (H4 : lab_base + 16 <> NULL) by (vm_compute; discriminate).
  split; [exact HR|]. split; [exact H2|].
  exists (snd (result (mm_malloc 2 lab_heap 100) lab_heap)).
  split; [exact H3|]. split; [exact H4|].
  exact (C9_alloc_free_alloc 2 lab_heap (initial_map lab_base) [lab_base + 16]
           (lab_base + 16) _ HR H2 H3 H4).
Defined.

Lemma result_some (o : option (Z * state)) (d : state) :
  is_some o = true -> o = Some (result o d).
Proof. destruct o; [reflexivity | discriminate]. Qed.

Lemma small_rest_heap_ok : heap_ok small_rest_heap.
Proof.
  destruct lab_heap_rep as (HR & _).
  assert (Hsz : 0 < 4000 <= WORD - 16) by (unfold WORD; lia).
  assert (Hf : (length [(lab_base + 16)%Z] < 2)%nat) by (cbn [length]; lia).
  destruct (mm_malloc_spec 2 lab_heap _ _ 4000 HR Hsz Hf) as (p & s' & E & Hcase).
  unfold small_rest_heap. rewrite E. cbn [result snd].
  destruct Hcase as [(_ & _ & X & _) | (_ & (M' & fl' & bsz & HR' & _) & _)].
  - exfalso. revert X. vm_compute. discriminate.
  - exists M', fl'. exact HR'.
Qed.

(** The three calls of the scenario on [small_rest_heap]. *)
Definition c9_first : Z * state :=
  result (mm_malloc 2 small_rest_heap 100) small_rest_heap.
Definition c9_freed : state := mm_free (snd c9_first) (fst c9_first).
Definition c9_second : Z * state :=
  result (mm_malloc 2 c9_freed 100) small_rest_heap.

(** C9 as stated fails on a quiescent heap whose free blocks are all
    smaller than the request: the first [mm_malloc(100)] grows the heap by
    a chunk, so after allocate, free, allocate the same address comes back
    but the break is 4096 bytes above its value before the first call. *)
Lemma C9_counterexample :
  heap_ok small_rest_heap /\
  mm_malloc 2 small_rest_heap 100 = Some c9_first /\
  mm_malloc 2 c9_freed 100 = Some c9_second /\
  fst c9_first <> NULL /\
  fst c9_second = fst c9_first /\
  mem_brk (snd c9_second) = mem_brk small_rest_heap + CHUNKSIZE /\
  mem_brk (snd c9_second) <> mem_brk small_rest_heap.
Proof.
  assert (H1 : is_some (mm_malloc 2 small_rest_heap 100) = true) by (vm_compute; reflexivity).
  assert (H2 : is_some (mm_malloc 2 c9_freed 100) = true) by (vm_compute; reflexivity).
  assert (H3 : mem_brk (snd c9_second) = mem_brk small_rest_heap + CHUNKSIZE)
    by (vm_compute; reflexivity).
  split; [exact small_rest_heap_ok|].
  split; [exact (result_some _ _ H1)|].
  split; [exact (result_some _ _ H2)|].
  split; [vm_compute; discriminate|].
  split; [vm_compute; reflexivity|].
  split; [exact H3|].
  rewrite H3. unfold CHUNKSIZE. lia.
Qed.
